(** * TranscribeAI: tracking-file ledgers, retry policy and prompt context

  A shallow embedding of the orchestration code of the repository:

  - [transcribe_document_main.py]             (module [Orchestrator])
  - [PreprocessPostprocess/preprocess_to_jpeg.py]   (module [Preprocess])
  - [GeminiImageTranscription/flash_process_local_dir.py] (module [Flash])
  - [PreprocessPostprocess/detect_extraneous_phrases.py] (module [Detect])

  Texts are [string]s over 8-bit characters; the Python string methods
  are exact on ASCII text.  A text file is the text Python reads from it
  (after universal-newline translation); [readlines] cuts it into the
  lines that [f.readlines()] and [for line in f] yield.  Where one script
  reads what another has written, the characters written pass through
  [read_text], the universal-newline translation, on their way to the
  reader.  Paths are POSIX paths; [os.getcwd()] is an argument.

  The scripts act on the file system and on two collaborators, the image
  library and the hosted model.  A stage is a function on a record that
  holds the ledger file, the other files and a log of what was called;
  what a collaborator answers is an argument of the stage, so every
  theorem holds for all answers.  The scores of the sentence model are
  Python floats: a rational, an infinity or a NaN; the thresholds are the
  doubles their literals denote.  File operations on the ledgers succeed,
  and the ledger of a stage is a file of its own, distinct from the
  images and the outputs. *)

From Stdlib Require Import ZArith Ascii Lia Bool.
From Stdlib Require String.
From Stdlib Require QArith.
From stdpp Require Import base gmap strings list.

Local Open Scope Z_scope.

(** ** Python string and path primitives *)

Module Text.

Definition newline : ascii := "010"%char.

(** [str.isspace] on ASCII characters: TAB LF VT FF CR, FS GS RS US and
    the space. *)
Definition is_space (c : ascii) : bool :=
  match c with
  | "009" | "010" | "011" | "012" | "013"
  | "028" | "029" | "030" | "031" | " " => true
  | _ => false
  end%char.

Fixpoint lstrip (s : string) : string :=
  match s with
  | "" => ""
  | String c s' => if is_space c then lstrip s' else s
  end.

Fixpoint rstrip (s : string) : string :=
  match s with
  | "" => ""
  | String c s' =>
      match rstrip s' with
      | "" => if is_space c then "" else String c ""
      | String _ _ as r => String c r
      end
  end.

(** [s.strip()] *)
Definition strip (s : string) : string := rstrip (lstrip s).

Definition lower_char (c : ascii) : ascii :=
  let n := nat_of_ascii c in
  if ((65 <=? n) && (n <=? 90))%nat then ascii_of_nat (n + 32) else c.

(** [s.lower()] *)
Fixpoint lower (s : string) : string :=
  match s with
  | "" => ""
  | String c s' => String (lower_char c) (lower s')
  end.

(** [s.startswith(p)] *)
Fixpoint startswith (s p : string) {struct p} : bool :=
  match p, s with
  | "", _ => true
  | String _ _, "" => false
  | String a p', String b s' => Ascii.eqb a b && startswith s' p'
  end.

(** [s.endswith(suf)] *)
Fixpoint endswith (s suf : string) : bool :=
  String.eqb s suf ||
  match s with
  | "" => false
  | String _ s' => endswith s' suf
  end.

(** [s.endswith(tuple)] *)
Definition endswith_any (s : string) (sufs : list string) : bool :=
  existsb (endswith s) sufs.

(** [s.rfind(c)] for a one-character [c]: the highest index, or [-1]. *)
Fixpoint rfind (c : ascii) (s : string) : Z :=
  match s with
  | "" => -1
  | String a s' =>
      let r := rfind c s' in
      if 0 <=? r then r + 1 else if Ascii.eqb a c then 0 else -1
  end.

Fixpoint take (n : nat) (s : string) : string :=
  match n, s with
  | S n', String c s' => String c (take n' s')
  | _, _ => ""
  end.

Fixpoint drop (n : nat) (s : string) : string :=
  match n, s with
  | S n', String _ s' => drop n' s'
  | _, _ => s
  end.

(** [s[:i]] and [s[i:]] for [0 <= i]. *)
Definition upto (i : Z) (s : string) : string := take (Z.to_nat i) s.
Definition from (i : Z) (s : string) : string := drop (Z.to_nat i) s.

(** [s.replace(old, new)] for a non-empty [old]: occurrences are replaced
    from left to right, without overlap.  [skip] counts the characters of
    a match that are still to be passed over. *)
Fixpoint replace_go (old new : string) (skip : nat) (s : string) : string :=
  match s with
  | "" => ""
  | String c s' =>
      match skip with
      | S k => replace_go old new k s'
      | O =>
          if startswith s old
          then new +:+ replace_go old new (String.length old - 1) s'
          else String c (replace_go old new 0 s')
      end
  end.

Definition replace (old new s : string) : string := replace_go old new 0 s.

(** The characters of [s] that are not white space. *)
Fixpoint has_non_space (s : string) : bool :=
  match s with
  | "" => false
  | String c s' => negb (is_space c) || has_non_space s'
  end.

(** [pat in s] *)
Fixpoint occurs (pat s : string) : bool :=
  startswith s pat ||
  match s with
  | "" => false
  | String _ s' => occurs pat s'
  end.

(** Does [s] hold a character other than the dot? *)
Fixpoint has_non_dot (s : string) : bool :=
  match s with
  | "" => false
  | String c s' => negb (Ascii.eqb c ".") || has_non_dot s'
  end.

(** Python truthiness of a string. *)
Definition truthy (s : string) : bool :=
  match s with "" => false | _ => true end.

End Text.

(** [posixpath]: [basename], [splitext] and [join]. *)

Module Path.
Import Text.

(** [os.path.basename(p)]: [p[p.rfind('/') + 1:]]. *)
Definition basename (p : string) : string := from (rfind "/" p + 1) p.

(** The [while filenameIndex < dotIndex] loop of [genericpath._splitext]:
    the extension is cut off as soon as a character that is not a dot is
    found before the last dot of the file name. *)
Fixpoint splitext_loop (n : nat) (filenameIndex dotIndex : Z) (p : string)
  : option (string * string) :=
  match n with
  | O => None
  | S n' =>
      if negb (String.eqb (take 1 (from filenameIndex p)) ".")
      then Some (upto dotIndex p, from dotIndex p)
      else splitext_loop n' (filenameIndex + 1) dotIndex p
  end.

(** [os.path.splitext(p)] *)
Definition splitext (p : string) : string * string :=
  let sepIndex := rfind "/" p in
  let dotIndex := rfind "." p in
  if sepIndex <? dotIndex then
    let filenameIndex := sepIndex + 1 in
    match splitext_loop (Z.to_nat (dotIndex - filenameIndex))
                        filenameIndex dotIndex p with
    | Some r => r
    | None => (p, "")
    end
  else (p, "").

(** [os.path.join(a, b)] *)
Definition join (a b : string) : string :=
  if startswith b "/" then b
  else if negb (truthy a) || endswith a "/" then a +:+ b
  else a +:+ "/" +:+ b.

(** [path.split("/")] *)
Fixpoint split_sep (path : string) : list string :=
  match path with
  | "" => [""]
  | String c path' =>
      if Ascii.eqb c "/" then "" :: split_sep path'
      else match split_sep path' with
           | [] => [String c ""]
           | comp :: comps => String c comp :: comps
           end
  end.

(** ["/".join(comps)] *)
Fixpoint join_sep (comps : list string) : string :=
  match comps with
  | [] => ""
  | [comp] => comp
  | comp :: comps' => comp +:+ "/" +:+ join_sep comps'
  end.

(** ["/" * n] *)
Fixpoint slashes (n : nat) : string :=
  match n with
  | O => ""
  | S n' => String "/" (slashes n')
  end.

(** The value of [initial_slashes] in [posixpath.normpath]: 0 for a
    relative path, 2 for a path with exactly two leading slashes, and 1
    for every other absolute path. *)
Definition initial_slashes (path : string) : nat :=
  if startswith path "/" then
    if startswith path "//" && negb (startswith path "///") then 2%nat else 1%nat
  else 0%nat.

(** The body of [for comp in comps] in [posixpath.normpath]. *)
Definition normpath_step (initial_slashes : nat) (new_comps : list string)
    (comp : string) : list string :=
  if String.eqb comp "" || String.eqb comp "." then new_comps
  else if negb (String.eqb comp "..")
          || (Nat.eqb initial_slashes 0
              && match new_comps with [] => true | _ => false end)
          || match new_comps with
             | [] => false
             | _ => String.eqb (List.last new_comps "") ".."
             end
  then new_comps ++ [comp]
  else removelast new_comps.

(** [os.path.normpath(path)] *)
Definition normpath (path : string) : string :=
  if String.eqb path "" then "."
  else
    let i := initial_slashes path in
    let comps := fold_left (normpath_step i) (split_sep path) [] in
    let path := slashes i +:+ join_sep comps in
    if truthy path then path else ".".

(** [os.path.abspath(path)], with the value of [os.getcwd()] made an
    argument. *)
Definition abspath (cwd path : string) : string :=
  normpath (if startswith path "/" then path else join cwd path).

End Path.

(** ** Text files as sequences of lines *)

Module File.
Import Text.

(** [f.readlines()] on the text that [open(path, "r")] delivers (see
    [read_text] below): every line keeps its terminating newline; only the
    last line may lack one. *)
Fixpoint readlines (s : string) : list string :=
  match s with
  | "" => []
  | String c s' =>
      if Ascii.eqb c newline then String c "" :: readlines s'
      else match readlines s' with
           | [] => [String c ""]
           | l :: ls => String c l :: ls
           end
  end.

(** [for line in lines: f.write(line)] on a file opened with ["w"]. *)
Fixpoint write_lines (ls : list string) : string :=
  match ls with
  | [] => ""
  | l :: ls' => l +:+ write_lines ls'
  end.

Definition nl : string := String newline "".

Definition cr : ascii := "013"%char.

(** What [open(path, "r")] makes of the characters of a file: with
    universal newlines, CR LF and a lone CR both arrive as LF.  Writing
    with [open(path, "w")] leaves the characters as they are. *)
Fixpoint read_text (raw : string) : string :=
  match raw with
  | "" => ""
  | String c raw' =>
      if Ascii.eqb c cr then
        String newline
          match raw' with
          | String d raw'' =>
              if Ascii.eqb d newline then read_text raw'' else read_text raw'
          | "" => ""
          end
      else String c (read_text raw')
  end.

(** A text without a carriage return, and a text without any line end. *)
Fixpoint no_cr (s : string) : bool :=
  match s with
  | "" => true
  | String c s' => negb (Ascii.eqb c cr) && no_cr s'
  end.

Fixpoint no_line_end (s : string) : bool :=
  match s with
  | "" => true
  | String c s' =>
      negb (Ascii.eqb c newline) && negb (Ascii.eqb c cr) && no_line_end s'
  end.

Fixpoint no_newline (s : string) : bool :=
  match s with
  | "" => true
  | String c s' => negb (Ascii.eqb c newline) && no_newline s'
  end.

(** A line with its terminator, and a last line without one. *)
Definition full_line (l : string) : Prop :=
  exists body, l = body +:+ nl /\ no_newline body = true.

Definition open_line (l : string) : Prop :=
  l <> "" /\ no_newline l = true.

(** The shape of what [readlines] returns. *)
Inductive lines_ok : list string -> Prop :=
| lines_nil : lines_ok []
| lines_last l : open_line l -> lines_ok [l]
| lines_cons l ls : full_line l -> lines_ok ls -> lines_ok (l :: ls).

(** The line filter of both stages: keep what does not strip to [item]. *)
Definition keeps (item : string) (line : string) : bool :=
  negb (String.eqb (strip line) item).

(** Keep the lines that strip to none of [items]. *)
Definition keeps_none_of (items : list string) (line : string) : bool :=
  negb (existsb (String.eqb (strip line)) items).

(** The last character of a text. *)
Fixpoint last_char (s : string) : option ascii :=
  match s with
  | "" => None
  | String c s' =>
      match last_char s' with
      | Some d => Some d
      | None => Some c
      end
  end.

(** A path that a ledger line holds as it is: not empty, without a
    newline, and with no white space at either end. *)
Definition proper (p : string) : bool :=
  truthy p && no_newline p && String.eqb (strip p) p.

(** A small ledger used in the examples. *)
Definition sample_ledger : string :=
  "a.png" +:+ nl +:+ "# note" +:+ nl +:+ nl +:+ "  b.JPG " +:+ nl +:+
  "$$done$$" +:+ nl.

End File.


(** ** PreprocessPostprocess/preprocess_to_jpeg.py *)

Module Preprocess.
Import Text Path File.

Definition VALID_EXTS : list string :=
  [".tif"; ".tiff"; ".png"; ".jpg"; ".jpeg"].

(** [update_tracking_file(tracking_file, processed_image)].  The tracking
    file is [None] when it does not exist: opening it raises, the handler
    prints a warning and nothing is written. *)
Definition update_tracking_file
    (tracking_file : option string) (processed_image : string) : option string :=
  match tracking_file with
  | Some content =>
      let lines := readlines content in
      Some (write_lines
              (List.filter
                 (fun line => negb (String.eqb (strip line) processed_image))
                 lines))
  | None => None
  end.

(** [[line.strip() for line in f if line.strip() and not line.startswith("#")]] *)
Definition load (content : string) : list string :=
  List.map strip
    (List.filter (fun line => truthy (strip line) && negb (startswith line "#"))
       (readlines content)).

(** [os.path.splitext(p)[1].lower() in VALID_EXTS] *)
Definition has_valid_ext (p : string) : bool :=
  bool_decide (lower (splitext p).2 ∈ VALID_EXTS).

(** One call of [preprocess_image_for_ocr], with the flag it returned. *)
Inductive event :=
| Preprocessed (image_path output_path : string) (success : bool).

Record world := World {
  tracking : option string;   (* the tracking file, [None] if absent *)
  images : gset string;       (* output images written so far *)
  log : list event            (* calls of the preprocessor, oldest first *)
}.

Section Runner.

(** The image library: does [preprocess_image_for_ocr(input, output, ...)]
    load the input and save the output? *)
Variable preprocess_image_for_ocr : string -> string -> bool.

(** The body of [for image_path in to_process.copy()]. *)
Definition process_one (output_folder : string) (w : world) (image_path : string)
  : world :=
  let filename := basename image_path in
  let name := (splitext filename).1 in
  let output_path := join output_folder (name +:+ ".jpeg") in
  let success := preprocess_image_for_ocr image_path output_path in
  {| tracking := update_tracking_file (tracking w) image_path;
     images := if success then {[ output_path ]} ∪ images w else images w;
     log := log w ++ [Preprocessed image_path output_path success] |}.

Definition to_process_of (content : string) : list string :=
  List.filter has_valid_ext (load content).

(** [process_images(output_folder, tracking_file, ...)] *)
Definition process_images (output_folder : string) (w : world) : world :=
  match tracking w with
  | None => w
  | Some content =>
      let to_process := to_process_of content in
      match to_process with
      | [] => w
      | _ => fold_left (process_one output_folder) to_process w
      end
  end.

End Runner.

End Preprocess.

(** ** GeminiImageTranscription/flash_process_local_dir.py *)

Module Flash.
Import Text Path File.

Definition REVERSE_ORDER : bool := true.
Definition MAX_RETRIES : nat := 3.
Definition RETRY_DELAY : nat := 5.

Definition base_prompt : string :=
  "Please transcribe the text from the uploaded image. " +:+
  "Ensure that the transcription follows correct English spelling, grammar, and sentence structure. " +:+
  "If a word is completely missing, mark it as [blank]. " +:+
  "If a word is unclear or unreadable, make an educated guess based on context rather than providing gibberish, " +:+
  "and mark it as [unsure].".

(** The header written into a pending file the script creates itself. *)
Definition pending_header : string :=
  "# List image paths here, one per line" +:+ nl.

(** [[line.strip() for line in f if line.strip()]] *)
Definition load (content : string) : list string :=
  List.map strip (List.filter (fun line => truthy (strip line)) (readlines content)).

(** The rewrite of the pending file that drops an image path (the two
    read-all, filter, write-all blocks of the main loop). *)
Definition remove_from_pending (content image_path : string) : string :=
  let lines := readlines content in
  write_lines
    (List.filter (fun line => negb (String.eqb (strip line) image_path)) lines).

(** *** Document context *)

(** [os.listdir(CONTEXT_FOLDER)] together with the text of each file, in
    listing order; [None] when the folder is not a directory. *)
Definition folder : Type := option (list (string * string)).

Fixpoint read_file (name : string) (d : list (string * string)) : option string :=
  match d with
  | [] => None
  | (f, text) :: d' => if String.eqb f name then Some text else read_file name d'
  end.

Definition load_global_context (ctx : folder) : string :=
  match ctx with
  | Some d =>
      match read_file "ALL_DOCUMENT_CONTEXT.txt" d with
      | Some text => strip text
      | None => ""
      end
  | None => ""
  end.

(** [f.lower().endswith("_context.txt") and f.lower() != "all_document_context.txt"] *)
Definition is_individual_context_file (f : string) : bool :=
  endswith (lower f) "_context.txt" &&
  negb (String.eqb (lower f) "all_document_context.txt").

(** [os.path.splitext(cf)[0].replace("_context", "")] *)
Definition context_key (cf : string) : string :=
  replace "_context" "" (splitext cf).1.

Definition individual_context_files (d : list (string * string))
  : list (string * string) :=
  List.filter (fun e => is_individual_context_file e.1) d.

(** [for cf in individual_context_files: context_mapping[base] = file.read().strip()] *)
Definition load_context_mapping (ctx : folder) : gmap string string :=
  match ctx with
  | Some d =>
      fold_left (fun m e => <[ context_key e.1 := strip e.2 ]> m)
                (individual_context_files d) ∅
  | None => ∅
  end.

(** The text kept for [key] after the loop above: that of the last
    individual context file of the listing whose key is exactly [key]. *)
Fixpoint last_context_for (key : string) (d : list (string * string))
  : option string :=
  match d with
  | [] => None
  | (f, text) :: d' =>
      match last_context_for key d' with
      | Some t => Some t
      | None =>
          if is_individual_context_file f && String.eqb (context_key f) key
          then Some (strip text)
          else None
      end
  end.

(** [compose_prompt], with the module-level [global_context],
    [context_mapping] and the prompt text made arguments. *)
Definition compose_with (base : string)
    (global_context : string) (context_mapping : gmap string string)
    (image_basename : string) : string :=
  let context_text := "" in
  let context_text :=
    if truthy global_context then global_context else context_text in
  let context_text :=
    match context_mapping !! image_basename with
    | Some individual =>
        if truthy context_text
        then context_text +:+ nl +:+ individual
        else individual
    | None => context_text
    end in
  if truthy context_text
  then "Given the context: " +:+ context_text +:+ nl +:+ base
  else base.

Definition compose_prompt := compose_with base_prompt.

(** *** The main loop *)

(** What one pass through the [try] body does.  [Raised a]: an exception
    left the body before the size check ([a = Some t] when the output file
    had already been opened and holds [t]).  [Completed a]: all chunks were
    written; [a] is the artifact the check then sees ([None]: no file). *)
Inductive outcome :=
| Raised (artifact : option string)
| Completed (artifact : option string).

Inductive event :=
| Warning (image_path : string)
| Attempt (image_path prompt : string) (attempt : nat)
| Saved (output_path : string)
| Error (image_path : string) (attempt : nat)
| Sleep (seconds : nat)
| Failed (image_path : string).

(** [os.path.exists(p)] holds for the paths that [files] has a text for. *)
Record world := World {
  pending : string;            (* text of the pending file *)
  files : gmap string string;  (* every other file, by path *)
  requests : nat;              (* passes through the [try] body so far *)
  log : list event             (* oldest first *)
}.

Definition emit (e : event) (w : world) : world :=
  {| pending := pending w; files := files w; requests := requests w;
     log := log w ++ [e] |}.

Definition set_pending (content : string) (w : world) : world :=
  {| pending := content; files := files w; requests := requests w;
     log := log w |}.

(** [os.path.exists(p) and os.path.getsize(p) > 0] *)
Definition artifact_ok (fs : gmap string string) (p : string) : bool :=
  match fs !! p with
  | Some text => (0 <? String.length text)%nat
  | None => false
  end.

(** The attempts and the sleeps of a log, in order. *)
Inductive tick :=
| Try (attempt : nat)
| Wait (seconds : nat).

Fixpoint timeline (l : list event) : list tick :=
  match l with
  | [] => []
  | Attempt _ _ n :: l' => Try n :: timeline l'
  | Sleep s :: l' => Wait s :: timeline l'
  | _ :: l' => timeline l'
  end.

(** [k] attempts numbered from [attempt] on, with a sleep of
    [retry_delay * 3 ^ n] between attempt [n] and attempt [n + 1] and
    nothing after the last one. *)
Fixpoint backoff (retry_delay : nat) (k attempt : nat) : list tick :=
  match k with
  | O => []
  | S O => [Try attempt]
  | S k' =>
      Try attempt :: Wait (retry_delay * 3 ^ attempt)%nat
        :: backoff retry_delay k' (S attempt)
  end.

(** An error-free pass through the [try] body that leaves no artifact or
    an empty one. *)
Definition empty_or_missing (o : outcome) : bool :=
  match o with
  | Completed None => true
  | Completed (Some text) => negb (truthy text)
  | Raised _ => false
  end.

Section Script.

Variable SCRIPT_DIR : string.

(** The model, the image decoder and the output stream: the outcome of the
    [n]-th pass through the [try] body, for an image and a prompt. *)
Variable gemini : nat -> string -> string -> outcome.

Definition OUTPUT_DIR : string := join SCRIPT_DIR "TranscriptionOutputGemini".

(** The [try] body up to the size check: the files afterwards and whether
    the check was reached. *)
Definition run_try (image_path prompt output_path : string) (w : world)
  : bool * world :=
  let o := gemini (requests w) image_path prompt in
  let reached := match o with Completed _ => true | Raised _ => false end in
  let fs :=
    match o with
    | Raised None => files w
    | Raised (Some text) => <[ output_path := text ]> (files w)
    | Completed (Some text) => <[ output_path := text ]> (files w)
    | Completed None => delete output_path (files w)
    end in
  (reached,
   {| pending := pending w; files := fs; requests := S (requests w);
      log := log w |}).

(** [for attempt in range(max_retries)] from [attempt] on, with [remaining]
    iterations left; the result is the final [success] flag. *)
Fixpoint retry_loop (max_retries retry_delay : nat) (remaining attempt : nat)
    (image_path prompt output_path : string) (w : world) : bool * world :=
  match remaining with
  | O => (false, w)
  | S remaining' =>
      let w := emit (Attempt image_path prompt attempt) w in
      let (reached, w) := run_try image_path prompt output_path w in
      if reached && artifact_ok (files w) output_path then
        (true, emit (Saved output_path) w)
      else
        let w := emit (Error image_path attempt) w in
        if (attempt <? max_retries - 1)%nat then
          let wait_time := (retry_delay * 3 ^ attempt)%nat in
          retry_loop max_retries retry_delay remaining' (S attempt)
            image_path prompt output_path (emit (Sleep wait_time) w)
        else
          (false, emit (Failed image_path) w)
  end.

Definition output_path_of (image_path : string) : string :=
  let base_name := (splitext (basename image_path)).1 in
  join OUTPUT_DIR (base_name +:+ ".txt").

(** The body of [for image_path in processing_list]. *)
Definition process_one (global_context : string)
    (context_mapping : gmap string string) (w : world) (image_path : string)
  : world :=
  if negb (bool_decide (is_Some (files w !! image_path))) then
    let w := emit (Warning image_path) w in
    set_pending (remove_from_pending (pending w) image_path) w
  else
    let base_name := (splitext (basename image_path)).1 in
    let output_path := join OUTPUT_DIR (base_name +:+ ".txt") in
    let prompt := compose_prompt global_context context_mapping base_name in
    let (success, w) :=
      retry_loop MAX_RETRIES RETRY_DELAY MAX_RETRIES 0
                 image_path prompt output_path w in
    if success
    then set_pending (remove_from_pending (pending w) image_path) w
    else w.

(** The script from the creation of the pending file to the end of the
    loop.  [pending_file] is [None] when the file does not exist yet. *)
Definition main (pending_file : option string) (ctx : folder)
    (fs : gmap string string) : world :=
  let content :=
    match pending_file with Some c => c | None => pending_header end in
  let w := {| pending := content; files := fs; requests := 0; log := [] |} in
  let image_paths := load content in
  match image_paths with
  | [] => w
  | _ =>
      let processing_list :=
        if REVERSE_ORDER then rev image_paths else image_paths in
      let global_context := load_global_context ctx in
      let context_mapping := load_context_mapping ctx in
      fold_left (process_one global_context context_mapping) processing_list w
  end.

End Script.

(** The items a log shows the loop to have taken up, in order: an item is
    taken up with the warning that it is missing or with its first attempt. *)
Fixpoint started (l : list event) : list string :=
  match l with
  | [] => []
  | Warning p :: l' => p :: started l'
  | Attempt p _ O :: l' => p :: started l'
  | _ :: l' => started l'
  end.

(** The seconds slept in a timeline. *)
Fixpoint total_wait (t : list tick) : nat :=
  match t with
  | [] => O
  | Wait s :: t' => (s + total_wait t')%nat
  | Try _ :: t' => total_wait t'
  end.

(** A model that always answers with the same text. *)
Definition steady (text : string) : nat -> string -> string -> outcome :=
  fun _ _ _ => Completed (Some text).

(** *** Small models used in the examples *)

(** A model that never answers. *)
Definition silent : nat -> string -> string -> outcome :=
  fun _ _ _ => Raised None.

(** A model whose first answer is empty and whose later answers are not. *)
Definition slow_start : nat -> string -> string -> outcome :=
  fun n _ _ =>
    match n with
    | O => Completed (Some "")
    | S _ => Completed (Some "text")
    end.

Definition fresh (content : string) : world :=
  {| pending := content; files := ∅; requests := 0; log := [] |}.

End Flash.

(** ** transcribe_document_main.py *)

Module Orchestrator.
Import Text Path File.

Definition valid_exts : list string :=
  [".tif"; ".tiff"; ".png"; ".jpg"; ".jpeg"].

Definition sentinel : string := "$$done$$".

(** The [for line in f] loop that looks at the first line that is neither
    blank nor a comment; the result is the value of [repopulate]. *)
Fixpoint scan_first_line (lines : list string) (repopulate : bool) : bool :=
  match lines with
  | [] => repopulate
  | line :: rest =>
      let stripped := strip line in
      if truthy stripped && negb (startswith stripped "#") then
        if String.eqb stripped sentinel then false else repopulate
      else scan_first_line rest repopulate
  end.

(** The value of [repopulate] before [if repopulate:]. *)
Definition decide_repopulate (tracking_file : option string) : bool :=
  match tracking_file with
  | Some content => scan_first_line (readlines content) true
  | None => true
  end.

(** The image paths found in the input folder, in listing order:
    [os.path.abspath(os.path.join(args.input_path, file))] for the listed
    files that pass the test on the ending.  [cwd] is [os.getcwd()]. *)
Definition discover (cwd input_path : string) (listing : list string)
  : list string :=
  List.map (fun file => abspath cwd (join input_path file))
    (List.filter (fun file => endswith_any (lower file) valid_exts) listing).

(** [os.path.abspath(os.path.join(output_dir, file))] for the folder the
    orchestrator gathers from.  That folder is
    [os.path.join(base_dir, "OptimizedImagesForOCR")] with [base_dir] an
    [os.path.abspath]: absolute, normalised and without a slash at its end,
    for which [abspath] after [join] only puts a slash between the two
    ([OrchestratorPaths.abs_join_exact]). *)
Definition abs_join (dir file : string) : string := dir +:+ "/" +:+ file.

(** [for path in image_paths: f.write(path + "\n")] *)
Fixpoint write_paths (paths : list string) : string :=
  match paths with
  | [] => ""
  | path :: rest => (path +:+ nl) +:+ write_paths rest
  end.

(** The tracking file after the population step. *)
Definition populate_tracking (cwd : string) (tracking_file : option string)
    (input_path : string) (listing : list string) : option string :=
  if decide_repopulate tracking_file then
    let image_paths := discover cwd input_path listing in
    Some (write_paths image_paths +:+ (sentinel +:+ nl))
  else tracking_file.

(** The processed images gathered from the output folder. *)
Definition gather (output_dir : string) (listing : list string) : list string :=
  List.map (abs_join output_dir)
    (List.filter (fun file => endswith (lower file) ".jpeg") listing).

(** [if args.new or not os.path.exists(pending_file)] *)
Definition regenerate_pending (new : bool) (pending_file : option string) : bool :=
  new || negb (bool_decide (is_Some pending_file)).

(** The pending file of the transcription stage after the gather step. *)
Definition populate_pending (new : bool) (pending_file : option string)
    (processed_images : list string) : option string :=
  if regenerate_pending new pending_file
  then Some (write_paths processed_images)
  else pending_file.

(** A line that is neither blank nor a comment, and the first such line
    of a file, stripped. *)
Definition meaningful (line : string) : bool :=
  truthy (strip line) && negb (startswith (strip line) "#").

Definition first_meaningful (lines : list string) : option string :=
  match List.filter meaningful lines with
  | [] => None
  | line :: _ => Some (strip line)
  end.

(** The second [for line in f] loop, before the preprocessing step: the
    value of the variable [stripped] when the loop is left, [None] while it
    is unbound.  [stripped] is the value the first loop left behind. *)
Fixpoint stripped_after_loop (lines : list string) (stripped : option string)
  : option string :=
  match lines with
  | [] => stripped
  | line :: rest =>
      let stripped := strip line in
      if truthy stripped && negb (startswith stripped "#")
      then Some stripped
      else stripped_after_loop rest (Some stripped)
  end.

(** [if stripped == "$$done$$"]: is the preprocessing step skipped?  [None]
    is the [NameError] of an unbound [stripped]. *)
Definition preprocessing_skipped (content : string) (stripped : option string)
  : option bool :=
  match stripped_after_loop (readlines content) stripped with
  | Some s => Some (String.eqb s sentinel)
  | None => None
  end.

(** What the preprocess stage needs of a path to read it back. *)
Definition ledger_path (p : string) : Prop :=
  proper p = true /\ startswith p "#" = false /\ p <> sentinel.

(** The two ledgers the orchestrator owns, [None] when the file is absent. *)
Record ledgers := Ledgers {
  tracking_file : option string;
  pending_file : option string
}.

(** [remove_tracking_files(base_dir)] *)
Definition remove_tracking_files (fs : ledgers) : ledgers :=
  {| tracking_file := None; pending_file := None |}.

(** [if args.new: remove_tracking_files(base_dir)] *)
Definition start (new : bool) (fs : ledgers) : ledgers :=
  if new then remove_tracking_files fs else fs.

End Orchestrator.

(** ** PreprocessPostprocess/detect_extraneous_phrases.py *)

Module Detect.
Import Text File.

(** The line boundaries of [str.splitlines] among the ASCII characters:
    LF, CR, VT, FF, FS, GS and RS. *)
Definition is_linebreak (c : ascii) : bool :=
  match c with
  | "010" | "013" | "011" | "012" | "028" | "029" | "030" => true
  | _ => false
  end%char.

(** [s.splitlines()]: the lines without their boundaries; CR LF is one
    boundary, and a boundary at the very end opens no further line. *)
Fixpoint splitlines (s : string) : list string :=
  match s with
  | "" => []
  | String c s' =>
      if is_linebreak c then
        "" :: match c, s' with
              | "013"%char, String "010"%char s'' => splitlines s''
              | _, _ => splitlines s'
              end
      else
        match splitlines s' with
        | [] => [String c ""]
        | l :: ls => String c l :: ls
        end
  end.

(** A text without a line boundary. *)
Fixpoint no_break (s : string) : bool :=
  match s with
  | "" => true
  | String c s' => negb (is_linebreak c) && no_break s'
  end.

(** ["\n".join(lines)] *)
Fixpoint join_lines (lines : list string) : string :=
  match lines with
  | [] => ""
  | [l] => l
  | l :: ls => l +:+ nl +:+ join_lines ls
  end.

(** A Python [float]: a finite value, an infinity or a NaN. *)
Inductive pyfloat :=
| Finite (q : QArith_base.Q)
| PosInf
| NegInf
| NaN.

(** [x > t] for a finite [t]. *)
Definition exceeds (x : pyfloat) (t : QArith_base.Q) : bool :=
  match x with
  | Finite q => negb (QArith_base.Qle_bool q t)
  | PosInf => true
  | NegInf | NaN => false
  end.

(** The doubles that [0.5] and [0.7] denote. *)
Definition SIMILARITY_THRESHOLD : QArith_base.Q := QArith_base.Qmake 1 2.
Definition REMOVAL_THRESHOLD : QArith_base.Q :=
  QArith_base.Qmake 3152519739159347 4503599627370496.

Definition START_PHRASE : string :=
  "Here is the transcribed text from the image".
Definition END_PHRASE : string :=
  "Let me know if you need any modifications or formatting adjustments".

(** The keys a [file_info] gets for a flagged line: the line, its number
    and its rounded score. *)
Record flagged_line := FlaggedLine {
  line_text : string;
  line_number : nat;
  line_similarity : pyfloat
}.

Record file_info := FileInfo {
  filename : string;
  first_line : option flagged_line;
  last_line : option flagged_line
}.

(** [lines[0]] and [lines[-1]] of a list that is not empty. *)
Definition first_of (lines : list string) : string := hd "" lines.
Definition last_of (lines : list string) : string := List.last lines "".

Section Scorer.

(** The sentence model behind [compute_similarity], and [round(x, 2)]. *)
Variable compute_similarity : string -> string -> pyfloat.
Variable round2 : pyfloat -> pyfloat.

(** The [try] body for one regular file, without error: the entry added
    to [flagged_files], if any, and the text written back, if any. *)
Definition process_file (name content : string)
  : option file_info * option string :=
  let lines := splitlines content in
  match lines with
  | [] => (None, None)
  | _ =>
      let first_line := strip (first_of lines) in
      let last_line := strip (last_of lines) in
      let first_line_similarity := compute_similarity first_line START_PHRASE in
      let last_line_similarity := compute_similarity last_line END_PHRASE in
      let remove_first := exceeds first_line_similarity REMOVAL_THRESHOLD in
      let remove_last := exceeds last_line_similarity REMOVAL_THRESHOLD in
      let flagged :=
        if exceeds first_line_similarity SIMILARITY_THRESHOLD
           || exceeds last_line_similarity SIMILARITY_THRESHOLD
        then
          Some {| filename := name;
                  first_line :=
                    if exceeds first_line_similarity SIMILARITY_THRESHOLD
                    then Some {| line_text := first_line; line_number := 1;
                                 line_similarity := round2 first_line_similarity |}
                    else None;
                  last_line :=
                    if exceeds last_line_similarity SIMILARITY_THRESHOLD
                    then Some {| line_text := last_line;
                                 line_number := length lines;
                                 line_similarity := round2 last_line_similarity |}
                    else None |}
        else None in
      let lines := if remove_first then tl lines else lines in
      let lines := if remove_last then removelast lines else lines in
      (flagged, Some (join_lines lines +:+ nl))
  end.

(** An entry of the directory: a regular file with its text, or something
    else ([os.path.isfile] is false). *)
Inductive entry :=
| Regular (content : string)
| Other.

(** [process_files_in_directory]: the flagged files and the directory
    afterwards, both in listing order. *)
Fixpoint process_files_in_directory (d : list (string * entry))
  : list file_info * list (string * entry) :=
  match d with
  | [] => ([], [])
  | (name, e) :: d' =>
      let (flagged, d'') := process_files_in_directory d' in
      match e with
      | Other => (flagged, (name, Other) :: d'')
      | Regular content =>
          let (info, written) := process_file name content in
          (match info with Some i => i :: flagged | None => flagged end,
           (name, Regular (match written with Some t => t | None => content end))
             :: d'')
      end
  end.

End Scorer.

(** A scorer for the examples: a line that starts with "Here is" is close
    to the start phrase, every other pair is unrelated. *)
Definition sample_scorer (text reference : string) : pyfloat :=
  if startswith text "Here is" && String.eqb reference START_PHRASE
  then Finite (QArith_base.Qmake 9 10)
  else Finite (QArith_base.Qmake 0 1).

End Detect.

(** * Properties *)

(** ** Strings *)

Module TextFacts.
Import Text.

Lemma sapp_nil_l (s : string) : "" +:+ s = s.
Proof. reflexivity. Qed.

Lemma sapp_cons (c : ascii) (s t : string) : String c s +:+ t = String c (s +:+ t).
Proof. reflexivity. Qed.

Lemma sapp_nil_r (s : string) : s +:+ "" = s.
Proof. induction s as [|c s IH]; [reflexivity|]. now rewrite sapp_cons, IH. Qed.

Lemma sapp_assoc (s t u : string) : (s +:+ t) +:+ u = s +:+ (t +:+ u).
Proof. induction s as [|c s IH]; [reflexivity|]. now rewrite !sapp_cons, IH. Qed.

Lemma truthy_true (s : string) : truthy s = true <-> s <> "".
Proof. destruct s; simpl; split; congruence. Qed.

Lemma truthy_false (s : string) : truthy s = false <-> s = "".
Proof. destruct s; simpl; split; congruence. Qed.

Lemma eqb_neq_true (s t : string) : negb (String.eqb s t) = true <-> s <> t.
Proof. rewrite negb_true_iff. apply String.eqb_neq. Qed.

(** *** [strip] *)

Lemma rstrip_cons (c : ascii) (s : string) :
  rstrip (String c s) =
  if truthy (rstrip s) then String c (rstrip s)
  else if is_space c then "" else String c "".
Proof. simpl. destruct (rstrip s); reflexivity. Qed.

Lemma truthy_rstrip (s : string) : truthy (rstrip s) = has_non_space s.
Proof.
  induction s as [|c s IH]; [reflexivity|].
  rewrite rstrip_cons. simpl has_non_space. rewrite <- IH.
  destruct (truthy (rstrip s)); simpl.
  - now rewrite orb_true_r.
  - rewrite orb_false_r. now destruct (is_space c).
Qed.

Lemma has_non_space_lstrip (s : string) : has_non_space (lstrip s) = has_non_space s.
Proof.
  induction s as [|c s IH]; [reflexivity|].
  simpl. destruct (is_space c) eqn:E; simpl; [exact IH|now rewrite E].
Qed.

(** A line is blank for Python ([not line.strip()]) exactly when all its
    characters are white space. *)
Lemma truthy_strip (s : string) : truthy (strip s) = has_non_space s.
Proof. unfold strip. now rewrite truthy_rstrip, has_non_space_lstrip. Qed.

Lemma rstrip_idem (s : string) : rstrip (rstrip s) = rstrip s.
Proof.
  induction s as [|c s IH]; [reflexivity|].
  rewrite rstrip_cons.
  destruct (truthy (rstrip s)) eqn:E.
  - rewrite rstrip_cons, IH, E. reflexivity.
  - destruct (is_space c) eqn:Ec; [reflexivity|]. simpl. now rewrite Ec.
Qed.

(** A text that starts with a visible character keeps it under [rstrip]. *)
Lemma rstrip_head (c : ascii) (s : string) :
  is_space c = false -> exists r, rstrip (String c s) = String c r.
Proof.
  intros Hc. rewrite rstrip_cons.
  destruct (truthy (rstrip s)); [eauto|]. rewrite Hc. eauto.
Qed.

Lemma lstrip_head (s : string) :
  lstrip s = "" \/ exists c r, lstrip s = String c r /\ is_space c = false.
Proof.
  induction s as [|c s IH]; [now left|].
  simpl. destruct (is_space c) eqn:E; [exact IH|]. right. eauto.
Qed.

Lemma lstrip_strip (s : string) : lstrip (strip s) = strip s.
Proof.
  unfold strip. destruct (lstrip_head s) as [->|(c & r & -> & Hc)]; [reflexivity|].
  destruct (rstrip_head c r Hc) as [r' ->]. simpl. now rewrite Hc.
Qed.

Lemma strip_idem (s : string) : strip (strip s) = strip s.
Proof.
  unfold strip at 1. rewrite lstrip_strip. unfold strip. apply rstrip_idem.
Qed.

Lemma rstrip_app_space (s : string) (c : ascii) :
  is_space c = true -> rstrip (s +:+ String c "") = rstrip s.
Proof.
  intros Hc. induction s as [|a s IH].
  - rewrite sapp_nil_l. simpl. now rewrite Hc.
  - rewrite sapp_cons, !rstrip_cons, IH. reflexivity.
Qed.

Lemma lstrip_app_space (s : string) (c : ascii) :
  is_space c = true ->
  lstrip (s +:+ String c "") =
  if has_non_space s then lstrip s +:+ String c "" else "".
Proof.
  intros Hc. induction s as [|a s IH].
  - rewrite sapp_nil_l. simpl. now rewrite Hc.
  - rewrite sapp_cons. simpl. destruct (is_space a); simpl; [exact IH|reflexivity].
Qed.

Lemma has_non_space_false_strip (s : string) : has_non_space s = false -> strip s = "".
Proof. intros H. apply truthy_false. now rewrite truthy_strip. Qed.

(** White space at the end of a line, such as its newline, does not
    change what [strip] returns. *)
Lemma strip_app_space (s : string) (c : ascii) :
  is_space c = true -> strip (s +:+ String c "") = strip s.
Proof.
  intros Hc. unfold strip at 1. rewrite lstrip_app_space by exact Hc.
  destruct (has_non_space s) eqn:E.
  - now rewrite rstrip_app_space.
  - symmetry. now apply has_non_space_false_strip.
Qed.

Lemma strip_head (s : string) :
  strip s = "" \/ exists c r, strip s = String c r /\ is_space c = false.
Proof.
  unfold strip. destruct (lstrip_head s) as [->|(c & r & -> & Hc)]; [now left|].
  right. destruct (rstrip_head c r Hc) as [r' Hr]. eauto.
Qed.

Lemma startswith_cons (c a : ascii) (s : string) :
  startswith (String c s) (String a "") = Ascii.eqb a c.
Proof. simpl. apply andb_true_r. Qed.

(** The first character of [strip s] is the first visible character of
    [s]: a raw line that starts with [#] is still a comment when stripped. *)
Lemma startswith_strip_hash (s : string) :
  startswith s "#" = true -> startswith (strip s) "#" = true.
Proof.
  destruct s as [|c s]; [discriminate|].
  rewrite startswith_cons. intros H. apply Ascii.eqb_eq in H. subst c.
  unfold strip. simpl lstrip.
  destruct (rstrip_head "#" s eq_refl) as [r ->]. reflexivity.
Qed.

End TextFacts.

(** ** Lines of a text file *)

Module FileFacts.
Import Text File TextFacts.

#[local] Hint Constructors lines_ok : core.

Lemma full_line_push (c : ascii) (l : string) :
  Ascii.eqb c newline = false -> full_line l -> full_line (String c l).
Proof.
  intros Hc (body & -> & Hb). exists (String c body). split; [reflexivity|].
  simpl. now rewrite Hc.
Qed.

Lemma open_line_push (c : ascii) (l : string) :
  Ascii.eqb c newline = false -> no_newline l = true -> open_line (String c l).
Proof. intros Hc Hl. split; [discriminate|]. simpl. now rewrite Hc. Qed.

Lemma readlines_ok (s : string) : lines_ok (readlines s).
Proof.
  induction s as [|c s IH]; simpl; [constructor|].
  destruct (Ascii.eqb c newline) eqn:Hc.
  - apply Ascii.eqb_eq in Hc. subst c.
    apply lines_cons; [|exact IH]. exists "". now split.
  - inversion IH as [|l [_ Hl]|l ls Hl Hls]; subst.
    + apply lines_last. now apply open_line_push.
    + apply lines_last. now apply open_line_push.
    + apply lines_cons; [now apply full_line_push|exact Hls].
Qed.

(** Writing back the lines that were read gives the file unchanged. *)
Lemma write_readlines (s : string) : write_lines (readlines s) = s.
Proof.
  induction s as [|c s IH]; [reflexivity|].
  simpl. destruct (Ascii.eqb c newline).
  - simpl. now rewrite sapp_cons, sapp_nil_l, IH.
  - destruct (readlines s) as [|l ls]; simpl in *.
    + now rewrite <- IH.
    + now rewrite sapp_cons, IH.
Qed.

Lemma readlines_full (body rest : string) :
  no_newline body = true ->
  readlines ((body +:+ nl) +:+ rest) = (body +:+ nl) :: readlines rest.
Proof.
  intros Hb. induction body as [|c body IH].
  - reflexivity.
  - simpl in Hb. apply andb_true_iff in Hb as [Hc Hb].
    apply negb_true_iff in Hc.
    rewrite !sapp_cons. simpl. rewrite Hc, (IH Hb). reflexivity.
Qed.

Lemma readlines_open (l : string) : open_line l -> readlines l = [l].
Proof.
  intros [Hne Hl]. induction l as [|c l IH]; [congruence|].
  simpl in Hl. apply andb_true_iff in Hl as [Hc Hl]. apply negb_true_iff in Hc.
  simpl. rewrite Hc. destruct l as [|c' l']; [reflexivity|].
  rewrite IH; [reflexivity|discriminate|exact Hl].
Qed.

(** Reading a file gives the lines that were written to it. *)
Lemma readlines_write (ls : list string) :
  lines_ok ls -> readlines (write_lines ls) = ls.
Proof.
  induction 1 as [|l Hl|l ls (body & -> & Hb) _ IH]; simpl.
  - reflexivity.
  - rewrite sapp_nil_r. now apply readlines_open.
  - now rewrite readlines_full, IH.
Qed.

Lemma lines_ok_filter (f : string -> bool) (ls : list string) :
  lines_ok ls -> lines_ok (List.filter f ls).
Proof.
  induction 1 as [|l Hl|l ls Hl _ IH]; simpl.
  - constructor.
  - destruct (f l); auto.
  - destruct (f l); auto.
Qed.

(** The lines of a file rewritten through a filter are the filtered lines
    of the old file, in their old order. *)
Lemma readlines_rewrite (f : string -> bool) (content : string) :
  readlines (write_lines (List.filter f (readlines content)))
  = List.filter f (readlines content).
Proof. apply readlines_write, lines_ok_filter, readlines_ok. Qed.

Lemma write_lines_app (xs ys : list string) :
  write_lines (xs ++ ys) = write_lines xs +:+ write_lines ys.
Proof.
  induction xs as [|x xs IH]; [reflexivity|].
  simpl. now rewrite IH, sapp_assoc.
Qed.

Lemma no_newline_app (s t : string) :
  no_newline (s +:+ t) = no_newline s && no_newline t.
Proof.
  induction s as [|c s IH]; [reflexivity|].
  rewrite sapp_cons. simpl. now rewrite IH, andb_assoc.
Qed.

(** [strip] of a terminated line is [strip] of its text. *)
Lemma strip_line (body : string) : strip (body +:+ nl) = strip body.
Proof. now apply strip_app_space. Qed.

End FileFacts.

(** ** Removing an item from a ledger *)

Module LedgerFacts.
Import Text File TextFacts FileFacts.

Lemma filter_filter {A} (f g : A -> bool) (l : list A) :
  List.filter f (List.filter g l) = List.filter (fun x => g x && f x) l.
Proof.
  induction l as [|x l IH]; [reflexivity|].
  simpl. destruct (g x); simpl; [destruct (f x)|]; now rewrite IH.
Qed.

Lemma filter_map {A B} (f : A -> B) (p : B -> bool) (l : list A) :
  List.filter p (List.map f l) = List.map f (List.filter (fun x => p (f x)) l).
Proof.
  induction l as [|x l IH]; [reflexivity|].
  simpl. destruct (p (f x)); simpl; now rewrite IH.
Qed.

Lemma filter_true {A} (f : A -> bool) (l : list A) :
  (forall x, In x l -> f x = true) -> List.filter f l = l.
Proof.
  induction l as [|x l IH]; intros H; [reflexivity|].
  simpl. rewrite (H x) by now left. f_equal. apply IH. intros y Hy. apply H. now right.
Qed.

Lemma remove_from_pending_lines (content item : string) :
  readlines (Flash.remove_from_pending content item)
  = List.filter (keeps item) (readlines content).
Proof. apply readlines_rewrite. Qed.

Lemma update_tracking_file_eq (content item : string) :
  Preprocess.update_tracking_file (Some content) item
  = Some (Flash.remove_from_pending content item).
Proof. reflexivity. Qed.

(** What [Flash.load] reads after a removal: the old items except [item]. *)
Lemma flash_load_remove (content item : string) :
  Flash.load (Flash.remove_from_pending content item)
  = List.filter (fun j => negb (String.eqb j item)) (Flash.load content).
Proof.
  unfold Flash.load. rewrite remove_from_pending_lines.
  rewrite filter_map, !filter_filter. f_equal.
  apply List.filter_ext. intros l. unfold keeps. apply andb_comm.
Qed.

Lemma preprocess_load_remove (content item : string) :
  Preprocess.load (Flash.remove_from_pending content item)
  = List.filter (fun j => negb (String.eqb j item)) (Preprocess.load content).
Proof.
  unfold Preprocess.load. rewrite remove_from_pending_lines.
  rewrite filter_map, !filter_filter. f_equal.
  apply List.filter_ext. intros l. unfold keeps.
  destruct (String.eqb (strip l) item); simpl; [now rewrite andb_false_r|].
  now rewrite andb_true_r.
Qed.

(** An item of a ledger is a stripped line. *)
Lemma flash_load_stripped (content item : string) :
  In item (Flash.load content) -> strip item = item.
Proof.
  unfold Flash.load. rewrite List.in_map_iff.
  intros (l & <- & _). apply strip_idem.
Qed.

Lemma preprocess_load_flash (content item : string) :
  In item (Preprocess.load content) -> In item (Flash.load content).
Proof.
  unfold Preprocess.load, Flash.load. rewrite !List.in_map_iff.
  intros (l & <- & Hl). exists l. split; [reflexivity|].
  apply List.filter_In in Hl as [Hin Hl]. apply List.filter_In. split; [exact Hin|].
  now apply andb_true_iff in Hl as [-> _].
Qed.

(** C2.  For a ledger file [content] and an item [item] that is in it,
    removing the item (in either stage: [update_tracking_file] and the
    rewrite of the pending file are the same function) gives a file whose
    lines are the old lines that do not strip to [item], in their old
    order.  So no line equal to [item], with or without its newline,
    remains; every line that holds another item, the sentinel, a comment or
    nothing stays where it was relative to the others; and the items read
    back are the old items without [item], in the old order. *)
Theorem remove_item_keeps_order (content item : string) :
  In item (Flash.load content) ->
  let after := Flash.remove_from_pending content item in
  Preprocess.update_tracking_file (Some content) item = Some after /\
  readlines after = List.filter (keeps item) (readlines content) /\
  (forall line, In line (readlines after) ->
     line <> item /\ line <> item +:+ nl /\ strip line <> item) /\
  (forall line, In line (readlines content) -> strip line <> item ->
     In line (readlines after)) /\
  Flash.load after
    = List.filter (fun j => negb (String.eqb j item)) (Flash.load content) /\
  Preprocess.load after
    = List.filter (fun j => negb (String.eqb j item)) (Preprocess.load content) /\
  ~ In item (Flash.load after) /\ ~ In item (Preprocess.load after).
Proof.
  intros Hitem after.
  pose proof (flash_load_stripped _ _ Hitem) as Hstrip.
  assert (Hlines : readlines after = List.filter (keeps item) (readlines content))
    by apply remove_from_pending_lines.
  split; [reflexivity|]. split; [exact Hlines|].
  split; [|split; [|split; [|split; [|split]]]].
  - intros line Hin. rewrite Hlines in Hin.
    apply List.filter_In in Hin as [_ Hk]. apply eqb_neq_true in Hk.
    repeat split; [| |exact Hk].
    + intros ->. now apply Hk.
    + intros ->. apply Hk. now rewrite strip_line.
  - intros line Hin Hne. rewrite Hlines. apply List.filter_In.
    split; [exact Hin|]. now apply eqb_neq_true.
  - apply flash_load_remove.
  - apply preprocess_load_remove.
  - unfold after. rewrite flash_load_remove, List.filter_In.
    intros [_ H]. apply eqb_neq_true in H. now apply H.
  - unfold after. rewrite preprocess_load_remove, List.filter_In.
    intros [_ H]. apply eqb_neq_true in H. now apply H.
Qed.

End LedgerFacts.

Module LedgerExamples.
Import Text File LedgerFacts.

Lemma remove_item_keeps_order_witness :
  In "a.png" (Flash.load sample_ledger) /\
  readlines (Flash.remove_from_pending sample_ledger "a.png")
  = ["# note" +:+ nl; nl; "  b.JPG " +:+ nl; "$$done$$" +:+ nl].
Proof.
  split; [vm_compute; auto|].
  destruct (remove_item_keeps_order sample_ledger "a.png") as (_ & H & _).
  - vm_compute; auto.
  - rewrite H. reflexivity.
Defined.

End LedgerExamples.

(** ** The preprocess stage *)

Module PreprocessFacts.
Import Text Path File TextFacts FileFacts LedgerFacts Preprocess.

Lemma existsb_eqb_In (x : string) (items : list string) :
  existsb (String.eqb x) items = true <-> In x items.
Proof.
  rewrite List.existsb_exists. split.
  - intros (y & Hy & E). apply String.eqb_eq in E. now subst.
  - intros H. exists x. split; [exact H|apply String.eqb_refl].
Qed.

Lemma keeps_none_of_false (items : list string) (line : string) :
  keeps_none_of items line = false <-> In (strip line) items.
Proof. unfold keeps_none_of. rewrite negb_false_iff. apply existsb_eqb_In. Qed.

Lemma keeps_none_of_true (items : list string) (line : string) :
  keeps_none_of items line = true <-> ~ In (strip line) items.
Proof.
  rewrite <- keeps_none_of_false. destruct (keeps_none_of items line); split; congruence.
Qed.

(** Removing the items one after the other is one filter of the file. *)
Lemma fold_update_tracking_file (items : list string) (content : string) :
  fold_left update_tracking_file items (Some content)
  = Some (write_lines (List.filter (keeps_none_of items) (readlines content))).
Proof.
  revert content. induction items as [|i items IH]; intros content.
  - simpl. rewrite filter_true, write_readlines; [reflexivity|]. now intros.
  - cbn [fold_left]. rewrite update_tracking_file_eq, IH.
    rewrite remove_from_pending_lines, filter_filter. do 2 f_equal.
    apply List.filter_ext. intros l. unfold keeps, keeps_none_of. simpl.
    now rewrite negb_orb.
Qed.

Section Runner.

Variable preprocess_image_for_ocr : string -> string -> bool.
Variable output_folder : string.

Let step := process_one preprocess_image_for_ocr output_folder.

Lemma fold_tracking (items : list string) (w : world) :
  tracking (fold_left step items w)
  = fold_left update_tracking_file items (tracking w).
Proof.
  revert w. induction items as [|i items IH]; intros w; [reflexivity|].
  simpl. now rewrite IH.
Qed.

Lemma fold_log (items : list string) (w : world) :
  exists new,
    log (fold_left step items w) = log w ++ new /\
    forall p o b, In (Preprocessed p o b) new -> In p items.
Proof.
  revert w. induction items as [|i items IH]; intros w.
  - exists []. split; [now rewrite app_nil_r|]. intros ? ? ? [].
  - simpl. destruct (IH (step w i)) as (new & Hlog & Hnew).
    eexists (_ :: new). split.
    + rewrite Hlog. unfold step at 2, process_one. simpl.
      rewrite <- app_assoc. reflexivity.
    + intros p o b [E|Hin]; [injection E as <- _ _; now left|].
      right. eauto.
Qed.

Lemma to_process_In (content p : string) :
  In p (to_process_of content) <-> In p (load content) /\ has_valid_ext p = true.
Proof. unfold to_process_of. apply List.filter_In. Qed.

Lemma process_images_tracking (w : world) (content : string) :
  tracking w = Some content ->
  tracking (process_images preprocess_image_for_ocr output_folder w)
  = Some (write_lines (List.filter (keeps_none_of (to_process_of content))
                                   (readlines content))).
Proof.
  intros Hw. unfold process_images. rewrite Hw.
  destruct (to_process_of content) as [|p ps] eqn:E.
  - rewrite Hw, filter_true, write_readlines; [reflexivity|]. now intros.
  - fold step. rewrite fold_tracking, Hw. apply fold_update_tracking_file.
Qed.

Lemma process_images_log (w : world) (content : string) :
  tracking w = Some content ->
  exists new,
    log (process_images preprocess_image_for_ocr output_folder w) = log w ++ new /\
    forall p o b, In (Preprocessed p o b) new -> In p (to_process_of content).
Proof.
  intros Hw. unfold process_images. rewrite Hw.
  destruct (to_process_of content) as [|p ps] eqn:E.
  - exists []. split; [now rewrite app_nil_r|]. intros ? ? ? [].
  - apply fold_log.
Qed.

End Runner.

Lemma sentinel_no_valid_ext : has_valid_ext Orchestrator.sentinel = false.
Proof. reflexivity. Qed.

(** A line the orchestrator finds meaningful is one the stage loads. *)
Lemma meaningful_loaded (content line : string) :
  In line (readlines content) -> Orchestrator.meaningful line = true ->
  In (strip line) (load content).
Proof.
  intros Hin Hm. unfold Orchestrator.meaningful in Hm.
  apply andb_true_iff in Hm as [Ht Hh].
  unfold load. apply List.in_map, List.filter_In. split; [exact Hin|].
  rewrite Ht. destruct (startswith line "#") eqn:E; [|reflexivity].
  apply startswith_strip_hash in E. now rewrite E in Hh.
Qed.

Lemma first_meaningful_skip (pre : list string) (s : string) (post : list string) :
  (forall l, In l pre -> Orchestrator.meaningful l = false) ->
  Orchestrator.meaningful s = true ->
  Orchestrator.first_meaningful (pre ++ s :: post) = Some (strip s).
Proof.
  intros Hpre Hs. unfold Orchestrator.first_meaningful.
  induction pre as [|l pre IH]; simpl.
  - now rewrite Hs.
  - rewrite (Hpre l) by now left. apply IH. intros l' Hl'. apply Hpre. now right.
Qed.

(** The first meaningful line of a text that has one among its first
    lines is one of those. *)
Lemma first_meaningful_among (xs ys : list string) (l : string) :
  In l xs -> Orchestrator.meaningful l = true ->
  exists l', In l' xs /\
    Orchestrator.first_meaningful (xs ++ ys) = Some (strip l').
Proof.
  unfold Orchestrator.first_meaningful.
  induction xs as [|x xs IH]; intros Hin Hm; [contradiction|].
  cbn [app List.filter]. destruct (Orchestrator.meaningful x) eqn:Hx.
  - exists x. split; [now left|reflexivity].
  - destruct Hin as [->|Hin]; [congruence|].
    destruct (IH Hin Hm) as (l' & Hl' & E). exists l'. split; [now right|exact E].
Qed.

(** C10, amended.  The preprocess stage runner calls the preprocessor only
    on loaded items whose extension is in [VALID_EXTS], and the file it
    leaves holds the old lines that do not strip to such an item, in their
    old order: a removed line has a valid extension, a line without one
    (the sentinel for one) is still there.  The sentinel is the first
    meaningful line of the drained ledger when every meaningful line in
    front of it has a valid extension, and, for the first sentinel line of
    the file, only then. *)
Theorem preprocess_touches_only_valid_exts
    (preprocess_image_for_ocr : string -> string -> bool)
    (output_folder : string) (w : world) (content : string) :
  tracking w = Some content ->
  let w' := process_images preprocess_image_for_ocr output_folder w in
  (exists new,
     log w' = log w ++ new /\
     forall p o b, In (Preprocessed p o b) new ->
       In p (load content) /\ has_valid_ext p = true) /\
  (exists after,
     tracking w' = Some after /\
     readlines after
       = List.filter (keeps_none_of (to_process_of content)) (readlines content) /\
     (forall line, In line (readlines content) -> ~ In line (readlines after) ->
        has_valid_ext (strip line) = true) /\
     (forall line, In line (readlines content) ->
        has_valid_ext (strip line) = false -> In line (readlines after)) /\
     (forall line, In line (readlines content) ->
        strip line = Orchestrator.sentinel -> In line (readlines after)) /\
     (forall pre s post,
        readlines content = pre ++ s :: post ->
        strip s = Orchestrator.sentinel ->
        (forall l, In l pre -> Orchestrator.meaningful l = true ->
           has_valid_ext (strip l) = true) ->
        Orchestrator.first_meaningful (readlines after)
          = Some Orchestrator.sentinel) /\
     (forall pre s post,
        readlines content = pre ++ s :: post ->
        strip s = Orchestrator.sentinel ->
        (forall l, In l pre -> strip l <> Orchestrator.sentinel) ->
        Orchestrator.first_meaningful (readlines after)
          = Some Orchestrator.sentinel ->
        forall l, In l pre -> Orchestrator.meaningful l = true ->
          has_valid_ext (strip l) = true)).
Proof.
  intros Hw w'. split.
  - destruct (process_images_log preprocess_image_for_ocr output_folder w content Hw)
      as (new & Hlog & Hnew).
    exists new. split; [exact Hlog|].
    intros p o b Hin. apply to_process_In. eauto.
  - eexists. split; [apply process_images_tracking, Hw|].
    rewrite readlines_rewrite.
    set (keep := keeps_none_of (to_process_of content)).
    assert (Hkeep : forall line, has_valid_ext (strip line) = false -> keep line = true).
    { intros line Hv. apply keeps_none_of_true. rewrite to_process_In.
      intros [_ Hv']. congruence. }
    split; [reflexivity|]. split; [|split; [|split; [|split]]].
    + intros line Hin Hout.
      destruct (has_valid_ext (strip line)) eqn:Hv; [reflexivity|].
      exfalso. apply Hout, List.filter_In. auto.
    + intros line Hin Hv. apply List.filter_In. auto.
    + intros line Hin Hs. apply List.filter_In. split; [exact Hin|].
      apply Hkeep. rewrite Hs. apply sentinel_no_valid_ext.
    + intros pre s post Hsplit Hs Hpre. rewrite Hsplit, List.filter_app.
      cbn [List.filter]. rewrite (Hkeep s) by (rewrite Hs; apply sentinel_no_valid_ext).
      rewrite <- Hs. apply first_meaningful_skip.
      * intros l Hl. apply List.filter_In in Hl as [Hl Hk].
        destruct (Orchestrator.meaningful l) eqn:Hm; [|reflexivity].
        exfalso. apply keeps_none_of_true in Hk. apply Hk, to_process_In.
        split; [|now apply Hpre].
        apply meaningful_loaded; [|exact Hm].
        rewrite Hsplit. apply List.in_or_app. now left.
      * unfold Orchestrator.meaningful. now rewrite Hs.
    + intros pre s post Hsplit Hs Hno Hfirst l Hl Hm.
      destruct (has_valid_ext (strip l)) eqn:Hv; [reflexivity|]. exfalso.
      rewrite Hsplit, List.filter_app in Hfirst.
      assert (Hkept : In l (List.filter keep pre))
        by (apply List.filter_In; auto).
      destruct (first_meaningful_among _ (List.filter keep (s :: post)) l Hkept Hm)
        as (l' & Hl' & E).
      rewrite E in Hfirst. injection Hfirst as Hfirst.
      apply List.filter_In in Hl' as [Hl' _]. now apply (Hno l').
Qed.

End PreprocessFacts.

(** ** The transcription stage *)

Module FlashFacts.
Import Text Path File TextFacts FileFacts LedgerFacts Flash.

Lemma timeline_app (xs ys : list event) :
  timeline (xs ++ ys) = timeline xs ++ timeline ys.
Proof.
  induction xs as [|e xs IH]; [reflexivity|].
  destruct e; simpl; now rewrite IH.
Qed.

Lemma backoff_step (retry_delay k attempt : nat) :
  (1 <= k)%nat ->
  backoff retry_delay (S k) attempt
  = Try attempt :: Wait (retry_delay * 3 ^ attempt)%nat
      :: backoff retry_delay k (S attempt).
Proof. destruct k; [lia|reflexivity]. Qed.

Lemma backoff_nonempty (retry_delay k attempt : nat) :
  (1 <= k)%nat -> backoff retry_delay k attempt <> [].
Proof. destruct k as [|[|k]]; simpl; [lia|discriminate|discriminate]. Qed.

Lemma last_skip {A} (a d : A) (l : list A) :
  l <> [] -> List.last (a :: l) d = List.last l d.
Proof. destruct l; [congruence|reflexivity]. Qed.

(** The last tick of a schedule is an attempt, never a sleep. *)
Lemma backoff_last (retry_delay k attempt : nat) :
  (1 <= k)%nat ->
  List.last (backoff retry_delay k attempt) (Wait 0) = Try (attempt + k - 1).
Proof.
  revert attempt. induction k as [|k IH]; intros attempt Hk; [lia|].
  destruct k as [|k].
  - simpl. f_equal. lia.
  - rewrite backoff_step by lia.
    rewrite !last_skip; [|apply backoff_nonempty; lia|discriminate].
    rewrite IH by lia. f_equal. lia.
Qed.

Section Script.

Variable SCRIPT_DIR : string.
Variable gemini : nat -> string -> string -> outcome.

Lemma run_try_frame (image_path prompt output_path : string) (w : world) :
  let r := run_try gemini image_path prompt output_path w in
  pending r.2 = pending w /\ log r.2 = log w /\ requests r.2 = S (requests w).
Proof. unfold run_try. simpl. auto. Qed.

(** The retry loop in general: it never touches the pending file, it makes
    between one and [remaining] attempts, spaced as [backoff] says, and it
    reports success only with a non-empty artifact in place. *)
Lemma retry_loop_spec (max_retries retry_delay : nat)
    (image_path prompt output_path : string) (remaining : nat) :
  forall (attempt : nat) (w : world),
  (remaining + attempt = max_retries)%nat ->
  let r := retry_loop gemini max_retries retry_delay remaining attempt
             image_path prompt output_path w in
  pending r.2 = pending w /\
  (r.1 = true -> artifact_ok (files r.2) output_path = true) /\
  exists new k,
    log r.2 = log w ++ new /\
    requests r.2 = (requests w + k)%nat /\
    (k <= remaining)%nat /\ ((1 <= remaining)%nat -> (1 <= k)%nat) /\
    (r.1 = false -> k = remaining) /\
    timeline new = backoff retry_delay k attempt.
Proof.
  induction remaining as [|rem IH]; intros attempt w Hsum.
  - simpl. split; [reflexivity|]. split; [discriminate|].
    exists [], 0%nat. rewrite app_nil_r. repeat split; auto; lia.
  - cbn [retry_loop].
    pose proof (run_try_frame image_path prompt output_path
                  (emit (Attempt image_path prompt attempt) w)) as Hframe.
    destruct (run_try gemini image_path prompt output_path
                (emit (Attempt image_path prompt attempt) w)) as [reached w1].
    cbn [fst snd] in Hframe. destruct Hframe as (Hp & Hl & Hr).
    simpl in Hp, Hl, Hr.
    destruct (reached && artifact_ok (files w1) output_path) eqn:Hok.
    + cbn [fst snd]. split; [exact Hp|]. split.
      { intros _. simpl. now apply andb_true_iff in Hok as [_ ?]. }
      exists [Attempt image_path prompt attempt; Saved output_path], 1%nat.
      simpl. rewrite Hl, <- app_assoc. repeat split; auto; lia || discriminate.
    + destruct (attempt <? max_retries - 1)%nat eqn:Hlt.
      * apply Nat.ltb_lt in Hlt.
        specialize (IH (S attempt)
          (emit (Sleep (retry_delay * 3 ^ attempt))
                (emit (Error image_path attempt) w1))).
        destruct IH as (IHp & IHok & new & k & IHl & IHr & IHk & IHk1 & IHf & IHt);
          [lia|].
        split; [now rewrite IHp|]. split; [exact IHok|].
        exists (Attempt image_path prompt attempt :: Error image_path attempt
                :: Sleep (retry_delay * 3 ^ attempt) :: new), (S k).
        split; [rewrite IHl; simpl; rewrite Hl, <- !app_assoc; reflexivity|].
        split; [rewrite IHr; simpl; lia|].
        split; [lia|]. split; [lia|]. split; [intros H; f_equal; auto|].
        simpl timeline. rewrite IHt. symmetry. apply backoff_step. apply IHk1. lia.
      * apply Nat.ltb_ge in Hlt. cbn [fst snd]. split; [exact Hp|].
        split; [discriminate|].
        exists [Attempt image_path prompt attempt; Error image_path attempt;
                Failed image_path], 1%nat.
        simpl. rewrite Hl, <- !app_assoc. repeat split; auto; lia.
Qed.

Lemma retry_loop_first_attempt (max_retries retry_delay : nat)
    (image_path prompt output_path : string) (remaining attempt : nat) (w : world) :
  (S remaining + attempt = max_retries)%nat ->
  exists new,
    log (retry_loop gemini max_retries retry_delay (S remaining) attempt
           image_path prompt output_path w).2
    = log w ++ Attempt image_path prompt attempt :: new.
Proof.
  intros Hsum. cbn [retry_loop].
  pose proof (run_try_frame image_path prompt output_path
                (emit (Attempt image_path prompt attempt) w)) as Hframe.
  destruct (run_try gemini image_path prompt output_path
              (emit (Attempt image_path prompt attempt) w)) as [reached w1].
  cbn [fst snd] in Hframe. destruct Hframe as (_ & Hl & _). simpl in Hl.
  destruct (reached && artifact_ok (files w1) output_path).
  - eexists. simpl. rewrite Hl, <- app_assoc. reflexivity.
  - destruct (attempt <? max_retries - 1)%nat eqn:Hlt.
    + apply Nat.ltb_lt in Hlt.
      destruct (retry_loop_spec max_retries retry_delay image_path prompt
                  output_path remaining (S attempt)
                  (emit (Sleep (retry_delay * 3 ^ attempt))
                     (emit (Error image_path attempt) w1)))
        as (_ & _ & new & k & Hlog & _); [lia|].
      eexists. rewrite Hlog. simpl. rewrite Hl, <- !app_assoc. reflexivity.
    + eexists. simpl. rewrite Hl, <- !app_assoc. reflexivity.
Qed.

(** What the size check sees after an error-free pass. *)
Lemma run_try_check (image_path prompt output_path : string) (w : world) :
  let o := gemini (requests w) image_path prompt in
  let r := run_try gemini image_path prompt output_path w in
  r.1 && artifact_ok (files r.2) output_path
  = match o with
    | Completed (Some text) => truthy text
    | _ => false
    end.
Proof.
  unfold run_try. cbn [fst snd].
  destruct (gemini (requests w) image_path prompt) as [a|[text|]]; cbn [files].
  - reflexivity.
  - unfold artifact_ok. rewrite lookup_insert_eq. now destruct text.
  - unfold artifact_ok. now rewrite lookup_delete_eq.
Qed.

(** When no pass ever passes the size check the loop ends in failure. *)
Lemma retry_loop_all_fail (max_retries retry_delay : nat)
    (image_path prompt output_path : string) (remaining : nat) :
  (forall n, match gemini n image_path prompt with
             | Completed (Some text) => truthy text = false
             | _ => True
             end) ->
  forall attempt w,
    (retry_loop gemini max_retries retry_delay remaining attempt
       image_path prompt output_path w).1 = false.
Proof.
  intros Hall. induction remaining as [|rem IH]; intros attempt w; [reflexivity|].
  cbn [retry_loop].
  pose proof (run_try_check image_path prompt output_path
                (emit (Attempt image_path prompt attempt) w)) as Hcheck.
  cbn zeta in Hcheck.
  destruct (run_try gemini image_path prompt output_path
              (emit (Attempt image_path prompt attempt) w)) as [reached w1].
  cbn [fst snd] in Hcheck. rewrite Hcheck.
  specialize (Hall (requests (emit (Attempt image_path prompt attempt) w))).
  destruct (gemini _ image_path prompt) as [a|[text|]];
    try rewrite Hall; destruct (attempt <? max_retries - 1)%nat; auto.
Qed.

(** C5.  The retry loop of an item makes its attempts in order and sleeps
    [retry_delay * 3 ^ n] seconds between attempt [n] and attempt [n + 1]
    (counted from 0, so [Try 0] is the first attempt), and its last tick is
    an attempt.  With [MAX_RETRIES = 3] and [RETRY_DELAY = 5] the loop runs
    one, two or three attempts, with 5 seconds between the first and the
    second and 15 seconds between the second and the third; a failed item
    has gone through all three, and nothing follows the third attempt. *)
Theorem backoff_schedule (image_path prompt output_path : string) (w : world) :
  (forall max_retries retry_delay,
     let r := retry_loop gemini max_retries retry_delay max_retries 0
                image_path prompt output_path w in
     exists new k,
       log r.2 = log w ++ new /\
       (k <= max_retries)%nat /\ ((1 <= max_retries)%nat -> (1 <= k)%nat) /\
       (r.1 = false -> k = max_retries) /\
       timeline new = backoff retry_delay k 0 /\
       ((1 <= k)%nat -> List.last (timeline new) (Wait 0) = Try (k - 1))) /\
  (let r := retry_loop gemini MAX_RETRIES RETRY_DELAY MAX_RETRIES 0
              image_path prompt output_path w in
   exists new,
     log r.2 = log w ++ new /\
     (timeline new = [Try 0] \/
      timeline new = [Try 0; Wait 5; Try 1] \/
      timeline new = [Try 0; Wait 5; Try 1; Wait 15; Try 2]) /\
     (r.1 = false -> timeline new = [Try 0; Wait 5; Try 1; Wait 15; Try 2])).
Proof.
  assert (Hgen : forall max_retries retry_delay,
     let r := retry_loop gemini max_retries retry_delay max_retries 0
                image_path prompt output_path w in
     exists new k,
       log r.2 = log w ++ new /\
       (k <= max_retries)%nat /\ ((1 <= max_retries)%nat -> (1 <= k)%nat) /\
       (r.1 = false -> k = max_retries) /\
       timeline new = backoff retry_delay k 0 /\
       ((1 <= k)%nat -> List.last (timeline new) (Wait 0) = Try (k - 1))).
  { intros max_retries retry_delay r.
    destruct (retry_loop_spec max_retries retry_delay image_path prompt
                output_path max_retries 0 w) as (_ & _ & new & k & H);
      [lia|].
    destruct H as (Hlog & _ & Hk & Hk1 & Hf & Ht).
    exists new, k. repeat split; auto.
    intros Hpos. rewrite Ht, backoff_last by exact Hpos. reflexivity. }
  split; [exact Hgen|].
  intros r. destruct (Hgen MAX_RETRIES RETRY_DELAY) as (new & k & Hlog & Hk & Hk1 & Hf & Ht & _).
  fold r in Hlog, Hf. exists new. split; [exact Hlog|].
  unfold MAX_RETRIES in Hk, Hk1, Hf.
  assert (Hcases : k = 1%nat \/ k = 2%nat \/ k = 3%nat) by lia.
  split.
  - destruct Hcases as [->|[->| ->]]; rewrite Ht; auto.
  - intros Hfail. rewrite Ht, (Hf Hfail). reflexivity.
Qed.

(** In the retry loop, with [remaining + 1] iterations left at attempt
    number [attempt], the attempt ends the loop with success exactly when
    the pass through the [try] body completed and left an artifact that is
    not empty, and then the artifact passes the size check.  A completed
    pass that leaves no artifact or an empty one never touches the pending
    file: when iterations remain the loop logs the error, sleeps and logs
    attempt [attempt + 1], and when none remain the loop reports failure. *)
Lemma retry_loop_first_pass (max_retries retry_delay : nat)
    (image_path prompt output_path : string) (remaining attempt : nat) (w : world) :
  (S remaining + attempt = max_retries)%nat ->
  let o := gemini (requests w) image_path prompt in
  let r := retry_loop gemini max_retries retry_delay (S remaining) attempt
             image_path prompt output_path w in
  ((r.1 = true /\ requests r.2 = S (requests w)) <->
   (exists text, o = Completed (Some text) /\ text <> "")) /\
  (r.1 = true -> artifact_ok (files r.2) output_path = true) /\
  (empty_or_missing o = true ->
     pending r.2 = pending w /\
     ((1 <= remaining)%nat ->
        exists new,
          log r.2 = log w ++ Attempt image_path prompt attempt
                      :: Error image_path attempt
                      :: Sleep (retry_delay * 3 ^ attempt)
                      :: Attempt image_path prompt (S attempt) :: new) /\
     (remaining = 0%nat -> r.1 = false)).
Proof.
  intros Hsum o r.
  destruct (retry_loop_spec max_retries retry_delay image_path prompt
              output_path (S remaining) attempt w Hsum) as (Hpend & Hart & _).
  fold r in Hpend, Hart.
  pose proof (run_try_check image_path prompt output_path
                (emit (Attempt image_path prompt attempt) w)) as Hcheck.
  cbn zeta in Hcheck. change (requests (emit _ w)) with (requests w) in Hcheck.
  fold o in Hcheck.
  pose proof (run_try_frame image_path prompt output_path
                (emit (Attempt image_path prompt attempt) w)) as Hframe.
  cbn zeta in Hframe. destruct Hframe as (_ & Hl1 & Hr1).
  assert (Hr : r = retry_loop gemini max_retries retry_delay (S remaining) attempt
             image_path prompt output_path w) by reflexivity.
  cbn [retry_loop] in Hr.
  destruct (run_try gemini image_path prompt output_path
              (emit (Attempt image_path prompt attempt) w)) as [reached w1].
  cbn [fst snd] in Hcheck, Hl1, Hr1. rewrite Hcheck in Hr.
  simpl in Hl1, Hr1.
  split; [|split; [exact Hart|]].
  - destruct o as [a|[text|]].
    + split; [|intros (t & E & _); discriminate].
      intros [Hs Hreq]. exfalso. rewrite Hr in Hs, Hreq.
      destruct (attempt <? max_retries - 1)%nat eqn:Hlt; [|discriminate].
      apply Nat.ltb_lt in Hlt.
      destruct (retry_loop_spec max_retries retry_delay image_path prompt
                  output_path remaining (S attempt)
                  (emit (Sleep (retry_delay * 3 ^ attempt))
                     (emit (Error image_path attempt) w1)))
        as (_ & _ & new & k & _ & Hq & _ & Hk1 & _); [lia|].
      rewrite Hq in Hreq. simpl in Hreq. lia.
    + destruct (truthy text) eqn:Ht.
      * split; [|intros _; rewrite Hr; simpl; auto].
        intros _. exists text. split; [reflexivity|]. now apply truthy_true.
      * split; [|intros (t & E & Hne); injection E as <-; apply truthy_true in Hne; congruence].
        intros [Hs Hreq]. exfalso. rewrite Hr in Hs, Hreq.
        destruct (attempt <? max_retries - 1)%nat eqn:Hlt; [|discriminate].
        apply Nat.ltb_lt in Hlt.
        destruct (retry_loop_spec max_retries retry_delay image_path prompt
                    output_path remaining (S attempt)
                    (emit (Sleep (retry_delay * 3 ^ attempt))
                       (emit (Error image_path attempt) w1)))
          as (_ & _ & new & k & _ & Hq & _ & Hk1 & _); [lia|].
        rewrite Hq in Hreq. simpl in Hreq. lia.
    + split; [|intros (t & E & _); discriminate].
      intros [Hs Hreq]. exfalso. rewrite Hr in Hs, Hreq.
      destruct (attempt <? max_retries - 1)%nat eqn:Hlt; [|discriminate].
      apply Nat.ltb_lt in Hlt.
      destruct (retry_loop_spec max_retries retry_delay image_path prompt
                  output_path remaining (S attempt)
                  (emit (Sleep (retry_delay * 3 ^ attempt))
                     (emit (Error image_path attempt) w1)))
        as (_ & _ & new & k & _ & Hq & _ & Hk1 & _); [lia|].
      rewrite Hq in Hreq. simpl in Hreq. lia.
  - intros Hempty. split; [exact Hpend|].
    assert (Hbad : match o with Completed (Some text) => truthy text | _ => false end = false).
    { destruct o as [a|[text|]]; simpl in Hempty; try reflexivity.
      now apply negb_true_iff in Hempty. }
    rewrite Hbad in Hr. split.
    + intros Hrem.
      assert (Hlt : (attempt <? max_retries - 1)%nat = true) by (apply Nat.ltb_lt; lia).
      rewrite Hlt in Hr. destruct remaining as [|rem]; [lia|].
      destruct (retry_loop_first_attempt max_retries retry_delay image_path prompt
                  output_path rem (S attempt)
                  (emit (Sleep (retry_delay * 3 ^ attempt))
                     (emit (Error image_path attempt) w1)))
        as (new & Hlog); [lia|].
      exists new. rewrite Hr, Hlog. simpl. rewrite Hl1, <- !app_assoc. reflexivity.
    + intros ->.
      assert (Hlt : (attempt <? max_retries - 1)%nat = false) by (apply Nat.ltb_ge; lia).
      rewrite Hr, Hlt. reflexivity.
Qed.

Section Item.

Variable global_context : string.
Variable context_mapping : gmap string string.

Let step := process_one SCRIPT_DIR gemini global_context context_mapping.

Lemma process_one_missing (w : world) (image_path : string) :
  files w !! image_path = None ->
  step w image_path
  = set_pending (remove_from_pending (pending w) image_path)
                (emit (Warning image_path) w).
Proof.
  intros Hnone. unfold step, process_one. rewrite Hnone.
  rewrite bool_decide_eq_false_2; [reflexivity|]. intros [? ?]; discriminate.
Qed.

Lemma process_one_present (w : world) (image_path : string) :
  is_Some (files w !! image_path) ->
  let base_name := (splitext (basename image_path)).1 in
  let r := retry_loop gemini MAX_RETRIES RETRY_DELAY MAX_RETRIES 0 image_path
             (compose_prompt global_context context_mapping base_name)
             (output_path_of SCRIPT_DIR image_path) w in
  step w image_path
  = if r.1 then set_pending (remove_from_pending (pending r.2) image_path) r.2
    else r.2.
Proof.
  intros Hsome. unfold step, process_one. rewrite bool_decide_eq_true_2 by exact Hsome.
  cbn [negb]. unfold output_path_of.
  destruct (retry_loop _ _ _ _ _ _ _ _ _) as [success w1]. reflexivity.
Qed.

(** An item whose attempts all fail keeps its line: the pending file is
    the same text before and after. *)
Lemma failed_item_stays (w : world) (image_path : string) :
  is_Some (files w !! image_path) ->
  (retry_loop gemini MAX_RETRIES RETRY_DELAY MAX_RETRIES 0 image_path
     (compose_prompt global_context context_mapping
        (splitext (basename image_path)).1)
     (output_path_of SCRIPT_DIR image_path) w).1 = false ->
  pending (step w image_path) = pending w.
Proof.
  intros Hsome Hfail. rewrite process_one_present by exact Hsome.
  cbn zeta. rewrite Hfail.
  now destruct (retry_loop_spec MAX_RETRIES RETRY_DELAY image_path
    (compose_prompt global_context context_mapping (splitext (basename image_path)).1)
    (output_path_of SCRIPT_DIR image_path) MAX_RETRIES 0 w eq_refl) as [? _].
Qed.

(** The pending file changes only for a missing source or with a
    non-empty output artifact in place. *)
Lemma removal_needs_artifact (w : world) (image_path : string) :
  pending (step w image_path) <> pending w ->
  files w !! image_path = None \/
  artifact_ok (files (step w image_path)) (output_path_of SCRIPT_DIR image_path) = true.
Proof.
  intros Hchanged. destruct (files w !! image_path) as [img|] eqn:Himg; [|now left].
  right. assert (Hsome : is_Some (files w !! image_path)) by (rewrite Himg; eauto).
  rewrite process_one_present in Hchanged |- * by exact Hsome. cbn zeta in *.
  destruct (retry_loop_spec MAX_RETRIES RETRY_DELAY image_path
    (compose_prompt global_context context_mapping (splitext (basename image_path)).1)
    (output_path_of SCRIPT_DIR image_path) MAX_RETRIES 0 w eq_refl) as (Hp & Hok & _).
  destruct (retry_loop _ _ _ _ _ _ _ _ _) as [[|] w1]; cbn [fst snd] in *.
  - now apply Hok.
  - congruence.
Qed.

(** Passes that complete with no artifact or an empty one, three times in
    a row, leave the item in the pending file. *)
Lemma empty_artifacts_keep_item (w : world) (image_path : string) :
  is_Some (files w !! image_path) ->
  (forall n prompt, empty_or_missing (gemini n image_path prompt) = true) ->
  pending (step w image_path) = pending w /\
  requests (step w image_path) = (requests w + MAX_RETRIES)%nat.
Proof.
  intros Hsome Hall.
  set (prompt := compose_prompt global_context context_mapping
                   (splitext (basename image_path)).1).
  assert (Hfail : (retry_loop gemini MAX_RETRIES RETRY_DELAY MAX_RETRIES 0
                     image_path prompt (output_path_of SCRIPT_DIR image_path) w).1
                  = false).
  { apply retry_loop_all_fail. intros n. specialize (Hall n prompt).
    destruct (gemini n image_path prompt) as [a|[text|]]; simpl in Hall; auto.
    now apply negb_true_iff in Hall. }
  split; [now apply failed_item_stays|].
  rewrite process_one_present by exact Hsome. cbn zeta. fold prompt. rewrite Hfail.
  destruct (retry_loop_spec MAX_RETRIES RETRY_DELAY image_path prompt
    (output_path_of SCRIPT_DIR image_path) MAX_RETRIES 0 w eq_refl)
    as (_ & _ & new & k & _ & Hq & _ & _ & Hk & _).
  rewrite Hq, (Hk Hfail). reflexivity.
Qed.

(** A run over items that are all missing: one filter of the pending
    file, one warning per item, nothing else. *)
Lemma fold_missing (items : list string) :
  forall w : world,
  (forall i, In i items -> files w !! i = None) ->
  let w' := fold_left step items w in
  pending w'
    = write_lines (List.filter (keeps_none_of items) (readlines (pending w))) /\
  files w' = files w /\ requests w' = requests w /\
  log w' = log w ++ List.map Warning items.
Proof.
  induction items as [|i items IH]; intros w Hmiss.
  - simpl. rewrite filter_true, write_readlines, app_nil_r; [auto|]. now intros.
  - cbn [fold_left]. rewrite process_one_missing by (apply Hmiss; now left).
    set (w1 := set_pending _ _).
    destruct (IH w1) as (Hp & Hf & Hr & Hl).
    { intros j Hj. apply Hmiss. now right. }
    cbn zeta. rewrite Hp, Hf, Hr, Hl. repeat split.
    + unfold w1. cbn [pending set_pending emit].
      rewrite remove_from_pending_lines, filter_filter. f_equal.
      apply List.filter_ext. intros l. unfold keeps, keeps_none_of. simpl.
      now rewrite negb_orb.
    + unfold w1. simpl. now rewrite <- app_assoc.
Qed.

End Item.

(** *** An empty artifact *)

(** One iteration of the retry loop, with the size check written as a
    test on what the pass did. *)
Lemma retry_loop_unfold (max_retries retry_delay : nat)
    (image_path prompt output_path : string) (rem attempt : nat) (w : world) :
  retry_loop gemini max_retries retry_delay (S rem) attempt
    image_path prompt output_path w
  = let w1 := (run_try gemini image_path prompt output_path
                 (emit (Attempt image_path prompt attempt) w)).2 in
    if match gemini (requests w) image_path prompt with
       | Completed (Some text) => truthy text
       | _ => false
       end
    then (true, emit (Saved output_path) w1)
    else
      let w2 := emit (Error image_path attempt) w1 in
      if (attempt <? max_retries - 1)%nat then
        retry_loop gemini max_retries retry_delay rem (S attempt)
          image_path prompt output_path
          (emit (Sleep (retry_delay * 3 ^ attempt)) w2)
      else (false, emit (Failed image_path) w2).
Proof.
  cbn [retry_loop].
  pose proof (run_try_check image_path prompt output_path
                (emit (Attempt image_path prompt attempt) w)) as Hcheck.
  cbn zeta in Hcheck. change (requests (emit _ w)) with (requests w) in Hcheck.
  destruct (run_try gemini image_path prompt output_path
              (emit (Attempt image_path prompt attempt) w)) as [reached w1].
  cbn [fst snd] in *. now rewrite Hcheck.
Qed.

Lemma empty_fails_check (o : outcome) :
  empty_or_missing o = true ->
  match o with Completed (Some text) => truthy text | _ => false end = false.
Proof.
  destruct o as [a|[text|]]; simpl; auto. intros H. now apply negb_true_iff in H.
Qed.

Lemma run_try_artifact (image_path prompt output_path text : string) (w : world) :
  gemini (requests w) image_path prompt = Completed (Some text) ->
  files (run_try gemini image_path prompt output_path w).2 !! output_path
  = Some text.
Proof. intros H. unfold run_try. rewrite H. cbn [snd files]. apply lookup_insert_eq. Qed.

(** After an empty or missing artifact, with iterations left, the loop
    goes through the [try] body once more, and what that pass leaves
    decides. *)
Lemma retry_loop_second_pass (max_retries retry_delay : nat)
    (image_path prompt output_path : string) (rem attempt : nat) (w : world) :
  (S (S rem) + attempt = max_retries)%nat ->
  empty_or_missing (gemini (requests w) image_path prompt) = true ->
  let r := retry_loop gemini max_retries retry_delay (S (S rem)) attempt
             image_path prompt output_path w in
  (exists new,
     log r.2 = log w ++ Attempt image_path prompt attempt
                 :: Error image_path attempt
                 :: Sleep (retry_delay * 3 ^ attempt)
                 :: Attempt image_path prompt (S attempt) :: new) /\
  (requests w + 2 <= requests r.2)%nat /\
  (forall text,
     gemini (S (requests w)) image_path prompt = Completed (Some text) ->
     text <> "" ->
     r.1 = true /\
     requests r.2 = (requests w + 2)%nat /\
     files r.2 !! output_path = Some text /\
     log r.2 = log w ++ [Attempt image_path prompt attempt;
                         Error image_path attempt;
                         Sleep (retry_delay * 3 ^ attempt);
                         Attempt image_path prompt (S attempt);
                         Saved output_path]).
Proof.
  intros Hsum He r. subst r.
  rewrite retry_loop_unfold, (empty_fails_check _ He). cbn zeta.
  assert (Hlt : (attempt <? max_retries - 1)%nat = true) by (apply Nat.ltb_lt; lia).
  rewrite Hlt.
  set (w2 := emit (Sleep (retry_delay * 3 ^ attempt))
               (emit (Error image_path attempt)
                  (run_try gemini image_path prompt output_path
                     (emit (Attempt image_path prompt attempt) w)).2)).
  assert (Hreq : requests w2 = S (requests w)) by reflexivity.
  assert (Hlog : log w2 = log w ++ [Attempt image_path prompt attempt;
                                    Error image_path attempt;
                                    Sleep (retry_delay * 3 ^ attempt)]).
  { unfold w2. cbn [log emit run_try snd]. now rewrite <- !app_assoc. }
  split; [|split].
  - destruct (retry_loop_first_attempt max_retries retry_delay image_path prompt
                output_path rem (S attempt) w2) as (new & Hnew); [lia|].
    exists new. rewrite Hnew, Hlog, <- app_assoc. reflexivity.
  - destruct (retry_loop_spec max_retries retry_delay image_path prompt
                output_path (S rem) (S attempt) w2)
      as (_ & _ & new & k & _ & Hq & _ & Hk1 & _); [lia|].
    rewrite Hq, Hreq. specialize (Hk1 ltac:(lia)). lia.
  - intros text Ho Hne. rewrite retry_loop_unfold, Hreq, Ho.
    apply truthy_true in Hne. rewrite Hne. cbn [fst snd].
    split; [reflexivity|]. split; [|split].
    + cbn [requests emit run_try snd]. rewrite Hreq. lia.
    + cbn [files emit]. apply run_try_artifact.
      change (requests (emit _ w2)) with (requests w2). now rewrite Hreq.
    + cbn [log emit run_try snd]. rewrite Hlog, <- !app_assoc. reflexivity.
Qed.

(** After an empty or missing artifact at the last iteration the loop
    gives up. *)
Lemma retry_loop_last_pass (max_retries retry_delay : nat)
    (image_path prompt output_path : string) (attempt : nat) (w : world) :
  (1 + attempt = max_retries)%nat ->
  empty_or_missing (gemini (requests w) image_path prompt) = true ->
  let r := retry_loop gemini max_retries retry_delay 1 attempt
             image_path prompt output_path w in
  r.1 = false /\
  requests r.2 = S (requests w) /\
  log r.2 = log w ++ [Attempt image_path prompt attempt;
                      Error image_path attempt; Failed image_path].
Proof.
  intros Hsum He r. subst r.
  rewrite retry_loop_unfold, (empty_fails_check _ He). cbn zeta.
  assert (Hlt : (attempt <? max_retries - 1)%nat = false) by (apply Nat.ltb_ge; lia).
  rewrite Hlt. cbn [fst snd]. split; [reflexivity|]. split; [reflexivity|].
  cbn [log emit run_try snd]. now rewrite <- !app_assoc.
Qed.

(** Three empty or missing artifacts in a row: the loop of the script
    ends in failure after its third pass. *)
Lemma retry_loop_three_empty (image_path prompt output_path : string) (w : world) :
  empty_or_missing (gemini (requests w) image_path prompt) = true ->
  empty_or_missing (gemini (S (requests w)) image_path prompt) = true ->
  empty_or_missing (gemini (S (S (requests w))) image_path prompt) = true ->
  let r := retry_loop gemini MAX_RETRIES RETRY_DELAY MAX_RETRIES 0
             image_path prompt output_path w in
  r.1 = false /\
  requests r.2 = (requests w + 3)%nat /\
  artifact_ok (files r.2) output_path = false /\
  log r.2 = log w ++ [Attempt image_path prompt 0; Error image_path 0; Sleep 5;
                      Attempt image_path prompt 1; Error image_path 1; Sleep 15;
                      Attempt image_path prompt 2; Error image_path 2;
                      Failed image_path].
Proof.
  intros H0 H1 H2 r. subst r. unfold MAX_RETRIES, RETRY_DELAY.
  rewrite retry_loop_unfold, (empty_fails_check _ H0). cbn zeta.
  change (0 <? 3 - 1)%nat with true. cbv iota.
  set (w1 := emit (Sleep (5 * 3 ^ 0)) _).
  assert (Hq1 : requests w1 = S (requests w)) by reflexivity.
  rewrite retry_loop_unfold, Hq1, (empty_fails_check _ H1). cbn zeta.
  change (1 <? 3 - 1)%nat with true. cbv iota.
  set (w2 := emit (Sleep (5 * 3 ^ 1)) _).
  assert (Hq2 : requests w2 = S (S (requests w))) by reflexivity.
  rewrite retry_loop_unfold, Hq2, (empty_fails_check _ H2). cbn zeta.
  change (2 <? 3 - 1)%nat with false. cbv iota.
  cbn [fst snd]. split; [reflexivity|]. split; [|split].
  - cbn [requests emit run_try snd]. rewrite Hq2. lia.
  - cbn [files emit]. unfold run_try at 1. cbn [snd files].
    change (requests (emit _ w2)) with (requests w2). rewrite Hq2.
    destruct (gemini (S (S (requests w))) image_path prompt) as [a|[text|]];
      try discriminate.
    + simpl in H2. apply negb_true_iff, truthy_false in H2. subst text.
      unfold artifact_ok. now rewrite lookup_insert_eq.
    + unfold artifact_ok. now rewrite lookup_delete_eq.
  - cbn [log emit run_try snd]. unfold w2. cbn [log emit run_try snd].
    unfold w1. cbn [log emit run_try snd]. now rewrite <- !app_assoc.
Qed.

(** C6.  A pass through the [try] body counts as a success only with an
    output artifact that exists and is not empty; a pass that completes
    without error and leaves no artifact or an empty one is a failure that
    is retried, and the item stays in the pending file.

    For the retry loop, with [remaining + 1] iterations left at attempt
    number [attempt]: the attempt ends the loop with success exactly when
    its pass completed with a non-empty artifact, and a reported success
    has such an artifact in place.  After a completed pass with an empty
    or missing artifact the pending file is untouched; while iterations
    remain the loop logs the error, sleeps and goes through the [try] body
    again (at least two passes are made), and when that second pass leaves
    a non-empty artifact the loop ends there with success; when no
    iteration remains the loop reports failure.

    For an item of the main loop whose image exists: its line leaves the
    pending file only with a non-empty artifact in place; after an empty
    or missing artifact followed by a non-empty one the item is removed
    after two passes; after three empty or missing artifacts the item is
    still in the pending file, three passes were made and the item was
    reported as failed. *)
Theorem empty_artifact_is_retried :
  (forall (max_retries retry_delay : nat)
          (image_path prompt output_path : string) (remaining attempt : nat)
          (w : world),
     (S remaining + attempt = max_retries)%nat ->
     let o := gemini (requests w) image_path prompt in
     let r := retry_loop gemini max_retries retry_delay (S remaining) attempt
                image_path prompt output_path w in
     ((r.1 = true /\ requests r.2 = S (requests w)) <->
      (exists text, o = Completed (Some text) /\ text <> "")) /\
     (r.1 = true -> artifact_ok (files r.2) output_path = true) /\
     (empty_or_missing o = true ->
        pending r.2 = pending w /\
        ((1 <= remaining)%nat ->
           (exists new,
              log r.2 = log w ++ Attempt image_path prompt attempt
                          :: Error image_path attempt
                          :: Sleep (retry_delay * 3 ^ attempt)
                          :: Attempt image_path prompt (S attempt) :: new) /\
           (requests w + 2 <= requests r.2)%nat /\
           (forall text,
              gemini (S (requests w)) image_path prompt = Completed (Some text) ->
              text <> "" ->
              r.1 = true /\
              requests r.2 = (requests w + 2)%nat /\
              files r.2 !! output_path = Some text /\
              log r.2 = log w ++ [Attempt image_path prompt attempt;
                                  Error image_path attempt;
                                  Sleep (retry_delay * 3 ^ attempt);
                                  Attempt image_path prompt (S attempt);
                                  Saved output_path])) /\
        (remaining = 0%nat ->
           r.1 = false /\
           requests r.2 = S (requests w) /\
           log r.2 = log w ++ [Attempt image_path prompt attempt;
                               Error image_path attempt; Failed image_path]))) /\
  (forall (global_context : string) (context_mapping : gmap string string)
          (w : world) (image_path : string),
     is_Some (files w !! image_path) ->
     let prompt :=
       compose_prompt global_context context_mapping
         (splitext (basename image_path)).1 in
     let output_path := output_path_of SCRIPT_DIR image_path in
     let o := fun n => gemini (n + requests w)%nat image_path prompt in
     let w' := process_one SCRIPT_DIR gemini global_context context_mapping
                 w image_path in
     (pending w' <> pending w -> artifact_ok (files w') output_path = true) /\
     (empty_or_missing (o 0%nat) = true ->
        (forall text,
           o 1%nat = Completed (Some text) -> text <> "" ->
           pending w' = remove_from_pending (pending w) image_path /\
           requests w' = (requests w + 2)%nat /\
           files w' !! output_path = Some text) /\
        (empty_or_missing (o 1%nat) = true ->
         empty_or_missing (o 2%nat) = true ->
           pending w' = pending w /\
           requests w' = (requests w + 3)%nat /\
           artifact_ok (files w') output_path = false /\
           log w' = log w ++ [Attempt image_path prompt 0; Error image_path 0;
                              Sleep 5;
                              Attempt image_path prompt 1; Error image_path 1;
                              Sleep 15;
                              Attempt image_path prompt 2; Error image_path 2;
                              Failed image_path]))).
Proof.
  split.
  - intros max_retries retry_delay image_path prompt output_path remaining attempt
      w Hsum o r.
    destruct (retry_loop_first_pass max_retries retry_delay image_path prompt
                output_path remaining attempt w Hsum) as (Hiff & Hart & Hempty).
    split; [exact Hiff|]. split; [exact Hart|].
    intros He. destruct (Hempty He) as (Hpend & _ & Hlast).
    split; [exact Hpend|]. split.
    + intros Hrem. destruct remaining as [|rem]; [lia|].
      apply retry_loop_second_pass; assumption.
    + intros ->. apply retry_loop_last_pass; assumption.
  - intros global_context context_mapping w image_path Hsome prompt output_path o w'.
    pose proof (process_one_present global_context context_mapping w image_path
                  Hsome) as Hstep.
    cbn zeta in Hstep. fold prompt output_path w' in Hstep.
    pose proof (retry_loop_spec MAX_RETRIES RETRY_DELAY image_path prompt
                  output_path MAX_RETRIES 0 w eq_refl) as (Hpend & _).
    split; [|intros H0; split].
    + intros Hchanged.
      destruct (removal_needs_artifact global_context context_mapping w image_path
                  Hchanged) as [Hnone|Hok]; [|exact Hok].
      destruct Hsome as [img Himg]. congruence.
    + intros text H1 Hne.
      destruct (retry_loop_second_pass MAX_RETRIES RETRY_DELAY image_path prompt
                  output_path 1 0 w eq_refl H0) as (_ & _ & Hgood).
      destruct (Hgood text H1 Hne) as (Hs & Hq & Hf & _).
      unfold MAX_RETRIES in *.
      rewrite Hstep, Hs. cbn [pending requests files set_pending].
      now rewrite Hpend.
    + intros H1 H2.
      destruct (retry_loop_three_empty image_path prompt output_path w H0 H1 H2)
        as (Hs & Hq & Hf & Hl).
      unfold MAX_RETRIES in *.
      rewrite Hstep, Hs. now rewrite Hpend.
Qed.

Lemma timeline_warnings (items : list string) :
  timeline (List.map Warning items) = [].
Proof. induction items; simpl; auto. Qed.

Lemma filter_none {A} (f : A -> bool) (l : list A) :
  (forall x, In x l -> f x = false) -> List.filter f l = [].
Proof.
  induction l as [|x l IH]; intros H; [reflexivity|].
  simpl. rewrite (H x) by now left. apply IH. intros y Hy. apply H. now right.
Qed.

(** C7.  An item whose source file does not exist is dropped from the
    pending file at once, with one warning and nothing else: no pass
    through the [try] body, no sleep, no file written.  When every item of
    the pending file is missing, the run ends with no item left in the
    file, without a single attempt or sleep. *)
Theorem missing_item_is_dropped :
  (forall (global_context : string) (context_mapping : gmap string string)
          (w : world) (image_path : string),
     files w !! image_path = None ->
     let w' := process_one SCRIPT_DIR gemini global_context context_mapping
                 w image_path in
     pending w' = remove_from_pending (pending w) image_path /\
     ~ In image_path (load (pending w')) /\
     log w' = log w ++ [Warning image_path] /\
     requests w' = requests w /\ files w' = files w) /\
  (forall (pending_file : option string) (ctx : folder) (fs : gmap string string),
     let content :=
       match pending_file with Some c => c | None => pending_header end in
     (forall item, In item (load content) -> fs !! item = None) ->
     let w := main SCRIPT_DIR gemini pending_file ctx fs in
     load (pending w) = [] /\
     requests w = 0%nat /\ files w = fs /\
     log w = List.map Warning (rev (load content)) /\
     timeline (log w) = []).
Proof.
  split.
  - intros gc cm w image_path Hnone w'. unfold w'.
    rewrite process_one_missing by exact Hnone. cbn [pending set_pending emit].
    repeat split.
    rewrite flash_load_remove, List.filter_In. intros [_ H].
    apply eqb_neq_true in H. now apply H.
  - intros pending_file ctx fs content Hmiss w.
    assert (Hw : w = main SCRIPT_DIR gemini pending_file ctx fs) by reflexivity.
    clearbody w. unfold main in Hw. fold content in Hw.
    destruct (load content) as [|p ps] eqn:Hload.
    + subst w. cbn [pending files requests log].
      rewrite Hload. auto.
    + unfold REVERSE_ORDER in Hw.
      destruct (fold_missing (load_global_context ctx) (load_context_mapping ctx)
                  (rev (p :: ps))
                  {| pending := content; files := fs; requests := 0; log := [] |})
        as (Hp & Hf & Hr & Hl).
      { intros i Hi. apply Hmiss. now apply List.in_rev. }
      rewrite <- Hw in Hp, Hf, Hr, Hl.
      cbn [pending files requests log app] in Hp, Hf, Hr, Hl.
      rewrite Hl, timeline_warnings. repeat split; auto.
      rewrite Hp. unfold load at 1. rewrite readlines_rewrite, filter_filter.
      rewrite filter_none; [reflexivity|].
      intros l Hin. destruct (truthy (strip l)) eqn:Ht; [|now rewrite andb_false_r].
      rewrite andb_true_r. apply PreprocessFacts.keeps_none_of_false.
      apply List.in_rev. rewrite List.rev_involutive, <- Hload.
      unfold load. apply List.in_map, List.filter_In. auto.
Qed.

End Script.

End FlashFacts.

(** ** Prompt composition *)

Module ContextFacts.
Import Text Path File TextFacts Flash.

(** C4.  [compose_prompt] is a function of the base prompt, the global
    context, the mapping and the basename.  With an empty global context
    and no entry for the image it returns the base prompt; with a global
    context [G] only, the base prompt behind "Given the context: G" and a
    newline; with an entry [X] only, the same with [X]; with both, [G], a
    newline and [X].  [G] and [X] are texts that are not empty. *)
Theorem compose_prompt_cases (base G X image_basename : string)
    (without with_entry : gmap string string) :
  G <> "" -> X <> "" ->
  without !! image_basename = None ->
  with_entry !! image_basename = Some X ->
  compose_with base "" without image_basename = base /\
  compose_with base G without image_basename
    = "Given the context: " +:+ G +:+ nl +:+ base /\
  compose_with base "" with_entry image_basename
    = "Given the context: " +:+ X +:+ nl +:+ base /\
  compose_with base G with_entry image_basename
    = "Given the context: " +:+ G +:+ nl +:+ X +:+ nl +:+ base.
Proof.
  intros HG HX Hnone Hsome. unfold compose_with. rewrite Hnone, Hsome.
  destruct G as [|g G']; [congruence|]. destruct X as [|x X']; [congruence|].
  cbn [truthy]. repeat split.
  rewrite (sapp_cons g G'). cbn [truthy]. rewrite <- (sapp_cons g G').
  now rewrite !sapp_assoc.
Qed.

Lemma compose_prompt_cases_witness :
  compose_prompt "" ∅ "img1" = base_prompt /\
  compose_prompt "G" ∅ "img1" = "Given the context: G" +:+ nl +:+ base_prompt /\
  compose_prompt "" {[ "img1" := "X" ]} "img1"
    = "Given the context: X" +:+ nl +:+ base_prompt /\
  compose_prompt "G" {[ "img1" := "X" ]} "img1"
    = "Given the context: G" +:+ nl +:+ "X" +:+ nl +:+ base_prompt.
Proof.
  apply (compose_prompt_cases base_prompt "G" "X" "img1" ∅ {[ "img1" := "X" ]}).
  - discriminate.
  - discriminate.
  - reflexivity.
  - vm_compute. reflexivity.
Defined.

End ContextFacts.

(** ** The orchestrator's ledgers *)

Module OrchestratorFacts.
Import Text Path File TextFacts FileFacts Orchestrator.

Lemma scan_first_line_spec (lines : list string) :
  scan_first_line lines true = false <-> first_meaningful lines = Some sentinel.
Proof.
  unfold first_meaningful.
  induction lines as [|l lines IH]; cbn [scan_first_line List.filter].
  - split; discriminate.
  - fold (meaningful l). destruct (meaningful l) eqn:Hm; [|exact IH].
    destruct (String.eqb (strip l) sentinel) eqn:E.
    + apply String.eqb_eq in E. rewrite E. split; reflexivity.
    + apply String.eqb_neq in E. split; [discriminate|]. intros H. congruence.
Qed.

Lemma full_line_uncons (c : ascii) (l : string) :
  Ascii.eqb c newline = false -> full_line (String c l) -> full_line l.
Proof.
  intros Hc (body & E & Hb). destruct body as [|b body].
  - injection E as -> _. discriminate.
  - rewrite sapp_cons in E. injection E as -> ->.
    simpl in Hb. apply andb_true_iff in Hb as [_ Hb]. now exists body.
Qed.

(** After a text whose lines are all terminated, a new line starts. *)
Lemma readlines_app (x y : string) :
  Forall full_line (readlines x) ->
  readlines (x +:+ y) = readlines x ++ readlines y.
Proof.
  induction x as [|c x IH]; intros Hfull; [reflexivity|].
  rewrite sapp_cons. simpl in *. destruct (Ascii.eqb c newline) eqn:Hc.
  - simpl. f_equal. apply IH. now inversion Hfull.
  - destruct (readlines x) as [|l ls] eqn:Hx.
    + exfalso. inversion Hfull as [|? ? (body & E & _) _]; subst.
      destruct body as [|b [|b' body]]; try discriminate.
      injection E as ->. discriminate.
    + inversion Hfull as [|? ? Hl Hls]; subst.
      rewrite IH; [reflexivity|]. constructor; [|exact Hls].
      now apply full_line_uncons in Hl.
Qed.

Lemma readlines_terminated (p : string) : Forall full_line (readlines (p +:+ nl)).
Proof.
  induction p as [|c p IH].
  - repeat constructor. exists "". now split.
  - rewrite sapp_cons. simpl. destruct (Ascii.eqb c newline) eqn:Hc.
    + constructor; [|exact IH]. apply Ascii.eqb_eq in Hc. subst c.
      exists "". now split.
    + destruct (readlines (p +:+ nl)) as [|l ls] eqn:Hp.
      * exfalso. destruct p; discriminate || (simpl in Hp;
          destruct (Ascii.eqb _ newline); [discriminate|];
          destruct (readlines _); discriminate).
      * inversion IH; subst. constructor; [|assumption].
        now apply full_line_push.
Qed.

Lemma write_paths_terminated (paths : list string) :
  Forall full_line (readlines (write_paths paths)).
Proof.
  induction paths as [|p paths IH]; [constructor|].
  simpl. rewrite readlines_app by apply readlines_terminated.
  apply Forall_app. split; [apply readlines_terminated|exact IH].
Qed.

(** Paths without a newline in them are written one per line. *)
Lemma readlines_write_paths (paths : list string) :
  Forall (fun p => no_newline p = true) paths ->
  readlines (write_paths paths) = List.map (fun p => p +:+ nl) paths.
Proof.
  induction 1 as [|p paths Hp _ IH]; [reflexivity|].
  simpl. rewrite readlines_full by exact Hp. now rewrite IH.
Qed.

Lemma sentinel_line : readlines (sentinel +:+ nl) = [sentinel +:+ nl].
Proof. reflexivity. Qed.

(** C9 as stated fails on the ledger of the transcription stage: a pending
    file without a sentinel is kept as it is, and a pending file that is
    written anew gets no sentinel line. *)
Lemma pending_ledger_has_no_sentinel :
  ~ (regenerate_pending false (Some ("a.jpeg" +:+ nl)) = false <->
     first_meaningful (readlines ("a.jpeg" +:+ nl)) = Some sentinel) /\
  populate_pending false None ["/out/a.jpeg"] = Some ("/out/a.jpeg" +:+ nl) /\
  List.last (readlines ("/out/a.jpeg" +:+ nl)) "" <> sentinel +:+ nl.
Proof.
  split; [|split].
  - intros [H _]. specialize (H eq_refl). vm_compute in H. discriminate.
  - reflexivity.
  - vm_compute. discriminate.
Qed.

(** C9, amended.  For the ledger of the preprocess stage the orchestrator
    skips repopulation exactly when the file exists and its first line
    that is neither blank nor a comment is the sentinel; otherwise the
    file becomes the discovered paths, one per line, with the sentinel as
    its last line, whatever it held before.  The ledger of the
    transcription stage has no sentinel: it is written anew exactly when
    [--new] is given or the file does not exist, and then it holds the
    gathered paths and nothing else. *)
Theorem repopulation_rule
    (cwd : string)
    (tracking_file : option string) (input_path : string) (listing : list string)
    (new : bool) (pending_file : option string) (processed_images : list string) :
  (decide_repopulate tracking_file = false <->
     exists content, tracking_file = Some content /\
       first_meaningful (readlines content) = Some sentinel) /\
  (decide_repopulate tracking_file = false ->
     populate_tracking cwd tracking_file input_path listing = tracking_file) /\
  (decide_repopulate tracking_file = true ->
     let image_paths := discover cwd input_path listing in
     exists after,
       populate_tracking cwd tracking_file input_path listing = Some after /\
       after = write_paths image_paths +:+ (sentinel +:+ nl) /\
       readlines after = readlines (write_paths image_paths) ++ [sentinel +:+ nl] /\
       List.last (readlines after) "" = sentinel +:+ nl /\
       (Forall (fun p => no_newline p = true) image_paths ->
          readlines after
          = List.map (fun p => p +:+ nl) image_paths ++ [sentinel +:+ nl])) /\
  (regenerate_pending new pending_file = false <->
     new = false /\ exists content, pending_file = Some content) /\
  (regenerate_pending new pending_file = false ->
     populate_pending new pending_file processed_images = pending_file) /\
  (regenerate_pending new pending_file = true ->
     populate_pending new pending_file processed_images
       = Some (write_paths processed_images) /\
     (Forall (fun p => no_newline p = true) processed_images ->
        readlines (write_paths processed_images)
        = List.map (fun p => p +:+ nl) processed_images)).
Proof.
  split; [|split; [|split; [|split; [|split]]]].
  - unfold decide_repopulate. destruct tracking_file as [content|].
    + rewrite scan_first_line_spec. split; [eauto|].
      now intros (c & [= <-] & H).
    + split; [discriminate|]. now intros (c & [=] & _).
  - intros H. unfold populate_tracking. now rewrite H.
  - intros H image_paths. unfold populate_tracking. rewrite H. fold image_paths.
    eexists. split; [reflexivity|]. split; [reflexivity|].
    assert (Hlines : readlines (write_paths image_paths +:+ (sentinel +:+ nl))
                     = readlines (write_paths image_paths) ++ [sentinel +:+ nl]).
    { rewrite readlines_app by apply write_paths_terminated.
      now rewrite sentinel_line. }
    split; [exact Hlines|]. split.
    + rewrite Hlines. apply List.last_last.
    + intros Hp. now rewrite Hlines, readlines_write_paths.
  - unfold regenerate_pending. destruct new, pending_file as [content|]; simpl;
      split; try discriminate; eauto.
    + now intros [[=] _].
    + now intros [[=] _].
    + now intros [_ (c & [=])].
  - intros H. unfold populate_pending. now rewrite H.
  - intros H. unfold populate_pending. rewrite H. split; [reflexivity|].
    apply readlines_write_paths.
Qed.

Lemma repopulation_rule_witness :
  populate_tracking "/home" (Some ("# old" +:+ nl +:+ "x.png" +:+ nl)) "/in"
    ["a.PNG"; "b.txt"]
  = Some ("/in/a.PNG" +:+ nl +:+ "$$done$$" +:+ nl) /\
  populate_tracking "/home" (Some (nl +:+ "$$done$$" +:+ nl)) "/in" ["a.PNG"; "b.txt"]
  = Some (nl +:+ "$$done$$" +:+ nl).
Proof.
  split.
  - destruct (repopulation_rule "/home" (Some ("# old" +:+ nl +:+ "x.png" +:+ nl))
                "/in" ["a.PNG"; "b.txt"] false None [])
      as (_ & _ & H & _).
    destruct (H eq_refl) as (after & -> & -> & _). reflexivity.
  - destruct (repopulation_rule "/home" (Some (nl +:+ "$$done$$" +:+ nl)) "/in"
                ["a.PNG"; "b.txt"] false None [])
      as (_ & H & _).
    apply H. reflexivity.
Defined.

End OrchestratorFacts.

(** ** Where the two stages differ *)

Module StageFacts.
Import Text Path File TextFacts FileFacts LedgerFacts.

(** The preprocess stage loads the stripped lines that hold a visible
    character and do not start with [#]. *)
Lemma preprocess_load_spec (content : string) :
  Preprocess.load content
  = List.map strip
      (List.filter (fun line => has_non_space line && negb (startswith line "#"))
         (readlines content)).
Proof.
  unfold Preprocess.load. f_equal. apply List.filter_ext.
  intros l. now rewrite truthy_strip.
Qed.

(** The transcription stage loads every stripped line that holds a
    visible character, comment or not. *)
Lemma flash_load_spec (content : string) :
  Flash.load content
  = List.map strip (List.filter has_non_space (readlines content)).
Proof.
  unfold Flash.load. f_equal. apply List.filter_ext.
  intros l. now rewrite truthy_strip.
Qed.

(** Whatever the preprocessor returns, the item it was called on is gone
    from the tracking file afterwards. *)
Lemma preprocess_removes_regardless
    (preprocess_image_for_ocr : string -> string -> bool)
    (output_folder : string) (w : Preprocess.world) (content p : string) :
  Preprocess.tracking w = Some content ->
  In p (Preprocess.to_process_of content) ->
  exists after,
    Preprocess.tracking
      (Preprocess.process_images preprocess_image_for_ocr output_folder w)
    = Some after /\
    ~ In p (Preprocess.load after).
Proof.
  intros Hw Hp. eexists.
  split; [apply PreprocessFacts.process_images_tracking; exact Hw|].
  unfold Preprocess.load. rewrite readlines_rewrite, List.in_map_iff.
  intros (l & <- & Hl). apply List.filter_In in Hl as [Hl _].
  apply List.filter_In in Hl as [_ Hk].
  apply PreprocessFacts.keeps_none_of_true in Hk. now apply Hk.
Qed.

(** The orchestrator lists a file by the ending of its lowered name, the
    preprocess stage goes by [os.path.splitext]: a file named [.png] is
    listed and never processed, and its line stays in front of the
    sentinel. *)
Lemma dot_file_is_listed_not_processed :
  Orchestrator.discover "/home" "/in" [".png"] = ["/in/.png"] /\
  Preprocess.has_valid_ext "/in/.png" = false.
Proof. split; reflexivity. Qed.

(** C10 as stated fails on a ledger that the orchestrator writes: for an
    input folder with the files [.png] and [a.png] both names are listed;
    the stage works on [/in/a.png] only, and when nothing is left for it to
    do the line [/in/.png], not the sentinel, is the first meaningful line
    of the ledger. *)
Lemma hidden_image_stays_before_sentinel :
  let content :=
    Orchestrator.write_paths (Orchestrator.discover "/home" "/in" [".png"; "a.png"])
      +:+ (Orchestrator.sentinel +:+ nl) in
  let w' :=
    Preprocess.process_images (fun _ _ => true) "/out"
      {| Preprocess.tracking := Some content;
         Preprocess.images := ∅; Preprocess.log := [] |} in
  let drained := "/in/.png" +:+ nl +:+ "$$done$$" +:+ nl in
  content = "/in/.png" +:+ nl +:+ "/in/a.png" +:+ nl +:+ "$$done$$" +:+ nl /\
  Preprocess.log w' = [Preprocess.Preprocessed "/in/a.png" "/out/a.jpeg" true] /\
  Preprocess.tracking w' = Some drained /\
  Preprocess.to_process_of drained = [] /\
  Orchestrator.first_meaningful (readlines drained) = Some "/in/.png" /\
  Orchestrator.first_meaningful (readlines drained)
    <> Some Orchestrator.sentinel.
Proof. repeat split. discriminate. Qed.

(** C1.  The preprocess stage on a ledger with one image whose
    preprocessing fails: no output image is written, and the line of the
    image is removed from the tracking file all the same. *)
Theorem preprocess_failure_drops_item :
  let w :=
    {| Preprocess.tracking := Some ("a.png" +:+ nl +:+ "$$done$$" +:+ nl);
       Preprocess.images := ∅; Preprocess.log := [] |} in
  let w' := Preprocess.process_images (fun _ _ => false) "out" w in
  Preprocess.log w' = [Preprocess.Preprocessed "a.png" "out/a.jpeg" false] /\
  Preprocess.images w' = ∅ /\
  Preprocess.tracking w' = Some ("$$done$$" +:+ nl).
Proof. repeat split. Qed.

(** C3.  The pending file that the transcription script creates holds one
    comment line.  The loader of the preprocess stage skips that line; the
    loader of the transcription stage returns it as an image path, and the
    run then warns that this image is not found and removes the comment
    from the file. *)
Theorem flash_load_reads_comments :
  Preprocess.load Flash.pending_header = [] /\
  Flash.load Flash.pending_header = ["# List image paths here, one per line"] /\
  let w := Flash.main "/repo" (fun _ _ _ => Flash.Raised None) None None ∅ in
  Flash.log w = [Flash.Warning "# List image paths here, one per line"] /\
  Flash.pending w = "".
Proof. repeat split. Qed.

End StageFacts.

(** ** Context files *)

Module ContextFileFacts.
Import Text Path File TextFacts Flash.

Lemma length_app (s t : string) :
  String.length (s +:+ t) = (String.length s + String.length t)%nat.
Proof. induction s as [|c s IH]; [reflexivity|]. rewrite sapp_cons. simpl. now rewrite IH. Qed.

Lemma app_inv_tail (s s' t : string) : s +:+ t = s' +:+ t -> s = s'.
Proof.
  revert s'. induction s as [|c s IH]; intros [|c' s'] E.
  - reflexivity.
  - exfalso. apply (f_equal String.length) in E.
    rewrite sapp_nil_l, length_app in E. simpl in E. lia.
  - exfalso. apply (f_equal String.length) in E.
    rewrite sapp_nil_l, length_app in E. simpl in E. lia.
  - rewrite !sapp_cons in E. injection E as -> E. f_equal. now apply IH.
Qed.

Lemma lower_app (s t : string) : lower (s +:+ t) = lower s +:+ lower t.
Proof. induction s as [|c s IH]; [reflexivity|]. rewrite sapp_cons. simpl. now rewrite IH, sapp_cons. Qed.

Lemma endswith_app (s suf : string) : endswith (s +:+ suf) suf = true.
Proof.
  induction s as [|c s IH].
  - rewrite sapp_nil_l. destruct suf; cbn [endswith]; now rewrite String.eqb_refl.
  - rewrite sapp_cons. cbn [endswith]. rewrite IH. apply orb_true_r.
Qed.

(** *** [rfind] and slices of a concatenation *)

Lemma rfind_bounds (c : ascii) (s : string) :
  -1 <= rfind c s < Z.of_nat (String.length s).
Proof.
  induction s as [|a s IH]; simpl; [lia|].
  destruct (0 <=? rfind c s) eqn:E; [lia|].
  destruct (Ascii.eqb a c); lia.
Qed.

Lemma rfind_app_found (c : ascii) (s t : string) :
  0 <= rfind c t -> rfind c (s +:+ t) = Z.of_nat (String.length s) + rfind c t.
Proof.
  intros Ht. induction s as [|a s IH]; [simpl; rewrite sapp_nil_l; lia|].
  rewrite sapp_cons. simpl rfind. rewrite IH.
  destruct (0 <=? _) eqn:E; [simpl String.length; lia|].
  apply Z.leb_gt in E. lia.
Qed.

Lemma rfind_app_none (c : ascii) (s t : string) :
  rfind c t = -1 -> rfind c (s +:+ t) = rfind c s.
Proof.
  intros Ht. induction s as [|a s IH]; [now rewrite sapp_nil_l|].
  rewrite sapp_cons. simpl. now rewrite IH.
Qed.

Lemma take_app (s t : string) (n : nat) :
  take (String.length s + n) (s +:+ t) = s +:+ take n t.
Proof. induction s as [|c s IH]; [reflexivity|]. rewrite !sapp_cons. simpl. now rewrite IH. Qed.

Lemma drop_app (s t : string) (n : nat) :
  drop (String.length s + n) (s +:+ t) = drop n t.
Proof. induction s as [|c s IH]; [reflexivity|]. rewrite sapp_cons. simpl. exact IH. Qed.

Lemma splitext_loop_found (dotIndex : Z) (p : string) (j : Z) (n : nat) :
  forall i : Z,
  i <= j < i + Z.of_nat n ->
  String.eqb (take 1 (from j p)) "." = false ->
  splitext_loop n i dotIndex p = Some (upto dotIndex p, from dotIndex p).
Proof.
  induction n as [|n IH]; intros i Hj Hchar; [lia|].
  cbn [splitext_loop].
  destruct (String.eqb (take 1 (from i p)) ".") eqn:E; [|reflexivity].
  cbn [negb]. apply IH; [|exact Hchar].
  assert (i <> j) by (intros ->; congruence). lia.
Qed.

(** [os.path.splitext] of a file name that follows the convention. *)
Lemma splitext_context (b : string) :
  splitext (b +:+ "_context.txt") = (b +:+ "_context", ".txt").
Proof.
  unfold splitext.
  rewrite (rfind_app_found "." b "_context.txt") by (vm_compute; discriminate).
  rewrite (rfind_app_none "/" b "_context.txt") by reflexivity.
  change (rfind "." "_context.txt") with 8.
  pose proof (rfind_bounds "/" b) as Hsep.
  set (n := String.length b) in *. set (sep := rfind "/" b) in *.
  destruct (sep <? Z.of_nat n + 8) eqn:E; [|apply Z.ltb_ge in E; lia].
  rewrite (splitext_loop_found _ _ (Z.of_nat n)).
  - unfold upto, from. replace (Z.to_nat (Z.of_nat n + 8)) with (n + 8)%nat by lia.
    unfold n. rewrite take_app, drop_app. reflexivity.
  - lia.
  - unfold from. rewrite Nat2Z.id. replace n with (n + 0)%nat by lia.
    unfold n. rewrite drop_app. reflexivity.
Qed.

(** *** Removing ["_context"] from the stem *)

(** ["_context"] does not overlap itself: in front of it, a text that is
    not empty starts with ["_context"] only on its own account. *)
Lemma startswith_before_context (b : string) :
  b <> "" ->
  startswith (b +:+ "_context") "_context" = startswith b "_context".
Proof.
  intros Hb.
  do 8 (destruct b as [|? b];
        [first [congruence
               |cbn; repeat match goal with
                            | |- context [Ascii.eqb ?a ?x] =>
                                is_var x; destruct (Ascii.eqb a x)
                            end; reflexivity]
        |]).
  reflexivity.
Qed.

Lemma replace_context_suffix (b : string) :
  occurs "_context" b = false ->
  replace "_context" "" (b +:+ "_context") = b.
Proof.
  unfold replace. induction b as [|c b IH]; intros Hocc; [reflexivity|].
  cbn [occurs] in Hocc. apply orb_false_iff in Hocc as [Hhead Htail].
  rewrite sapp_cons. cbn [replace_go]. rewrite <- sapp_cons.
  rewrite startswith_before_context by discriminate. rewrite Hhead.
  f_equal. now apply IH.
Qed.

(** A file named after an image, [<basename>_context.txt], is an
    individual context file with the basename as its key. *)
Lemma convention_key (b : string) :
  occurs "_context" b = false ->
  lower b <> "all_document" ->
  is_individual_context_file (b +:+ "_context.txt") = true /\
  context_key (b +:+ "_context.txt") = b.
Proof.
  intros Hocc Hglobal. split.
  - unfold is_individual_context_file. rewrite lower_app.
    change (lower "_context.txt") with "_context.txt".
    rewrite endswith_app. cbn [andb]. apply eqb_neq_true.
    change "all_document_context.txt" with ("all_document" +:+ "_context.txt").
    intros E. now apply app_inv_tail in E.
  - unfold context_key. rewrite splitext_context. cbn [fst].
    now apply replace_context_suffix.
Qed.

(** *** The mapping *)

Lemma fold_context_lookup (key : string) (d : list (string * string)) :
  forall m : gmap string string,
  fold_left (fun m e => <[ context_key e.1 := strip e.2 ]> m)
            (individual_context_files d) m !! key
  = match last_context_for key d with
    | Some t => Some t
    | None => m !! key
    end.
Proof.
  unfold individual_context_files.
  induction d as [|[f text] d IH]; intros m; [reflexivity|].
  cbn [List.filter last_context_for fst].
  destruct (is_individual_context_file f) eqn:Hf; cbn [fold_left fst snd andb].
  - rewrite IH. destruct (last_context_for key d); [reflexivity|].
    destruct (String.eqb (context_key f) key) eqn:E.
    + apply String.eqb_eq in E. subst key. apply lookup_insert_eq.
    + apply String.eqb_neq in E. now apply lookup_insert_ne.
  - rewrite IH. now destruct (last_context_for key d).
Qed.

Lemma context_mapping_lookup (key : string) (d : list (string * string)) :
  load_context_mapping (Some d) !! key = last_context_for key d.
Proof.
  unfold load_context_mapping. rewrite fold_context_lookup.
  now destruct (last_context_for key d).
Qed.

Lemma last_context_Some (key v : string) (d : list (string * string)) :
  last_context_for key d = Some v ->
  exists f text, In (f, text) d /\ is_individual_context_file f = true /\
                 context_key f = key /\ v = strip text.
Proof.
  induction d as [|[f text] d IH]; [discriminate|].
  cbn [last_context_for]. destruct (last_context_for key d) as [t|].
  - intros [= <-]. destruct (IH eq_refl) as (f' & t' & Hin & H).
    exists f', t'. split; [now right|exact H].
  - destruct (is_individual_context_file f) eqn:Hf; [|discriminate].
    destruct (String.eqb (context_key f) key) eqn:E; [|discriminate].
    intros [= <-]. apply String.eqb_eq in E.
    exists f, text. split; [now left|auto].
Qed.

Lemma last_context_None (key : string) (d : list (string * string)) :
  last_context_for key d = None <->
  (forall f text, In (f, text) d -> is_individual_context_file f = true ->
                  context_key f <> key).
Proof.
  induction d as [|[f text] d IH]; [split; [intros _ ? ? []|reflexivity]|].
  cbn [last_context_for]. destruct (last_context_for key d) as [t|] eqn:Hd.
  - split; [discriminate|]. intros H. exfalso.
    destruct (last_context_Some key t d Hd) as (f' & t' & Hin & Hind & Hk & _).
    apply (H f' t'); [now right|exact Hind|exact Hk].
  - destruct IH as [IH1 _]. specialize (IH1 eq_refl).
    destruct (is_individual_context_file f) eqn:Hf; cbn [andb].
    + destruct (String.eqb (context_key f) key) eqn:E.
      * apply String.eqb_eq in E. split; [discriminate|].
        intros H. exfalso. apply (H f text); [now left|exact Hf|exact E].
      * apply String.eqb_neq in E. split; [|reflexivity].
        intros _ f' t' [[= <- <-]|Hin] Hind; [exact E|eauto].
    + split; [|reflexivity].
      intros _ f' t' [[= <- <-]|Hin] Hind; [congruence|eauto].
Qed.

(** C8 as stated fails: with the context file [img1_context.txt] in the
    folder, the image [IMG1], whose basename differs from [img1] in letter
    case only, gets the bare base prompt, while the image [img1] gets the
    context. *)
Lemma case_variant_gets_no_context :
  let ctx := Some [("img1_context.txt", "X")] in
  let m := load_context_mapping ctx in
  is_individual_context_file "img1_context.txt" = true /\
  lower "IMG1" = lower (context_key "img1_context.txt") /\
  m !! "IMG1" = None /\
  compose_prompt (load_global_context ctx) m "IMG1" = base_prompt /\
  compose_prompt (load_global_context ctx) m "IMG1"
    <> "Given the context: X" +:+ nl +:+ base_prompt /\
  compose_prompt (load_global_context ctx) m "img1"
    = "Given the context: X" +:+ nl +:+ base_prompt.
Proof. vm_compute. repeat split. discriminate. Qed.

Lemma convention_individual (b : string) :
  lower b <> "all_document" ->
  is_individual_context_file (b +:+ "_context.txt") = true.
Proof.
  intros Hglobal. unfold is_individual_context_file. rewrite lower_app.
  change (lower "_context.txt") with "_context.txt".
  rewrite endswith_app. cbn [andb]. apply eqb_neq_true.
  change "all_document_context.txt" with ("all_document" +:+ "_context.txt").
  intros E. now apply app_inv_tail in E.
Qed.

Lemma individual_not_global (b : string) :
  is_individual_context_file (b +:+ "_context.txt") = true ->
  lower b <> "all_document".
Proof.
  unfold is_individual_context_file. rewrite lower_app.
  change (lower "_context.txt") with "_context.txt".
  intros H E. rewrite E in H. apply andb_true_iff in H as [_ H].
  discriminate.
Qed.

(** A directory holds one text per name. *)
Lemma one_text_per_name (d : list (string * string)) (f t t' : string) :
  NoDup (List.map fst d) -> In (f, t) d -> In (f, t') d -> t = t'.
Proof.
  induction d as [|[g u] d IH]; intros Hnd Ht Ht'; [contradiction|].
  cbn [List.map fst] in Hnd. apply NoDup_cons in Hnd as [Hg Hnd].
  assert (Hname : forall v, In (g, v) d -> False).
  { intros v Hv. apply Hg. apply list_elem_of_In.
    change g with (fst (g, v)). now apply List.in_map. }
  destruct Ht as [E|Ht], Ht' as [E'|Ht'].
  - congruence.
  - exfalso. injection E as -> _. eauto.
  - exfalso. injection E' as -> _. eauto.
  - auto.
Qed.

(** C8, amended.  In a context folder whose per-item context files, the
    files that the loader takes up, are all named [<basename>_context.txt]
    with that ending in lower case and a [<basename>] that does not
    contain ["_context"], the image is matched exactly, character by
    character.  An image whose basename is the [<basename>] of a file of
    the folder (other than the global context file) has the stripped text
    of that file as its individual context, and when that text is not
    empty the prompt is "Given the context: ", the global context and a
    line break if there is a global context, the text, a line break and
    the base prompt.  An image for whose basename the folder has no file
    [<basename>_context.txt] has no individual context, however close
    another file name comes in letter case. *)
Theorem context_match_is_exact
    (d : list (string * string)) (G image_basename : string) :
  NoDup (List.map fst d) ->
  (forall f t, In (f, t) d -> is_individual_context_file f = true ->
     exists b, f = b +:+ "_context.txt" /\ occurs "_context" b = false) ->
  let m := load_context_mapping (Some d) in
  (forall text,
     In (image_basename +:+ "_context.txt", text) d ->
     lower image_basename <> "all_document" ->
     m !! image_basename = Some (strip text) /\
     (strip text <> "" ->
      compose_prompt G m image_basename
      = "Given the context: "
          +:+ (if truthy G then G +:+ nl +:+ strip text else strip text)
          +:+ nl +:+ base_prompt)) /\
  ((forall text, ~ In (image_basename +:+ "_context.txt", text) d) ->
   m !! image_basename = None /\
   compose_prompt G m image_basename = compose_prompt G ∅ image_basename).
Proof.
  intros Hnames Hconv m.
  assert (Hm : m !! image_basename = last_context_for image_basename d)
    by apply context_mapping_lookup.
  assert (Hkey : forall f t, In (f, t) d -> is_individual_context_file f = true ->
            f = context_key f +:+ "_context.txt").
  { intros f t Hin Hind. destruct (Hconv f t Hin Hind) as (b & -> & Hocc).
    pose proof (individual_not_global b Hind) as Hglobal.
    now destruct (convention_key b Hocc Hglobal) as [_ ->]. }
  split.
  - intros text Hin Hglobal.
    pose proof (convention_individual image_basename Hglobal) as Hind.
    pose proof (Hkey _ _ Hin Hind) as Hself. apply app_inv_tail in Hself.
    assert (Hlast : last_context_for image_basename d = Some (strip text)).
    { destruct (last_context_for image_basename d) as [v|] eqn:E.
      - destruct (last_context_Some _ _ _ E) as (f & t & Hf & Hi & Hk & ->).
        pose proof (Hkey f t Hf Hi) as Hname. rewrite Hk in Hname. subst f.
        f_equal. f_equal. exact (one_text_per_name d _ _ _ Hnames Hf Hin).
      - exfalso. rewrite last_context_None in E.
        now apply (E _ _ Hin Hind). }
    rewrite Hm, Hlast. split; [reflexivity|]. intros Htext.
    unfold compose_prompt, compose_with. rewrite Hm, Hlast.
    apply truthy_true in Htext.
    destruct (truthy G) eqn:HG.
    + destruct G as [|g G']; [discriminate|].
      rewrite (sapp_cons g G'). cbn [truthy]. reflexivity.
    + cbn [truthy]. now rewrite Htext.
  - intros Hnone.
    assert (Hlast : last_context_for image_basename d = None).
    { apply last_context_None. intros f t Hin Hind Hk.
      pose proof (Hkey f t Hin Hind) as Hname. rewrite Hk in Hname. subst f.
      exact (Hnone t Hin). }
    rewrite Hm, Hlast. split; [reflexivity|].
    unfold compose_prompt, compose_with. now rewrite Hm, Hlast, lookup_empty.
Qed.

Lemma context_match_is_exact_witness :
  let d := [("ALL_DOCUMENT_CONTEXT.txt", "G"); ("img1_context.txt", " X" +:+ nl);
            ("notes.md", "n")] in
  compose_prompt (load_global_context (Some d)) (load_context_mapping (Some d)) "img1"
  = "Given the context: G" +:+ nl +:+ "X" +:+ nl +:+ base_prompt /\
  load_context_mapping (Some d) !! "IMG1" = None.
Proof.
  intros d.
  assert (Hnames : NoDup (List.map fst d)).
  { repeat (apply NoDup_cons; split;
            [intros H; apply list_elem_of_In in H; simpl in H;
             intuition discriminate|]).
    apply NoDup_nil. exact I. }
  assert (Hconv : forall f t, In (f, t) d -> is_individual_context_file f = true ->
            exists b, f = b +:+ "_context.txt" /\ occurs "_context" b = false).
  { intros f t [[= <- <-]|[[= <- <-]|[[= <- <-]|[]]]] Hind;
      try (vm_compute in Hind; discriminate).
    exists "img1". split; reflexivity. }
  split.
  - destruct (context_match_is_exact d "G" "img1" Hnames Hconv) as [H _].
    destruct (H (" X" +:+ nl)) as [_ Hprompt].
    + right. now left.
    + vm_compute. discriminate.
    + apply Hprompt. vm_compute. discriminate.
  - destruct (context_match_is_exact d "G" "IMG1" Hnames Hconv) as [_ H].
    apply H. intros text [[=]|[[=]|[[=]|[]]]].
Defined.

End ContextFileFacts.

(** ** The theorems at work on small runs *)

Module Runs.
Import Text Path File Flash.

Lemma backoff_schedule_witness :
  timeline (log (retry_loop silent MAX_RETRIES RETRY_DELAY MAX_RETRIES 0
                   "a.png" "prompt" "/out/a.txt" (fresh "a.png")).2)
  = [Try 0; Wait 5; Try 1; Wait 15; Try 2].
Proof.
  destruct (FlashFacts.backoff_schedule silent "a.png" "prompt" "/out/a.txt"
              (fresh "a.png")) as (_ & new & Hlog & _ & Hfail).
  rewrite Hlog. apply Hfail. reflexivity.
Defined.

Lemma empty_artifact_is_retried_witness :
  let w := {| pending := "a.png" +:+ nl; files := {[ "a.png" := "image" ]};
              requests := 0; log := [] |} in
  let w' := process_one "/repo" slow_start "" ∅ w "a.png" in
  pending w' = "" /\ requests w' = 2%nat /\
  files w' !! "/repo/TranscriptionOutputGemini/a.txt" = Some "text".
Proof.
  intros w w'.
  destruct (FlashFacts.empty_artifact_is_retried "/repo" slow_start) as [_ H].
  destruct (H "" ∅ w "a.png") as (_ & Hretry).
  - exists "image". reflexivity.
  - destruct (Hretry eq_refl) as [Hgood _].
    destruct (Hgood "text" eq_refl) as (Hp & Hq & Hf).
    + discriminate.
    + split; [exact Hp|]. split; [exact Hq|exact Hf].
Defined.

Lemma missing_item_is_dropped_witness :
  let w := main "/repo" silent (Some ("missing.png" +:+ nl)) None ∅ in
  load (pending w) = [] /\ requests w = 0%nat /\ timeline (log w) = [].
Proof.
  destruct (FlashFacts.missing_item_is_dropped "/repo" silent) as [_ H].
  destruct (H (Some ("missing.png" +:+ nl)) None ∅) as (Hl & Hr & _ & _ & Ht).
  - intros item _. apply lookup_empty.
  - auto.
Defined.

Lemma preprocess_touches_only_valid_exts_witness :
  exists after,
    Preprocess.tracking
      (Preprocess.process_images (fun _ _ => true) "out"
         {| Preprocess.tracking := Some sample_ledger;
            Preprocess.images := ∅; Preprocess.log := [] |})
    = Some after /\
    Orchestrator.first_meaningful (readlines after) = Some Orchestrator.sentinel.
Proof.
  destruct (PreprocessFacts.preprocess_touches_only_valid_exts
              (fun _ _ => true) "out"
              {| Preprocess.tracking := Some sample_ledger;
                 Preprocess.images := ∅; Preprocess.log := [] |}
              sample_ledger eq_refl)
    as (_ & after & Ht & _ & _ & _ & _ & Hfirst & _).
  exists after. split; [exact Ht|].
  apply (Hfirst ["a.png" +:+ nl; "# note" +:+ nl; nl; "  b.JPG " +:+ nl]
                ("$$done$$" +:+ nl) []).
  - reflexivity.
  - reflexivity.
  - intros l [<-|[<-|[<-|[<-|[]]]]]; vm_compute; auto.
Defined.

End Runs.

(** ** More on the ledgers *)

Module LedgerOps.
Import Text Path File TextFacts FileFacts LedgerFacts.

(** X1.  Removing an item that no line of the tracking file strips to writes
    the file back as it was, character by character. *)
Theorem update_absent_item_is_identity (content item : string) :
  (forall line, In line (readlines content) -> strip line <> item) ->
  Preprocess.update_tracking_file (Some content) item = Some content.
Proof.
  intros Habsent. unfold Preprocess.update_tracking_file. f_equal.
  rewrite filter_true; [apply write_readlines|].
  intros line Hin. apply eqb_neq_true. now apply Habsent.
Qed.

Lemma update_absent_item_is_identity_witness :
  Preprocess.update_tracking_file (Some sample_ledger) "c.png" = Some sample_ledger.
Proof.
  apply update_absent_item_is_identity.
  intros line Hin. vm_compute in Hin.
  destruct Hin as [<-|[<-|[<-|[<-|[<-|[]]]]]]; vm_compute; discriminate.
Defined.

(** X2.  Removals commute, for a tracking file that exists or not: the file
    left by removing two items does not depend on which went first. *)
Theorem update_tracking_file_commutes
    (tracking_file : option string) (a b : string) :
  Preprocess.update_tracking_file (Preprocess.update_tracking_file tracking_file a) b
  = Preprocess.update_tracking_file (Preprocess.update_tracking_file tracking_file b) a.
Proof.
  destruct tracking_file as [content|]; [|reflexivity].
  rewrite !update_tracking_file_eq. f_equal.
  unfold Flash.remove_from_pending at 1 3.
  rewrite !remove_from_pending_lines, !filter_filter. f_equal.
  apply List.filter_ext. intros l. apply andb_comm.
Qed.

(** X3.  Removing an item a second time changes nothing. *)
Theorem update_tracking_file_idempotent
    (tracking_file : option string) (item : string) :
  Preprocess.update_tracking_file
    (Preprocess.update_tracking_file tracking_file item) item
  = Preprocess.update_tracking_file tracking_file item.
Proof.
  destruct tracking_file as [content|]; [|reflexivity].
  rewrite !update_tracking_file_eq. f_equal.
  unfold Flash.remove_from_pending at 1.
  rewrite remove_from_pending_lines, filter_filter.
  unfold Flash.remove_from_pending. f_equal.
  apply List.filter_ext. intros l. apply andb_diag.
Qed.

End LedgerOps.

(** ** More on the preprocess stage *)

Module PreprocessRuns.
Import Text Path File TextFacts FileFacts LedgerFacts Preprocess PreprocessFacts.

Section Runner.

Variable preprocess_image_for_ocr : string -> string -> bool.
Variable output_folder : string.

(** The output image of an item and the call the stage makes for it. *)
Let output_of (image_path : string) : string :=
  join output_folder ((splitext (basename image_path)).1 +:+ ".jpeg").

Let call_of (image_path : string) : event :=
  Preprocessed image_path (output_of image_path)
    (preprocess_image_for_ocr image_path (output_of image_path)).

Lemma fold_calls (items : list string) (w : world) :
  log (fold_left (process_one preprocess_image_for_ocr output_folder) items w)
  = log w ++ List.map call_of items.
Proof.
  revert w. induction items as [|i items IH]; intros w.
  - simpl. now rewrite app_nil_r.
  - cbn [fold_left List.map]. rewrite IH. unfold process_one. cbn [log].
    now rewrite <- app_assoc.
Qed.

Lemma fold_images (items : list string) (w : world) (o : string) :
  o ∈ images (fold_left (process_one preprocess_image_for_ocr output_folder) items w)
  <-> o ∈ images w \/
      exists p, In p items /\ o = output_of p /\
                preprocess_image_for_ocr p (output_of p) = true.
Proof.
  revert w. induction items as [|i items IH]; intros w.
  - simpl. split; [auto|]. intros [H|(p & [] & _)]. exact H.
  - cbn [fold_left]. rewrite IH. unfold process_one. cbn [images].
    fold (output_of i).
    destruct (preprocess_image_for_ocr i (output_of i)) eqn:Hok.
    + rewrite elem_of_union, elem_of_singleton. split.
      * intros [[->|H]|(p & Hp & H)]; [right; exists i; simpl; auto|auto|].
        right. exists p. simpl. tauto.
      * intros [H|(p & [<-|Hp] & -> & H)]; [auto|auto|].
        right. exists p. auto.
    + split.
      * intros [H|(p & Hp & H)]; [auto|]. right. exists p. simpl. tauto.
      * intros [H|(p & [<-|Hp] & -> & H)]; [auto|congruence|].
        right. exists p. auto.
Qed.

(** X4.  The stage calls the preprocessor exactly once for each loaded line
    with a valid extension, in the order of the tracking file and as often
    as the path is listed; the output image of a call is
    [<output_folder>/<stem>.jpeg], and the images written are those of the
    calls that returned true. *)
Theorem one_call_per_listed_image (w : world) (content : string) :
  tracking w = Some content ->
  let w' := process_images preprocess_image_for_ocr output_folder w in
  log w' = log w ++
    List.map (fun p =>
                let o := join output_folder
                           ((splitext (basename p)).1 +:+ ".jpeg") in
                Preprocessed p o (preprocess_image_for_ocr p o))
             (List.filter has_valid_ext (load content)) /\
  forall o, o ∈ images w' <->
    o ∈ images w \/
    exists p, In p (load content) /\ has_valid_ext p = true /\
      o = join output_folder ((splitext (basename p)).1 +:+ ".jpeg") /\
      preprocess_image_for_ocr p o = true.
Proof.
  intros Hw w'. unfold w', process_images. rewrite Hw.
  fold (to_process_of content).
  destruct (to_process_of content) as [|p ps] eqn:E.
  - split; [now rewrite app_nil_r|].
    intros o. split; [auto|]. intros [H|(q & Hq & Hv & _)]; [exact H|].
    exfalso. assert (In q (to_process_of content)) by now apply to_process_In.
    rewrite E in *. contradiction.
  - rewrite <- E. split; [apply fold_calls|].
    intros o. rewrite fold_images. split.
    + intros [H|(q & Hq & -> & Hok)]; [auto|].
      apply to_process_In in Hq as [Hq Hv]. right. exists q. auto.
    + intros [H|(q & Hq & Hv & -> & Hok)]; [auto|].
      right. exists q. split; [now apply to_process_In|auto].
Qed.

(** After a run, nothing is left for the stage to do. *)
Lemma to_process_after_run (content : string) :
  to_process_of
    (write_lines (List.filter (keeps_none_of (to_process_of content))
                              (readlines content))) = [].
Proof.
  unfold to_process_of at 1, load. rewrite readlines_rewrite.
  apply FlashFacts.filter_none. intros p Hp.
  apply List.in_map_iff in Hp as (l & <- & Hl).
  apply List.filter_In in Hl as [Hl Hload].
  apply List.filter_In in Hl as [Hin Hkeep].
  destruct (has_valid_ext (strip l)) eqn:Hv; [|reflexivity].
  exfalso. apply keeps_none_of_true in Hkeep. apply Hkeep, to_process_In.
  split; [|exact Hv]. unfold load. apply List.in_map, List.filter_In. auto.
Qed.

(** X5.  Running the stage again right after a run is a no-op: no call, no
    image, and the tracking file stays as the first run left it. *)
Theorem process_images_twice (w : world) :
  process_images preprocess_image_for_ocr output_folder
    (process_images preprocess_image_for_ocr output_folder w)
  = process_images preprocess_image_for_ocr output_folder w.
Proof.
  destruct (tracking w) as [content|] eqn:Hw.
  - pose proof (process_images_tracking preprocess_image_for_ocr output_folder
                  w content Hw) as Ht.
    set (w' := process_images preprocess_image_for_ocr output_folder w) in *.
    unfold process_images at 1. rewrite Ht, to_process_after_run. reflexivity.
  - unfold process_images. now rewrite Hw, Hw.
Qed.

End Runner.

Lemma one_call_per_listed_image_witness :
  log (process_images (fun _ _ => true) "out"
         {| tracking := Some sample_ledger; images := ∅; log := [] |})
  = [Preprocessed "a.png" "out/a.jpeg" true; Preprocessed "b.JPG" "out/b.jpeg" true].
Proof.
  destruct (one_call_per_listed_image (fun _ _ => true) "out"
              {| tracking := Some sample_ledger; images := ∅; log := [] |}
              sample_ledger eq_refl) as [Hlog _].
  rewrite Hlog. reflexivity.
Defined.

End PreprocessRuns.

(** ** Paths: [normpath], [abspath] and what a text file gives back *)

Module OrchestratorPaths.
Import Text Path File TextFacts FileFacts ContextFileFacts Orchestrator.

Lemma endswith_split (s suf : string) :
  endswith s suf = true -> exists a, s = a +:+ suf.
Proof.
  induction s as [|c s IH]; cbn [endswith]; intros H.
  - rewrite orb_false_r in H. apply String.eqb_eq in H. exists "". now subst.
  - apply orb_true_iff in H as [H|H].
    + apply String.eqb_eq in H. exists "". now subst.
    + destruct (IH H) as (a & ->). now exists (String c a).
Qed.

Lemma rfind_none_cons (c a : ascii) (s : string) :
  rfind c (String a s) = -1 <-> Ascii.eqb a c = false /\ rfind c s = -1.
Proof.
  pose proof (rfind_bounds c s) as Hb. simpl.
  destruct (0 <=? rfind c s) eqn:E.
  - apply Z.leb_le in E. split; [lia|]. intros [_ H]. lia.
  - apply Z.leb_gt in E. destruct (Ascii.eqb a c).
    + split; [lia|]. intros [H _]. discriminate.
    + split; [|reflexivity]. intros _. split; [reflexivity|lia].
Qed.

Lemma length_lower (s : string) : String.length (lower s) = String.length s.
Proof. induction s as [|a s IH]; [reflexivity|]. simpl. now rewrite IH. Qed.

(** *** Line ends *)

Lemma no_line_end_app (s t : string) :
  no_line_end (s +:+ t) = no_line_end s && no_line_end t.
Proof.
  induction s as [|c s IH]; [reflexivity|].
  rewrite sapp_cons. simpl. rewrite IH. now rewrite andb_assoc.
Qed.

Lemma no_cr_app (s t : string) : no_cr (s +:+ t) = no_cr s && no_cr t.
Proof.
  induction s as [|c s IH]; [reflexivity|].
  rewrite sapp_cons. simpl. rewrite IH. now rewrite andb_assoc.
Qed.

Lemma no_line_end_parts (s : string) :
  no_line_end s = true -> no_newline s = true /\ no_cr s = true.
Proof.
  induction s as [|c s IH]; [auto|]. simpl.
  rewrite !andb_true_iff. intros [[Hn Hc] Hs]. destruct (IH Hs) as [-> ->].
  now rewrite Hn, Hc.
Qed.

(** A text without a carriage return is read as it was written. *)
Lemma read_text_no_cr (raw : string) : no_cr raw = true -> read_text raw = raw.
Proof.
  induction raw as [|c raw IH]; [reflexivity|].
  simpl no_cr. rewrite andb_true_iff, negb_true_iff. intros [Hc Hraw].
  cbn [read_text]. rewrite Hc. f_equal. now apply IH.
Qed.

(** What [read_text] returns holds no carriage return, and reading it once
    more changes nothing. *)
Lemma read_text_clean (raw : string) : no_cr (read_text raw) = true.
Proof.
  assert (H : forall n raw, (String.length raw <= n)%nat ->
                no_cr (read_text raw) = true).
  { clear raw. induction n as [|n IH]; intros [|c raw] Hlen; try reflexivity;
      simpl in Hlen; [lia|].
    cbn [read_text]. destruct (Ascii.eqb c cr) eqn:Hc.
    - destruct raw as [|d raw]; [reflexivity|].
      cbn [no_cr]. change (Ascii.eqb newline cr) with false. cbn [negb andb].
      destruct (Ascii.eqb d newline); apply IH; simpl in *; lia.
    - cbn [no_cr]. rewrite Hc. cbn [negb andb]. apply IH. lia. }
  now apply (H (String.length raw)).
Qed.

Lemma read_text_idem (raw : string) : read_text (read_text raw) = read_text raw.
Proof. apply read_text_no_cr, read_text_clean. Qed.

Lemma no_cr_write_paths (paths : list string) :
  Forall (fun p => no_cr p = true) paths ->
  no_cr (write_paths paths) = true.
Proof.
  induction 1 as [|p paths Hp _ IH]; [reflexivity|].
  cbn [write_paths]. rewrite !no_cr_app, Hp, IH. reflexivity.
Qed.

(** *** [split] and [join] on the separator *)

Lemma split_sep_nonempty (path : string) : split_sep path <> [].
Proof.
  destruct path as [|c path]; simpl; [discriminate|].
  destruct (Ascii.eqb c "/"); [discriminate|].
  destruct (split_sep path); discriminate.
Qed.

Lemma split_sep_app (x y : string) :
  split_sep (x +:+ "/" +:+ y) = split_sep x ++ split_sep y.
Proof.
  induction x as [|c x IH]; [reflexivity|].
  rewrite sapp_cons. cbn [split_sep]. rewrite IH.
  destruct (Ascii.eqb c "/"); [reflexivity|].
  destruct (split_sep x) as [|h t] eqn:E; [|reflexivity].
  now apply split_sep_nonempty in E.
Qed.

Lemma split_sep_plain (f : string) : rfind "/" f = -1 -> split_sep f = [f].
Proof.
  induction f as [|c f IH]; [reflexivity|]. intros H.
  apply rfind_none_cons in H as [Hc Hf].
  cbn [split_sep]. now rewrite Hc, (IH Hf).
Qed.

Lemma join_sep_snoc (comps : list string) (f : string) :
  join_sep (comps ++ [f])
  = match comps with
    | [] => f
    | _ => join_sep comps +:+ "/" +:+ f
    end.
Proof.
  induction comps as [|a comps IH]; [reflexivity|].
  destruct comps as [|b comps]; [reflexivity|].
  change (join_sep ((a :: b :: comps) ++ [f]))
    with (a +:+ "/" +:+ join_sep ((b :: comps) ++ [f])).
  rewrite IH.
  change (join_sep (a :: b :: comps)) with (a +:+ "/" +:+ join_sep (b :: comps)).
  now rewrite !sapp_assoc.
Qed.

Lemma split_sep_no_line_end (path : string) :
  no_line_end path = true ->
  Forall (fun comp => no_line_end comp = true) (split_sep path).
Proof.
  induction path as [|c path IH]; [repeat constructor|].
  simpl no_line_end. rewrite andb_true_iff. intros [Hc Hpath].
  specialize (IH Hpath). cbn [split_sep].
  destruct (Ascii.eqb c "/"); [now constructor|].
  destruct (split_sep path) as [|h t]; [repeat constructor; simpl; now rewrite Hc|].
  inversion IH; subst. constructor; [|assumption]. simpl. now rewrite Hc.
Qed.

Lemma join_sep_no_line_end (comps : list string) :
  Forall (fun comp => no_line_end comp = true) comps ->
  no_line_end (join_sep comps) = true.
Proof.
  induction 1 as [|a comps Ha Hcomps IH]; [reflexivity|].
  destruct comps as [|b comps]; [exact Ha|].
  change (join_sep (a :: b :: comps)) with (a +:+ "/" +:+ join_sep (b :: comps)).
  now rewrite !no_line_end_app, Ha, IH.
Qed.

Lemma slashes_no_line_end (n : nat) : no_line_end (slashes n) = true.
Proof. induction n as [|n IH]; [reflexivity|]. simpl. exact IH. Qed.

(** *** [normpath] *)

Lemma Forall_removelast {A} (P : A -> Prop) (l : list A) :
  Forall P l -> Forall P (removelast l).
Proof.
  induction 1 as [|x l Hx Hl IH]; [constructor|].
  simpl. destruct l; [constructor|]. now constructor.
Qed.

(** The components [normpath] keeps are components of the path. *)
Lemma normpath_comps (P : string -> Prop) (i : nat) (comps : list string) :
  forall new_comps,
    Forall P new_comps -> Forall P comps ->
    Forall P (fold_left (normpath_step i) comps new_comps).
Proof.
  induction comps as [|comp comps IH]; intros new_comps Hnew Hcomps; [exact Hnew|].
  inversion Hcomps; subst. cbn [fold_left]. apply IH; [|assumption].
  unfold normpath_step.
  destruct (String.eqb comp "" || String.eqb comp "."); [exact Hnew|].
  match goal with |- Forall P (if ?b then _ else _) => destruct b end.
  - apply Forall_app. split; [exact Hnew|]. now constructor.
  - now apply Forall_removelast.
Qed.

(** A name as [os.listdir] gives it is a component that stays. *)
Lemma normpath_step_name (i : nat) (new_comps : list string) (f : string) :
  f <> "" -> f <> "." -> f <> ".." ->
  normpath_step i new_comps f = new_comps ++ [f].
Proof.
  intros H0 H1 H2. apply String.eqb_neq in H0, H1, H2.
  unfold normpath_step. now rewrite H0, H1, H2.
Qed.

Lemma truthy_app_r (s t : string) : t <> "" -> truthy (s +:+ t) = true.
Proof.
  intros Ht. destruct s as [|c s]; [|reflexivity].
  rewrite sapp_nil_l. now apply truthy_true.
Qed.

Lemma app_nonempty_r (s t : string) : t <> "" -> s +:+ t <> "".
Proof. intros Ht E. apply (truthy_app_r s) in Ht. rewrite E in Ht. discriminate. Qed.

(** [normpath] of a path that ends in such a name: the name stays the last
    component. *)
Lemma normpath_last (P f : string) :
  rfind "/" f = -1 -> f <> "" -> f <> "." -> f <> ".." ->
  let i := initial_slashes (P +:+ "/" +:+ f) in
  let comps := fold_left (normpath_step i) (split_sep P) [] in
  normpath (P +:+ "/" +:+ f)
  = slashes i +:+ match comps with
                  | [] => f
                  | _ => join_sep comps +:+ "/" +:+ f
                  end.
Proof.
  intros Hplain H0 H1 H2 i comps. unfold normpath.
  assert (Hne : String.eqb (P +:+ "/" +:+ f) "" = false)
    by (apply String.eqb_neq, app_nonempty_r; discriminate).
  rewrite Hne. fold i.
  rewrite split_sep_app, (split_sep_plain f Hplain), fold_left_app.
  cbn [fold_left]. fold comps.
  rewrite normpath_step_name by assumption. rewrite join_sep_snoc.
  rewrite truthy_app_r; [reflexivity|].
  destruct comps; [exact H0|]. apply app_nonempty_r. discriminate.
Qed.

Lemma initial_slashes_absolute (path : string) :
  startswith path "/" = true ->
  initial_slashes path = 1%nat \/ initial_slashes path = 2%nat.
Proof.
  intros H. unfold initial_slashes. rewrite H.
  destruct (startswith path "//" && negb (startswith path "///")); auto.
Qed.

(** [normpath] of an absolute path is absolute. *)
Lemma normpath_absolute (path : string) :
  startswith path "/" = true -> exists t, normpath path = String "/" t.
Proof.
  intros H. unfold normpath.
  destruct (String.eqb path "") eqn:E;
    [apply String.eqb_eq in E; subst; discriminate|].
  destruct (initial_slashes_absolute path H) as [-> | ->]; cbn [slashes];
    rewrite !sapp_cons; cbn [truthy]; eauto.
Qed.

(** [normpath] of an absolute path that ends in a listed name is some
    folder, a slash and the name. *)
Lemma normpath_absolute_last (P f : string) :
  rfind "/" f = -1 -> f <> "" -> f <> "." -> f <> ".." ->
  startswith (P +:+ "/" +:+ f) "/" = true ->
  exists pre,
    normpath (P +:+ "/" +:+ f) = pre +:+ "/" +:+ f /\
    (pre = "" \/ startswith pre "/" = true) /\
    (no_line_end P = true -> no_line_end pre = true).
Proof.
  intros Hplain H0 H1 H2 Habs.
  rewrite normpath_last by assumption.
  set (i := initial_slashes (P +:+ "/" +:+ f)).
  set (comps := fold_left (normpath_step i) (split_sep P) []).
  assert (Hcomps : no_line_end P = true ->
                   Forall (fun comp => no_line_end comp = true) comps).
  { intros HP. apply normpath_comps; [constructor|].
    now apply split_sep_no_line_end. }
  destruct (initial_slashes_absolute _ Habs) as [Hi|Hi]; fold i in Hi; rewrite Hi;
    destruct comps as [|c cs] eqn:Ec.
  - exists "". split; [reflexivity|]. split; [now left|reflexivity].
  - exists (slashes 1 +:+ join_sep (c :: cs)). split; [now rewrite sapp_assoc|].
    split; [now right|]. intros HP.
    rewrite no_line_end_app, join_sep_no_line_end by auto. reflexivity.
  - exists "/". split; [reflexivity|]. split; [now right|reflexivity].
  - exists (slashes 2 +:+ join_sep (c :: cs)). split; [now rewrite sapp_assoc|].
    split; [now right|]. intros HP.
    rewrite no_line_end_app, join_sep_no_line_end by auto. reflexivity.
Qed.

(** *** [join] and [abspath] *)

Lemma startswith_app_char (a t : string) (c : ascii) :
  a <> "" -> startswith (a +:+ t) (String c "") = startswith a (String c "").
Proof. intros Ha. destruct a; [congruence|reflexivity]. Qed.

Lemma name_no_leading_slash (f : string) :
  rfind "/" f = -1 -> startswith f "/" = false.
Proof.
  destruct f as [|c f]; [reflexivity|]. intros H.
  apply rfind_none_cons in H as [Hc _]. rewrite startswith_cons.
  now rewrite Ascii.eqb_sym.
Qed.

(** [os.path.join(a, b)] for a folder that is not empty and a relative
    [b]: some text, a slash and [b]. *)
Lemma join_shape (a b : string) :
  a <> "" -> startswith b "/" = false ->
  exists A,
    join a b = A +:+ "/" +:+ b /\
    startswith (join a b) "/" = startswith a "/" /\
    (no_line_end a = true -> no_line_end A = true).
Proof.
  intros Ha Hb. unfold join. rewrite Hb.
  pose proof Ha as Ht. apply truthy_true in Ht. rewrite Ht. cbn [negb orb].
  destruct (endswith a "/") eqn:E.
  - destruct (endswith_split _ _ E) as (A & ->). exists A.
    split; [now rewrite sapp_assoc|]. split.
    + now rewrite startswith_app_char.
    + rewrite no_line_end_app, andb_true_iff. now intros [H _].
  - exists a. split; [reflexivity|]. split; [|auto].
    now rewrite startswith_app_char.
Qed.

(** The path under which a listed file is recorded: some absolute folder,
    a slash and the name of the file. *)
Lemma abspath_join_shape (cwd dir f : string) :
  startswith cwd "/" = true ->
  rfind "/" f = -1 -> f <> "" -> f <> "." -> f <> ".." ->
  exists pre,
    abspath cwd (join dir f) = abs_join pre f /\
    (pre = "" \/ startswith pre "/" = true) /\
    (no_line_end cwd = true -> no_line_end dir = true -> no_line_end pre = true).
Proof.
  intros Hcwd Hplain H0 H1 H2. unfold abspath, abs_join.
  pose proof (name_no_leading_slash f Hplain) as Hf.
  assert (Hcwdne : cwd <> "") by (intros ->; discriminate).
  destruct dir as [|d0 dir'] eqn:Hdir.
  - assert (Hj : join "" f = f) by (unfold join; now rewrite Hf).
    rewrite Hj, Hf.
    destruct (join_shape cwd f Hcwdne Hf) as (C & -> & Hs & HC).
    rewrite Hcwd in Hs.
    destruct (normpath_absolute_last C f Hplain H0 H1 H2 Hs) as (pre & -> & Hpre & Hle).
    exists pre. split; [reflexivity|]. split; [exact Hpre|]. auto.
  - rewrite <- Hdir. assert (Hne : dir <> "") by (rewrite Hdir; discriminate).
    clear Hdir. destruct (join_shape dir f Hne Hf) as (D & -> & Hs & HD).
    destruct (startswith (D +:+ "/" +:+ f) "/") eqn:Habs.
    + destruct (normpath_absolute_last D f Hplain H0 H1 H2 Habs)
        as (pre & -> & Hpre & Hle).
      exists pre. split; [reflexivity|]. split; [exact Hpre|]. auto.
    + destruct (join_shape cwd (D +:+ "/" +:+ f) Hcwdne Habs) as (C & -> & Hs' & HC).
      rewrite Hcwd in Hs'.
      assert (E : C +:+ "/" +:+ D +:+ "/" +:+ f = (C +:+ "/" +:+ D) +:+ "/" +:+ f)
        by now rewrite !sapp_assoc.
      rewrite E in Hs' |- *.
      destruct (normpath_absolute_last (C +:+ "/" +:+ D) f Hplain H0 H1 H2 Hs')
        as (pre & -> & Hpre & Hle).
      exists pre. split; [reflexivity|]. split; [exact Hpre|].
      intros Hc Hd. apply Hle. rewrite !no_line_end_app, HC, HD by assumption.
      reflexivity.
Qed.

(** For an absolute input folder the recorded path is absolute, whatever
    the name. *)
Lemma abspath_join_absolute (cwd dir f : string) :
  startswith dir "/" = true ->
  exists t, abspath cwd (join dir f) = String "/" t.
Proof.
  intros Hdir. unfold abspath.
  assert (Habs : startswith (join dir f) "/" = true).
  { unfold join. destruct (startswith f "/") eqn:Hf; [exact Hf|].
    assert (Hne : dir <> "") by (intros ->; discriminate).
    destruct (negb (truthy dir) || endswith dir "/");
      now rewrite startswith_app_char. }
  rewrite Habs. now apply normpath_absolute.
Qed.

Lemma initial_slashes_app (dir t : string) :
  startswith dir "/" = true -> endswith dir "/" = false ->
  initial_slashes (dir +:+ "/" +:+ t) = initial_slashes dir.
Proof.
  intros Habs Hend. destruct dir as [|a [|b [|c dir]]].
  - discriminate.
  - rewrite startswith_cons in Habs. apply Ascii.eqb_eq in Habs. subst a.
    discriminate.
  - rewrite startswith_cons in Habs. apply Ascii.eqb_eq in Habs. subst a.
    assert (Hb : Ascii.eqb "/" b = false).
    { destruct (Ascii.eqb "/" b) eqn:E; [|reflexivity].
      apply Ascii.eqb_eq in E. subst b. discriminate. }
    unfold initial_slashes. rewrite !sapp_cons. cbn [startswith].
    rewrite Hb. reflexivity.
  - reflexivity.
Qed.

(** For a folder that is absolute and normalised and does not end in a
    slash, and a name as [os.listdir] gives it, [abspath] after [join] is
    the folder, a slash and the name. *)
Lemma abs_join_exact (cwd dir f : string) :
  startswith dir "/" = true -> normpath dir = dir -> endswith dir "/" = false ->
  rfind "/" f = -1 -> f <> "" -> f <> "." -> f <> ".." ->
  abspath cwd (join dir f) = abs_join dir f.
Proof.
  intros Habs Hnorm Hend Hplain H0 H1 H2. unfold abspath, abs_join.
  pose proof (name_no_leading_slash f Hplain) as Hf.
  assert (Hne : dir <> "") by (intros ->; discriminate).
  assert (Hj : join dir f = dir +:+ "/" +:+ f).
  { unfold join. rewrite Hf, Hend. apply truthy_true in Hne. now rewrite Hne. }
  rewrite Hj, startswith_app_char, Habs by exact Hne.
  rewrite normpath_last by assumption.
  rewrite initial_slashes_app by assumption.
  unfold normpath in Hnorm.
  destruct (String.eqb dir "") eqn:E;
    [apply String.eqb_eq in E; congruence|].
  set (i := initial_slashes dir) in *.
  set (comps := fold_left (normpath_step i) (split_sep dir) []) in *.
  assert (Htruthy : truthy (slashes i +:+ join_sep comps) = true).
  { destruct (initial_slashes_absolute dir Habs) as [Hi|Hi]; fold i in Hi;
      rewrite Hi; reflexivity. }
  rewrite Htruthy in Hnorm.
  destruct comps as [|c cs] eqn:Ec.
  - exfalso. cbn [join_sep] in Hnorm. rewrite sapp_nil_r in Hnorm.
    destruct (initial_slashes_absolute dir Habs) as [Hi|Hi]; fold i in Hi;
      rewrite Hi in Hnorm; rewrite <- Hnorm in Hend; discriminate.
  - rewrite <- sapp_assoc. now rewrite Hnorm.
Qed.

(** A name that ends in one of the image extensions, or in [.jpeg], is
    none of the names [normpath] drops. *)
Lemma endswith_length (s suf : string) :
  endswith s suf = true -> (String.length suf <= String.length s)%nat.
Proof.
  intros H. destruct (endswith_split _ _ H) as (a & ->).
  rewrite length_app. lia.
Qed.

Lemma listed_name (f : string) :
  endswith_any (lower f) valid_exts = true ->
  f <> "" /\ f <> "." /\ f <> "..".
Proof.
  unfold endswith_any. rewrite List.existsb_exists. intros (ext & Hext & He).
  apply endswith_length in He. rewrite length_lower in He.
  assert (Hlen : (4 <= String.length ext)%nat)
    by (destruct Hext as [<-|[<-|[<-|[<-|[<-|[]]]]]]; simpl; lia).
  repeat split; intros ->; simpl in He; lia.
Qed.

End OrchestratorPaths.

(** ** The orchestrator and the preprocess stage together *)

Module PipelineFacts.
Import Text Path File TextFacts FileFacts LedgerFacts Orchestrator OrchestratorFacts.
Import OrchestratorPaths.

(** *** Paths that survive a ledger line *)

Lemma rstrip_fixed (s : string) (d : ascii) :
  last_char s = Some d -> is_space d = false -> rstrip s = s.
Proof.
  induction s as [|c s IH]; [discriminate|].
  intros Hlast Hd. rewrite rstrip_cons. simpl in Hlast.
  destruct (last_char s) as [e|] eqn:Hs.
  - injection Hlast as ->. rewrite (IH eq_refl Hd).
    destruct s; [discriminate|reflexivity].
  - injection Hlast as ->. destruct s as [|c' s'].
    + simpl. now rewrite Hd.
    + simpl in Hs. destruct (last_char s'); discriminate.
Qed.

Lemma strip_fixed (c d : ascii) (s : string) :
  is_space c = false -> last_char (String c s) = Some d -> is_space d = false ->
  strip (String c s) = String c s.
Proof.
  intros Hc Hlast Hd. unfold strip. simpl lstrip. rewrite Hc.
  now apply (rstrip_fixed _ d).
Qed.

Lemma last_char_app (s t : string) :
  t <> "" -> last_char (s +:+ t) = last_char t.
Proof.
  intros Ht. induction s as [|c s IH]; [reflexivity|].
  rewrite sapp_cons. simpl. rewrite IH.
  destruct t as [|a t]; [congruence|]. simpl. now destruct (last_char t).
Qed.

Lemma last_char_endswith (s suf : string) :
  endswith s suf = true -> suf <> "" -> last_char s = last_char suf.
Proof.
  intros H Hsuf. induction s as [|c s IH].
  - destruct suf; [congruence|discriminate].
  - cbn [endswith] in H. apply orb_true_iff in H as [H|H].
    + apply String.eqb_eq in H. now subst.
    + specialize (IH H). simpl. rewrite IH.
      destruct suf as [|a t]; [congruence|]. simpl. now destruct (last_char t).
Qed.

Lemma last_char_lower (s : string) :
  last_char (lower s) = lower_char <$> last_char s.
Proof.
  induction s as [|c s IH]; [reflexivity|].
  simpl. rewrite IH. now destruct (last_char s).
Qed.

Lemma lower_char_space (c : ascii) : is_space c = true -> lower_char c = c.
Proof. destruct c as [[] [] [] [] [] [] [] []]; (discriminate || reflexivity). Qed.

Lemma valid_ext_last_char (ext : string) :
  In ext valid_exts ->
  ext <> "" /\ exists d, last_char ext = Some d /\ is_space d = false.
Proof.
  intros [<-|[<-|[<-|[<-|[<-|[]]]]]]; (split; [discriminate|]); eexists;
    (split; [reflexivity|reflexivity]).
Qed.

(** A file name that passes the extension test ends in a visible
    character. *)
Lemma listed_file_last_char (file : string) :
  endswith_any (lower file) valid_exts = true ->
  exists c, last_char file = Some c /\ is_space c = false.
Proof.
  unfold endswith_any. rewrite List.existsb_exists.
  intros (ext & Hext & Hends).
  destruct (valid_ext_last_char ext Hext) as (Hne & d & Hd & Hspace).
  pose proof (last_char_endswith _ _ Hends Hne) as Hlast.
  rewrite last_char_lower, Hd in Hlast.
  destruct (last_char file) as [c|]; [|discriminate].
  injection Hlast as Hlast. exists c. split; [reflexivity|].
  destruct (is_space c) eqn:Hc; [|reflexivity].
  rewrite (lower_char_space c Hc) in Hlast. congruence.
Qed.

Lemma proper_parts (p : string) :
  proper p = true <-> p <> "" /\ no_newline p = true /\ strip p = p.
Proof.
  unfold proper. rewrite !andb_true_iff, truthy_true, String.eqb_eq. tauto.
Qed.

(** An absolute folder, a slash and a listed file name make such a path,
    when the folder and the file name hold no newline. *)
Lemma discovered_ledger_path (pre file : string) :
  pre = "" \/ startswith pre "/" = true ->
  no_newline pre = true -> no_newline file = true ->
  endswith_any (lower file) valid_exts = true ->
  ledger_path (abs_join pre file).
Proof.
  intros Habs Hin Hfile Hext. unfold abs_join.
  destruct (listed_file_last_char file Hext) as (d & Hd & Hspace).
  assert (Hfne : file <> "") by (intros ->; discriminate).
  assert (Hshape : exists rest, pre +:+ "/" +:+ file = String "/" rest /\
                     last_char (String "/" rest) = Some d).
  { destruct Habs as [->|Habs].
    - exists file. split; [reflexivity|].
      change (String "/" file) with ("/" +:+ file). now rewrite last_char_app.
    - destruct pre as [|c rest]; [discriminate|].
      rewrite startswith_cons in Habs. apply Ascii.eqb_eq in Habs. subst c.
      eexists. split; [apply sapp_cons|].
      rewrite <- sapp_cons, <- sapp_assoc, last_char_app by exact Hfne. exact Hd. }
  destruct Hshape as (rest & Hpath & Hlast).
  repeat split.
  - apply proper_parts. split; [rewrite Hpath; discriminate|]. split.
    + rewrite !no_newline_app, Hin, Hfile. reflexivity.
    + rewrite Hpath. now apply (strip_fixed "/" d).
  - now rewrite Hpath.
  - rewrite Hpath. discriminate.
Qed.

(** The paths the orchestrator discovers are such paths, and hold no
    carriage return, when the working directory, the input folder and the
    file names hold no line end and the file names no slash. *)
Lemma discover_ledger_paths (cwd input_path : string) (listing : list string) :
  startswith cwd "/" = true ->
  no_line_end cwd = true -> no_line_end input_path = true ->
  Forall (fun file => no_line_end file = true /\ rfind "/" file = -1) listing ->
  Forall (fun p => ledger_path p /\ no_cr p = true) (discover cwd input_path listing).
Proof.
  intros Hcwd Hc Hin Hfiles. unfold discover. apply List.Forall_forall.
  intros p Hp. apply List.in_map_iff in Hp as (file & <- & Hf).
  apply List.filter_In in Hf as [Hl Hext].
  rewrite List.Forall_forall in Hfiles. destruct (Hfiles file Hl) as [Hfile Hplain].
  destruct (listed_name file Hext) as (H0 & H1 & H2).
  destruct (abspath_join_shape cwd input_path file Hcwd Hplain H0 H1 H2)
    as (pre & -> & Hpre & Hle).
  specialize (Hle Hc Hin).
  destruct (no_line_end_parts pre Hle) as [Hpn Hpc].
  destruct (no_line_end_parts file Hfile) as [Hfn Hfc].
  split.
  - now apply discovered_ledger_path.
  - unfold abs_join. rewrite !no_cr_app, Hpc, Hfc. reflexivity.
Qed.

Lemma Forall_and_l {A} (P Q : A -> Prop) (l : list A) :
  Forall (fun x => P x /\ Q x) l -> Forall P l.
Proof. apply List.Forall_impl. now intros x [H _]. Qed.

Lemma Forall_and_r {A} (P Q : A -> Prop) (l : list A) :
  Forall (fun x => P x /\ Q x) l -> Forall Q l.
Proof. apply List.Forall_impl. now intros x [_ H]. Qed.

(** *** Reading back what was written *)

Lemma startswith_app_nonempty (p t : string) :
  p <> "" -> startswith (p +:+ t) (String "#" "") = startswith p (String "#" "").
Proof. intros Hp. destruct p; [congruence|reflexivity]. Qed.

Lemma map_filter_all {A B} (f : A -> B) (keep : B -> bool) (l : list A) :
  Forall (fun x => keep (f x) = true) l ->
  List.filter keep (List.map f l) = List.map f l.
Proof.
  induction 1 as [|x l Hx _ IH]; [reflexivity|]. simpl. now rewrite Hx, IH.
Qed.

Lemma map_strip_lines (paths : list string) :
  Forall (fun p => proper p = true) paths ->
  List.map strip (List.map (fun p => p +:+ nl) paths) = paths.
Proof.
  induction 1 as [|p paths Hp _ IH]; [reflexivity|].
  simpl. rewrite IH, strip_line. f_equal. now apply proper_parts in Hp.
Qed.

Lemma ledger_path_proper (paths : list string) :
  Forall ledger_path paths -> Forall (fun p => proper p = true) paths.
Proof. apply List.Forall_impl. now intros p [H _]. Qed.

Lemma proper_no_newline (paths : list string) :
  Forall (fun p => proper p = true) paths ->
  Forall (fun p => no_newline p = true) paths.
Proof. apply List.Forall_impl. intros p H. now apply proper_parts in H. Qed.

(** The lines of a file of ledger paths followed by the sentinel. *)
Lemma populated_lines (paths : list string) :
  Forall ledger_path paths ->
  readlines (write_paths paths +:+ (sentinel +:+ nl))
  = List.map (fun p => p +:+ nl) paths ++ [sentinel +:+ nl].
Proof.
  intros H. rewrite readlines_app by apply write_paths_terminated.
  rewrite readlines_write_paths by now apply proper_no_newline, ledger_path_proper.
  reflexivity.
Qed.

Lemma preprocess_load_populated (paths : list string) :
  Forall ledger_path paths ->
  Preprocess.load (write_paths paths +:+ (sentinel +:+ nl)) = paths ++ [sentinel].
Proof.
  intros H. unfold Preprocess.load. rewrite populated_lines by exact H.
  rewrite List.filter_app, List.map_app. f_equal.
  rewrite map_filter_all; [now apply map_strip_lines, ledger_path_proper|].
  eapply List.Forall_impl; [|exact H]. intros p (Hp & Hhash & _).
  apply proper_parts in Hp as (Hne & _ & Hs).
  rewrite strip_line, Hs, startswith_app_nonempty by exact Hne.
  apply truthy_true in Hne. now rewrite Hne, Hhash.
Qed.

Lemma flash_load_written (paths : list string) :
  Forall (fun p => proper p = true) paths ->
  Flash.load (write_paths paths) = paths.
Proof.
  intros H. unfold Flash.load.
  rewrite readlines_write_paths by now apply proper_no_newline.
  rewrite map_filter_all; [now apply map_strip_lines|].
  eapply List.Forall_impl; [|exact H]. intros p Hp.
  apply proper_parts in Hp as (Hne & _ & Hs).
  rewrite strip_line, Hs. now apply truthy_true.
Qed.

Lemma filter_valid_sentinel (paths : list string) :
  List.filter Preprocess.has_valid_ext (paths ++ [sentinel])
  = List.filter Preprocess.has_valid_ext paths.
Proof. rewrite List.filter_app. simpl. apply app_nil_r. Qed.

(** The characters of a freshly populated tracking file reach the reader
    unchanged when no path holds a carriage return. *)
Lemma read_populated (paths : list string) :
  Forall (fun p => no_cr p = true) paths ->
  read_text (write_paths paths +:+ (sentinel +:+ nl))
  = write_paths paths +:+ (sentinel +:+ nl).
Proof.
  intros H. apply read_text_no_cr.
  rewrite no_cr_app, no_cr_write_paths by exact H. reflexivity.
Qed.

(** X6.  The tracking file the orchestrator writes is read back by the
    preprocess stage, through [open(tracking_file, "r")], as the
    discovered paths, in listing order, followed by the sentinel; the
    stage will work on those of the paths that [os.path.splitext] gives a
    valid extension.  This holds for an input folder given in any form,
    relative or not, as long as the working directory, the folder and the
    listed names hold no line end (LF or CR); the listed names hold no
    slash, as [os.listdir] returns them. *)
Theorem populated_tracking_reads_back
    (cwd : string)
    (tracking_file : option string) (input_path : string) (listing : list string) :
  decide_repopulate tracking_file = true ->
  startswith cwd "/" = true ->
  no_line_end cwd = true ->
  no_line_end input_path = true ->
  Forall (fun file => no_line_end file = true /\ rfind "/" file = -1) listing ->
  exists content,
    populate_tracking cwd tracking_file input_path listing = Some content /\
    Preprocess.load (read_text content)
    = discover cwd input_path listing ++ [sentinel] /\
    Preprocess.to_process_of (read_text content)
    = List.filter Preprocess.has_valid_ext (discover cwd input_path listing).
Proof.
  intros Hrep Hcwd Hc Hin Hfiles. unfold populate_tracking. rewrite Hrep.
  eexists. split; [reflexivity|].
  pose proof (discover_ledger_paths cwd input_path listing Hcwd Hc Hin Hfiles)
    as Hpaths.
  rewrite read_populated by (eapply Forall_and_r; exact Hpaths).
  apply Forall_and_l in Hpaths.
  unfold Preprocess.to_process_of.
  rewrite preprocess_load_populated by exact Hpaths.
  split; [reflexivity|apply filter_valid_sentinel].
Qed.

Lemma populated_tracking_reads_back_witness :
  exists content,
    populate_tracking "/home/u" None "scans/../in/" ["a.PNG"; "notes.txt"; "b.tif"]
    = Some content /\
    Preprocess.load (read_text content)
    = ["/home/u/in/a.PNG"; "/home/u/in/b.tif"; "$$done$$"].
Proof.
  destruct (populated_tracking_reads_back "/home/u" None "scans/../in/"
              ["a.PNG"; "notes.txt"; "b.tif"])
    as (content & Hc & Hl & _).
  - reflexivity.
  - reflexivity.
  - reflexivity.
  - reflexivity.
  - repeat constructor.
  - exists content. split; [exact Hc|]. rewrite Hl. reflexivity.
Defined.

Lemma jpeg_is_listed (file : string) :
  endswith (lower file) ".jpeg" = true ->
  endswith_any (lower file) valid_exts = true.
Proof.
  intros Hext. unfold endswith_any, valid_exts. simpl. rewrite Hext.
  now rewrite !orb_true_r.
Qed.

(** A carriage return in a file name ends a line for the reader: the path
    written as one line comes back as two. *)
Lemma carriage_return_splits_a_path :
  let name := "a" +:+ String cr "b.png" in
  let content :=
    write_paths (discover "/home" "/in" [name]) +:+ (sentinel +:+ nl) in
  discover "/home" "/in" [name] = ["/in/a" +:+ String cr "b.png"] /\
  Preprocess.load (read_text content) = ["/in/a"; "b.png"; sentinel].
Proof. split; reflexivity. Qed.

Lemma gather_proper (output_dir : string) (listing : list string) :
  startswith output_dir "/" = true ->
  no_line_end output_dir = true ->
  Forall (fun file => no_line_end file = true /\ rfind "/" file = -1) listing ->
  Forall (fun p => proper p = true /\ no_cr p = true) (gather output_dir listing).
Proof.
  intros Habs Hdir Hfiles. unfold gather. apply List.Forall_forall.
  intros p Hp. apply List.in_map_iff in Hp as (file & <- & Hf).
  apply List.filter_In in Hf as [Hl Hext].
  rewrite List.Forall_forall in Hfiles. destruct (Hfiles file Hl) as [Hfile _].
  destruct (no_line_end_parts output_dir Hdir) as [Hdn Hdc].
  destruct (no_line_end_parts file Hfile) as [Hfn Hfc].
  split.
  - apply (discovered_ledger_path output_dir file); auto using jpeg_is_listed.
  - unfold abs_join. rewrite !no_cr_app, Hdc, Hfc. reflexivity.
Qed.

(** The model's [gather] is the code's: for the folder the orchestrator
    gathers from, [abspath] after [join] gives what [abs_join] gives. *)
Lemma gather_exact (cwd output_dir : string) (listing : list string) :
  startswith output_dir "/" = true ->
  normpath output_dir = output_dir -> endswith output_dir "/" = false ->
  Forall (fun file => rfind "/" file = -1) listing ->
  gather output_dir listing
  = List.map (fun file => abspath cwd (join output_dir file))
      (List.filter (fun file => endswith (lower file) ".jpeg") listing).
Proof.
  intros Habs Hnorm Hend Hfiles. unfold gather. apply List.map_ext_in.
  intros file Hf. apply List.filter_In in Hf as [Hl Hext].
  rewrite List.Forall_forall in Hfiles.
  destruct (listed_name file (jpeg_is_listed file Hext)) as (H0 & H1 & H2).
  symmetry. apply abs_join_exact; auto.
Qed.

(** X7.  The pending file the orchestrator writes for the transcription
    stage is read back by that stage, through
    [open(PENDING_IMAGES_FILE, "r")], as the gathered paths, in listing
    order.  The output folder is absolute, normalised and without a slash
    at its end, as [os.path.join(base_dir, "OptimizedImagesForOCR")] is,
    so that the gathered paths are those [os.path.abspath] returns; the
    folder and the listed names hold no line end (LF or CR), and the
    folder holds at least one [.jpeg] file (without one the orchestrator
    exits before it comes to the pending file). *)
Theorem pending_reads_back
    (cwd : string) (new : bool) (pending_file : option string)
    (output_dir : string) (listing : list string) :
  regenerate_pending new pending_file = true ->
  startswith output_dir "/" = true ->
  normpath output_dir = output_dir -> endswith output_dir "/" = false ->
  no_line_end output_dir = true ->
  Forall (fun file => no_line_end file = true /\ rfind "/" file = -1) listing ->
  gather output_dir listing <> [] ->
  gather output_dir listing
  = List.map (fun file => abspath cwd (join output_dir file))
      (List.filter (fun file => endswith (lower file) ".jpeg") listing) /\
  exists content,
    populate_pending new pending_file (gather output_dir listing) = Some content /\
    Flash.load (read_text content) = gather output_dir listing.
Proof.
  intros Hreg Habs Hnorm Hend Hdir Hfiles _.
  split; [apply gather_exact; auto; eapply Forall_and_r; exact Hfiles|].
  unfold populate_pending. rewrite Hreg.
  eexists. split; [reflexivity|].
  pose proof (gather_proper output_dir listing Habs Hdir Hfiles) as Hpaths.
  rewrite read_text_no_cr
    by (apply no_cr_write_paths; eapply Forall_and_r; exact Hpaths).
  apply flash_load_written. eapply Forall_and_l; exact Hpaths.
Qed.

Lemma pending_reads_back_witness :
  exists content,
    populate_pending false None (gather "/repo/out" ["a.jpeg"; "b.JPEG"; "c.txt"])
    = Some content /\
    Flash.load (read_text content) = ["/repo/out/a.jpeg"; "/repo/out/b.JPEG"].
Proof.
  destruct (pending_reads_back "/home/u" false None "/repo/out"
              ["a.jpeg"; "b.JPEG"; "c.txt"])
    as (_ & content & Hc & Hl).
  - reflexivity.
  - reflexivity.
  - reflexivity.
  - reflexivity.
  - reflexivity.
  - repeat constructor.
  - discriminate.
  - exists content. split; [exact Hc|]. rewrite Hl. reflexivity.
Defined.

(** *** Resuming *)

Lemma filter_map_lines (done paths : list string) :
  Forall (fun p => proper p = true) paths ->
  List.filter (keeps_none_of done) (List.map (fun p => p +:+ nl) paths)
  = List.map (fun p => p +:+ nl)
      (List.filter (fun p => negb (existsb (String.eqb p) done)) paths).
Proof.
  induction 1 as [|p paths Hp _ IH]; [reflexivity|].
  apply proper_parts in Hp as (_ & _ & Hs).
  simpl. unfold keeps_none_of at 1. rewrite strip_line, Hs.
  destruct (negb (existsb (String.eqb p) done)); simpl; now rewrite IH.
Qed.

Lemma ledger_line_meaningful (p : string) :
  ledger_path p ->
  meaningful (p +:+ nl) = true /\ strip (p +:+ nl) = p.
Proof.
  intros (Hp & Hhash & _). apply proper_parts in Hp as (Hne & _ & Hs).
  unfold meaningful. rewrite strip_line, Hs. apply truthy_true in Hne.
  now rewrite Hne, Hhash.
Qed.

Lemma first_meaningful_paths (paths : list string) :
  Forall ledger_path paths ->
  first_meaningful (List.map (fun p => p +:+ nl) paths ++ [sentinel +:+ nl])
  = Some (hd sentinel paths).
Proof.
  intros H. destruct H as [|p paths Hp _]; [reflexivity|].
  destruct (ledger_line_meaningful p Hp) as [Hm Hs].
  unfold first_meaningful. cbn [List.map app List.filter]. now rewrite Hm, Hs.
Qed.

(** The lines of a populated tracking file after the items [done] were
    removed from it. *)
Lemma drained_lines (paths done : list string) :
  Forall ledger_path paths -> ~ In sentinel done ->
  exists after,
    fold_left Preprocess.update_tracking_file done
      (Some (write_paths paths +:+ (sentinel +:+ nl))) = Some after /\
    readlines after
    = List.map (fun p => p +:+ nl)
        (List.filter (fun p => negb (existsb (String.eqb p) done)) paths)
      ++ [sentinel +:+ nl].
Proof.
  intros Hpaths Hdone. eexists.
  split; [apply PreprocessFacts.fold_update_tracking_file|].
  rewrite readlines_rewrite, populated_lines by exact Hpaths.
  rewrite List.filter_app, filter_map_lines by now apply ledger_path_proper.
  f_equal. cbn [List.filter].
  replace (keeps_none_of done (sentinel +:+ nl)) with true; [reflexivity|].
  symmetry. apply PreprocessFacts.keeps_none_of_true.
  now rewrite strip_line.
Qed.

(** X8.  The orchestrator takes up a tracking file where the preprocess stage
    left it only when the stage got through every listed path: for a
    tracking file of listed paths and the sentinel from which the items
    [done] were removed, repopulation is skipped exactly when every listed
    path is among [done].  While one listed path is left, the next run
    writes the whole listing again. *)
Theorem repopulation_after_partial_drain
    (cwd : string)
    (paths done : list string) (input_path : string) (listing : list string) :
  Forall ledger_path paths -> ~ In sentinel done ->
  let after :=
    fold_left Preprocess.update_tracking_file done
      (Some (write_paths paths +:+ (sentinel +:+ nl))) in
  (decide_repopulate after = false <-> forall p, In p paths -> In p done) /\
  ((exists p, In p paths /\ ~ In p done) ->
   populate_tracking cwd after input_path listing
   = Some (write_paths (discover cwd input_path listing) +:+ (sentinel +:+ nl))).
Proof.
  intros Hpaths Hdone after.
  destruct (drained_lines paths done Hpaths Hdone) as (text & Hafter & Hlines).
  fold after in Hafter.
  set (left := List.filter (fun p => negb (existsb (String.eqb p) done)) paths) in *.
  assert (Hleft : Forall ledger_path left).
  { apply List.Forall_forall. intros p Hp. apply List.filter_In in Hp as [Hp _].
    rewrite List.Forall_forall in Hpaths. auto. }
  assert (Hfirst : first_meaningful (readlines text) = Some (hd sentinel left)).
  { rewrite Hlines. now apply first_meaningful_paths. }
  assert (Hiff : decide_repopulate after = false <-> forall p, In p paths -> In p done).
  { rewrite Hafter. unfold decide_repopulate. rewrite scan_first_line_spec, Hfirst.
    split.
    - intros Hhd p Hp. destruct (existsb (String.eqb p) done) eqn:E.
      + now apply PreprocessFacts.existsb_eqb_In.
      + exfalso. assert (Hin : In p left).
        { apply List.filter_In. split; [exact Hp|]. now rewrite E. }
        destruct left as [|q qs]; [contradiction|].
        apply List.Forall_inv in Hleft as (_ & _ & Hq).
        simpl in Hhd. congruence.
    - intros Hall. replace left with (@nil string); [reflexivity|].
      symmetry. apply FlashFacts.filter_none. intros p Hp.
      apply negb_false_iff, PreprocessFacts.existsb_eqb_In. auto. }
  split; [exact Hiff|].
  intros (p & Hp & Hnot). unfold populate_tracking.
  destruct (decide_repopulate after) eqn:E; [reflexivity|].
  exfalso. apply Hnot. now apply Hiff.
Qed.

Lemma repopulation_after_partial_drain_witness :
  decide_repopulate
    (fold_left Preprocess.update_tracking_file ["/in/a.png"]
       (Some (write_paths ["/in/a.png"; "/in/b.png"] +:+ (sentinel +:+ nl))))
  = true.
Proof.
  destruct (repopulation_after_partial_drain "/home" ["/in/a.png"; "/in/b.png"]
              ["/in/a.png"] "/in" []) as [Hiff _].
  - repeat constructor; discriminate.
  - intros [H|[]]. discriminate.
  - apply not_false_iff_true. intros E. destruct Hiff as [H _].
    destruct (H E "/in/b.png") as [H'|[]]; [right; now left|discriminate].
Defined.

(** *** A full drain, and the step after population *)

Lemma stripped_after_first_meaningful (lines : list string) (s : string) :
  first_meaningful lines = Some s ->
  forall stripped, stripped_after_loop lines stripped = Some s.
Proof.
  unfold first_meaningful. induction lines as [|l lines IH]; [discriminate|].
  cbn [List.filter stripped_after_loop]. fold (meaningful l).
  destruct (meaningful l); [now intros [= <-]|]. intros H stripped. now apply IH.
Qed.

(** X9.  The preprocess stage run on a tracking file of listed paths that all
    have a valid extension leaves the sentinel line and nothing else; the
    orchestrator then neither repopulates the file nor starts the stage
    again. *)
Theorem full_drain_leaves_sentinel
    (preprocess_image_for_ocr : string -> string -> bool)
    (output_folder : string) (w : Preprocess.world) (paths : list string) :
  Preprocess.tracking w = Some (write_paths paths +:+ (sentinel +:+ nl)) ->
  Forall ledger_path paths ->
  Forall (fun p => Preprocess.has_valid_ext p = true) paths ->
  let w' := Preprocess.process_images preprocess_image_for_ocr output_folder w in
  Preprocess.tracking w' = Some (sentinel +:+ nl) /\
  decide_repopulate (Preprocess.tracking w') = false /\
  forall stripped,
    preprocessing_skipped (sentinel +:+ nl) stripped = Some true.
Proof.
  intros Hw Hpaths Hvalid w'.
  assert (Ht : Preprocess.tracking w' = Some (sentinel +:+ nl)).
  { unfold w'. rewrite (PreprocessFacts.process_images_tracking _ _ _ _ Hw).
    assert (Hto : Preprocess.to_process_of (write_paths paths +:+ (sentinel +:+ nl))
                  = paths).
    { unfold Preprocess.to_process_of.
      rewrite preprocess_load_populated, filter_valid_sentinel by exact Hpaths.
      apply filter_true. now apply List.Forall_forall. }
    rewrite Hto.
    destruct (drained_lines paths paths Hpaths) as (after & Hfold & Hlines).
    { intros Hin. rewrite List.Forall_forall in Hpaths.
      now destruct (Hpaths _ Hin) as (_ & _ & Hne). }
    rewrite PreprocessFacts.fold_update_tracking_file in Hfold.
    rewrite Hfold. f_equal. rewrite <- (write_readlines after), Hlines.
    rewrite FlashFacts.filter_none; [reflexivity|].
    intros p Hp. apply negb_false_iff, PreprocessFacts.existsb_eqb_In, Hp. }
  split; [exact Ht|]. split; [now rewrite Ht|]. reflexivity.
Qed.

Lemma full_drain_leaves_sentinel_witness :
  Preprocess.tracking
    (Preprocess.process_images (fun _ _ => false) "/out"
       {| Preprocess.tracking :=
            Some (write_paths ["/in/a.png"; "/in/b.TIF"] +:+ (sentinel +:+ nl));
          Preprocess.images := ∅; Preprocess.log := [] |})
  = Some (sentinel +:+ nl).
Proof.
  apply (full_drain_leaves_sentinel (fun _ _ => false) "/out" _
           ["/in/a.png"; "/in/b.TIF"]).
  - reflexivity.
  - repeat constructor; discriminate.
  - repeat constructor.
Defined.

Lemma readlines_head (c : ascii) (s : string) :
  Ascii.eqb c newline = false ->
  exists l ls, readlines (String c s) = String c l :: ls.
Proof.
  intros Hc. simpl. rewrite Hc. destruct (readlines s); eauto.
Qed.

Lemma skipped_after_slash (t : string) (stripped : option string) :
  preprocessing_skipped (String "/" t) stripped = Some false.
Proof.
  destruct (readlines_head "/" t eq_refl) as (l & ls & Hl).
  unfold preprocessing_skipped. rewrite Hl.
  destruct (rstrip_head "/" l eq_refl) as (r & Hr).
  cbn [stripped_after_loop]. unfold strip. cbn [lstrip is_space]. rewrite Hr.
  reflexivity.
Qed.

(** X10.  After the population step of an absolute input folder the tracking
    file is there, and the preprocessing step is skipped unless the file
    was just written anew with at least one image path: a tracking file
    whose first meaningful line is the sentinel stops both the
    repopulation and the preprocessing. *)
Theorem preprocessing_runs_after_repopulation
    (cwd : string)
    (tracking_file : option string) (input_path : string) (listing : list string)
    (stripped : option string) :
  startswith input_path "/" = true ->
  exists content,
    populate_tracking cwd tracking_file input_path listing = Some content /\
    preprocessing_skipped content stripped
    = Some (negb (decide_repopulate tracking_file)
            || match discover cwd input_path listing with
               | [] => true
               | _ :: _ => false
               end).
Proof.
  intros Habs. unfold populate_tracking.
  destruct (decide_repopulate tracking_file) eqn:Hrep.
  - eexists. split; [reflexivity|]. cbn [negb orb].
    destruct (discover cwd input_path listing) as [|p ps] eqn:Hd; [reflexivity|].
    assert (Hp : exists rest, p = String "/" rest).
    { assert (Hin : In p (discover cwd input_path listing)) by (rewrite Hd; now left).
      unfold discover in Hin. apply List.in_map_iff in Hin as (file & <- & _).
      now apply abspath_join_absolute. }
    destruct Hp as (rest & ->).
    assert (Hhead : exists t,
              write_paths (String "/" rest :: ps) +:+ (sentinel +:+ nl)
              = String "/" t)
      by (eexists; reflexivity).
    destruct Hhead as (t & ->). apply skipped_after_slash.
  - apply not_true_iff_false in Hrep.
    assert (Hskip : decide_repopulate tracking_file = false)
      by now destruct (decide_repopulate tracking_file).
    unfold decide_repopulate in Hskip.
    destruct tracking_file as [content|]; [|discriminate].
    apply scan_first_line_spec in Hskip.
    exists content. split; [reflexivity|].
    unfold preprocessing_skipped.
    now rewrite (stripped_after_first_meaningful _ _ Hskip).
Qed.

Lemma preprocessing_runs_after_repopulation_witness :
  exists content,
    populate_tracking "/home" None "/in" ["a.png"] = Some content /\
    preprocessing_skipped content None = Some false.
Proof.
  destruct (preprocessing_runs_after_repopulation "/home" None "/in" ["a.png"] None
              eq_refl)
    as (content & Hc & Hs).
  exists content. split; [exact Hc|]. rewrite Hs. reflexivity.
Defined.

End PipelineFacts.

(** ** Whole runs of the transcription stage *)

Module FlashRuns.
Import Text Path File TextFacts FileFacts LedgerFacts Flash FlashFacts.

Lemma started_app (xs ys : list event) :
  started (xs ++ ys) = started xs ++ started ys.
Proof.
  induction xs as [|e xs IH]; [reflexivity|].
  destruct e as [p|p q [|n]|o|p n|n|p]; simpl; now rewrite IH.
Qed.

Lemma total_wait_app (xs ys : list tick) :
  total_wait (xs ++ ys) = (total_wait xs + total_wait ys)%nat.
Proof.
  induction xs as [|t xs IH]; [reflexivity|].
  destruct t; simpl; rewrite IH; lia.
Qed.

(** The three schedules of [MAX_RETRIES = 3], [RETRY_DELAY = 5] sleep 0, 5
    and 20 seconds. *)
Lemma total_wait_backoff (k : nat) :
  (k <= MAX_RETRIES)%nat -> (total_wait (backoff RETRY_DELAY k 0) <= 20)%nat.
Proof.
  unfold MAX_RETRIES. intros Hk.
  destruct k as [|[|[|[|k]]]]; simpl; lia.
Qed.

Section Script.

Variable SCRIPT_DIR : string.
Variable gemini : nat -> string -> string -> outcome.

(** What the retry loop writes to the log: no warning, the first attempt
    of the item when it starts at attempt 0, and [Saved] on success. *)
Lemma retry_loop_events (max_retries retry_delay : nat)
    (image_path prompt output_path : string) (remaining : nat) :
  forall (attempt : nat) (w : world),
  let r := retry_loop gemini max_retries retry_delay remaining attempt
             image_path prompt output_path w in
  exists new,
    log r.2 = log w ++ new /\
    started new = match attempt, remaining with
                  | O, S _ => [image_path]
                  | _, _ => []
                  end /\
    (forall p, ~ In (Warning p) new) /\
    (r.1 = true -> In (Saved output_path) new).
Proof.
  induction remaining as [|rem IH]; intros attempt w.
  - exists []. simpl. rewrite app_nil_r.
    split; [reflexivity|]. split; [now destruct attempt|].
    split; [now intros ? []|discriminate].
  - cbn [retry_loop].
    pose proof (run_try_frame gemini image_path prompt output_path
                  (emit (Attempt image_path prompt attempt) w)) as Hframe.
    destruct (run_try gemini image_path prompt output_path
                (emit (Attempt image_path prompt attempt) w)) as [reached w1].
    cbn [fst snd] in Hframe. destruct Hframe as (_ & Hl & _). simpl in Hl.
    destruct (reached && artifact_ok (files w1) output_path).
    + exists [Attempt image_path prompt attempt; Saved output_path].
      cbn [fst snd emit log]. rewrite Hl, <- app_assoc.
      split; [reflexivity|]. split; [now destruct attempt|].
      split; [|intros _; right; now left].
      intros p [H|[H|[]]]; discriminate.
    + destruct (attempt <? max_retries - 1)%nat.
      * destruct (IH (S attempt)
                    (emit (Sleep (retry_delay * 3 ^ attempt))
                       (emit (Error image_path attempt) w1)))
          as (new & Hlog & Hst & Hwarn & Hsaved).
        exists (Attempt image_path prompt attempt :: Error image_path attempt
                :: Sleep (retry_delay * 3 ^ attempt) :: new).
        split; [rewrite Hlog; simpl; rewrite Hl, <- !app_assoc; reflexivity|].
        split; [|split].
        -- cbn [started]. rewrite Hst. now destruct attempt, rem.
        -- intros p [H|[H|[H|H]]]; try discriminate. now apply (Hwarn p).
        -- intros H. right. right. right. now apply Hsaved.
      * exists [Attempt image_path prompt attempt; Error image_path attempt;
                Failed image_path].
        cbn [fst snd emit log]. rewrite Hl, <- !app_assoc.
        split; [reflexivity|]. split; [now destruct attempt|].
        split; [|discriminate].
        intros p [H|[H|[H|[]]]]; discriminate.
Qed.

Section Item.

Variable global_context : string.
Variable context_mapping : gmap string string.

Let step := process_one SCRIPT_DIR gemini global_context context_mapping.

(** One pass of the main loop over an item; [gone] tells whether the
    pending file was rewritten without the item. *)
Lemma process_one_summary (w : world) (image_path : string) :
  exists new k (gone : bool),
    log (step w image_path) = log w ++ new /\
    started new = [image_path] /\
    requests (step w image_path) = (requests w + k)%nat /\
    (k <= MAX_RETRIES)%nat /\
    (total_wait (timeline new) <= 20)%nat /\
    pending (step w image_path)
    = (if gone then remove_from_pending (pending w) image_path else pending w) /\
    (gone = true ->
       In (Warning image_path) new \/
       In (Saved (output_path_of SCRIPT_DIR image_path)) new) /\
    (forall p, In (Warning p) new -> p = image_path /\ gone = true).
Proof.
  destruct (files w !! image_path) as [img|] eqn:Himg.
  - assert (Hsome : is_Some (files w !! image_path)) by (rewrite Himg; eauto).
    unfold step. rewrite process_one_present by exact Hsome. cbn zeta.
    set (prompt := compose_prompt global_context context_mapping
                     (splitext (basename image_path)).1).
    set (out := output_path_of SCRIPT_DIR image_path).
    destruct (retry_loop_spec gemini MAX_RETRIES RETRY_DELAY image_path prompt out
                MAX_RETRIES 0 w eq_refl)
      as (Hp & _ & new & k & Hlog & Hreq & Hk & _ & _ & Ht).
    destruct (retry_loop_events MAX_RETRIES RETRY_DELAY image_path prompt out
                MAX_RETRIES 0 w)
      as (new' & Hlog' & Hst & Hwarn & Hsaved).
    assert (new' = new) by (rewrite Hlog in Hlog'; now apply app_inv_head in Hlog').
    subst new'.
    destruct (retry_loop gemini MAX_RETRIES RETRY_DELAY MAX_RETRIES 0
                image_path prompt out w) as [success w1]; cbn [fst snd] in *.
    exists new, k, success.
    assert (Hwait : (total_wait (timeline new) <= 20)%nat)
      by (rewrite Ht; now apply total_wait_backoff).
    assert (Hnowarn : forall q, In (Warning q) new -> q = image_path /\ success = true)
      by (intros q Hin; now apply Hwarn in Hin).
    destruct success; cbn [log requests pending set_pending].
    + rewrite Hp.
      split; [exact Hlog|]. split; [exact Hst|]. split; [exact Hreq|].
      split; [exact Hk|]. split; [exact Hwait|]. split; [reflexivity|].
      split; [auto|exact Hnowarn].
    + split; [exact Hlog|]. split; [exact Hst|]. split; [exact Hreq|].
      split; [exact Hk|]. split; [exact Hwait|]. split; [exact Hp|].
      split; [discriminate|exact Hnowarn].
  - unfold step. rewrite process_one_missing by exact Himg.
    exists [Warning image_path], 0%nat, true.
    cbn [log requests pending set_pending emit].
    split; [reflexivity|]. split; [reflexivity|]. split; [lia|].
    split; [lia|]. split; [simpl; lia|]. split; [reflexivity|].
    split; [intros _; left; now left|].
    now intros p [[= <-]|[]].
Qed.

(** A run of the loop over a list of items. *)
Lemma fold_summary (items : list string) :
  forall w : world,
  exists new removed,
    log (fold_left step items w) = log w ++ new /\
    started new = items /\
    (requests (fold_left step items w) <= requests w + MAX_RETRIES * length items)%nat /\
    (total_wait (timeline new) <= 20 * length items)%nat /\
    pending (fold_left step items w)
    = write_lines (List.filter (keeps_none_of removed) (readlines (pending w))) /\
    (forall i, In i removed ->
       In i items /\
       (In (Warning i) new \/ In (Saved (output_path_of SCRIPT_DIR i)) new)) /\
    (forall p, In (Warning p) new -> In p removed).
Proof.
  induction items as [|i items IH]; intros w.
  - exists [], []. simpl. rewrite app_nil_r.
    split; [reflexivity|]. split; [reflexivity|]. split; [lia|]. split; [lia|].
    split; [|split; intros ? []].
    rewrite filter_true, write_readlines; [reflexivity|]. now intros.
  - cbn [fold_left].
    destruct (process_one_summary w i)
      as (new1 & k & gone & Hlog1 & Hst1 & Hreq1 & Hk & Hwait1 & Hpend1 & Hev1 & Hwarn1).
    destruct (IH (step w i))
      as (new2 & removed & Hlog2 & Hst2 & Hreq2 & Hwait2 & Hpend2 & Hrem & Hwarn2).
    exists (new1 ++ new2), (if gone then i :: removed else removed).
    split; [rewrite Hlog2, Hlog1; now rewrite app_assoc|].
    split; [rewrite started_app, Hst1, Hst2; reflexivity|].
    split; [rewrite Hreq1 in Hreq2; simpl length; unfold MAX_RETRIES in *; lia|].
    split; [rewrite timeline_app, total_wait_app; simpl length; lia|].
    split; [|split].
    + rewrite Hpend2, Hpend1. destruct gone; [|reflexivity].
      rewrite remove_from_pending_lines, filter_filter. f_equal.
      apply List.filter_ext. intros l. unfold keeps, keeps_none_of. simpl.
      now rewrite negb_orb.
    + intros j Hj.
      assert (Hcases : (gone = true /\ j = i) \/ In j removed).
      { destruct gone; [destruct Hj as [<-|Hj]|]; auto. }
      rewrite !List.in_app_iff. destruct Hcases as [[Hg ->]|Hj'].
      * split; [now left|]. destruct (Hev1 Hg); auto.
      * destruct (Hrem j Hj') as [Hin Hev]. split; [now right|]. tauto.
    + intros p Hp. apply List.in_app_iff in Hp as [Hp|Hp].
      * destruct (Hwarn1 p Hp) as [-> ->]. now left.
      * specialize (Hwarn2 p Hp). destruct gone; [now right|exact Hwarn2].
Qed.

End Item.

(** The script is the loop over the reversed list of loaded items, also
    when there is none. *)
Lemma main_fold (pending_file : option string) (ctx : folder)
    (fs : gmap string string) :
  let content :=
    match pending_file with Some c => c | None => pending_header end in
  main SCRIPT_DIR gemini pending_file ctx fs
  = fold_left (process_one SCRIPT_DIR gemini (load_global_context ctx)
                 (load_context_mapping ctx))
      (rev (load content))
      {| pending := content; files := fs; requests := 0; log := [] |}.
Proof.
  intros content. unfold main. fold content.
  destruct (load content) as [|p ps]; reflexivity.
Qed.

(** X11.  Every loaded item of the pending file is taken up exactly once, and
    the items are taken up from the last line of the file to the first. *)
Theorem items_taken_in_reverse_order
    (pending_file : option string) (ctx : folder) (fs : gmap string string) :
  let content :=
    match pending_file with Some c => c | None => pending_header end in
  started (log (main SCRIPT_DIR gemini pending_file ctx fs)) = rev (load content).
Proof.
  intros content. rewrite main_fold. fold content.
  destruct (fold_summary (load_global_context ctx) (load_context_mapping ctx)
              (rev (load content))
              {| pending := content; files := fs; requests := 0; log := [] |})
    as (new & removed & Hlog & Hst & _).
  rewrite Hlog. exact Hst.
Qed.

(** X12.  Whatever the model answers, a run makes at most [MAX_RETRIES] passes
    through the [try] body and sleeps at most 20 seconds for each loaded
    item of the pending file. *)
Theorem run_is_bounded
    (pending_file : option string) (ctx : folder) (fs : gmap string string) :
  let content :=
    match pending_file with Some c => c | None => pending_header end in
  let w := main SCRIPT_DIR gemini pending_file ctx fs in
  (requests w <= MAX_RETRIES * length (load content))%nat /\
  (total_wait (timeline (log w)) <= 20 * length (load content))%nat.
Proof.
  intros content w. unfold w. rewrite main_fold. fold content.
  destruct (fold_summary (load_global_context ctx) (load_context_mapping ctx)
              (rev (load content))
              {| pending := content; files := fs; requests := 0; log := [] |})
    as (new & removed & Hlog & _ & Hreq & Hwait & _).
  rewrite Hlog. rewrite length_rev in Hreq, Hwait. cbn [requests log app] in *.
  split; [exact Hreq|exact Hwait].
Qed.

(** X13.  The pending file at the end of a run holds the lines of the file at
    the start, in their old order, without those of the removed items, and
    an item is removed only with a warning that it is missing or with its
    transcription saved; an item the log warns about is no longer in the
    file.  The order in which the items were taken up does not show. *)
Theorem final_pending_file
    (pending_file : option string) (ctx : folder) (fs : gmap string string) :
  let content :=
    match pending_file with Some c => c | None => pending_header end in
  let w := main SCRIPT_DIR gemini pending_file ctx fs in
  exists removed,
    readlines (pending w)
    = List.filter (keeps_none_of removed) (readlines content) /\
    load (pending w)
    = List.filter (fun i => negb (existsb (String.eqb i) removed)) (load content) /\
    (forall i, In i removed ->
       In i (load content) /\
       (In (Warning i) (log w) \/
        In (Saved (output_path_of SCRIPT_DIR i)) (log w))) /\
    (forall p, In (Warning p) (log w) -> ~ In p (load (pending w))).
Proof.
  intros content w. unfold w. rewrite main_fold. fold content.
  destruct (fold_summary (load_global_context ctx) (load_context_mapping ctx)
              (rev (load content))
              {| pending := content; files := fs; requests := 0; log := [] |})
    as (new & removed & Hlog & _ & _ & _ & Hpend & Hrem & Hwarn).
  cbn [pending log app] in *. rewrite Hlog, Hpend.
  assert (Hload : load (write_lines (List.filter (keeps_none_of removed)
                                       (readlines content)))
                  = List.filter (fun i => negb (existsb (String.eqb i) removed))
                      (load content)).
  { unfold load. rewrite readlines_rewrite, filter_map, !filter_filter.
    f_equal. apply List.filter_ext. intros l. unfold keeps_none_of.
    apply andb_comm. }
  exists removed. split; [apply readlines_rewrite|]. split; [exact Hload|].
  split.
  - intros i Hi. destruct (Hrem i Hi) as [Hin Hev].
    split; [now apply List.in_rev|exact Hev].
  - intros p Hp. rewrite Hload, List.filter_In. intros [_ Hk].
    apply negb_true_iff in Hk.
    assert (In p removed) by auto.
    apply PreprocessFacts.existsb_eqb_In in H. congruence.
Qed.

(** *** A run in which the model always answers *)

Section Answering.

Hypothesis answers :
  forall n image_path prompt,
    exists text, gemini n image_path prompt = Completed (Some text) /\ text <> "".

Variable global_context : string.
Variable context_mapping : gmap string string.

Let step := process_one SCRIPT_DIR gemini global_context context_mapping.

Lemma artifact_ok_insert (fs : gmap string string) (out text key : string) :
  text <> "" ->
  artifact_ok fs key = true -> artifact_ok (<[ out := text ]> fs) key = true.
Proof.
  intros Htext Hok. unfold artifact_ok in *.
  destruct (decide (out = key)) as [->|Hne].
  - rewrite lookup_insert_eq. destruct text; [congruence|reflexivity].
  - now rewrite lookup_insert_ne.
Qed.

Lemma retry_loop_answered (image_path prompt output_path text : string)
    (remaining attempt : nat) (w : world) :
  gemini (requests w) image_path prompt = Completed (Some text) ->
  text <> "" ->
  retry_loop gemini MAX_RETRIES RETRY_DELAY (S remaining) attempt
    image_path prompt output_path w
  = (true,
     {| pending := pending w;
        files := <[ output_path := text ]> (files w);
        requests := S (requests w);
        log := (log w ++ [Attempt image_path prompt attempt])
                 ++ [Saved output_path] |}).
Proof.
  intros Hg Htext. cbn [retry_loop]. unfold run_try.
  change (requests (emit (Attempt image_path prompt attempt) w)) with (requests w).
  rewrite Hg. cbn [files emit]. unfold artifact_ok. rewrite lookup_insert_eq.
  destruct text as [|c text]; [congruence|]. reflexivity.
Qed.

Lemma process_one_answered (w : world) (image_path : string) :
  is_Some (files w !! image_path) ->
  exists text prompt,
    text <> "" /\
    step w image_path
    = {| pending := remove_from_pending (pending w) image_path;
         files := <[ output_path_of SCRIPT_DIR image_path := text ]> (files w);
         requests := S (requests w);
         log := log w ++ [Attempt image_path prompt 0;
                          Saved (output_path_of SCRIPT_DIR image_path)] |}.
Proof.
  intros Hsome.
  set (prompt := compose_prompt global_context context_mapping
                   (splitext (basename image_path)).1).
  destruct (answers (requests w) image_path prompt) as (text & Hg & Htext).
  exists text, prompt. split; [exact Htext|].
  unfold step. rewrite process_one_present by exact Hsome. cbn zeta.
  fold prompt.
  pose proof (retry_loop_answered image_path prompt
                (output_path_of SCRIPT_DIR image_path) text 2 0 w Hg Htext) as Hloop.
  change 3%nat with MAX_RETRIES in Hloop. rewrite Hloop.
  cbn [fst snd]. unfold set_pending. cbn [pending files requests log].
  now rewrite <- app_assoc.
Qed.

Lemma fold_answered (items : list string) :
  forall w : world,
  (forall i, In i items -> is_Some (files w !! i)) ->
  let w' := fold_left step items w in
  pending w'
    = write_lines (List.filter (keeps_none_of items) (readlines (pending w))) /\
  requests w' = (requests w + length items)%nat /\
  (exists new, log w' = log w ++ new /\ total_wait (timeline new) = 0%nat) /\
  (forall p, is_Some (files w !! p) -> is_Some (files w' !! p)) /\
  (forall key, artifact_ok (files w) key = true -> artifact_ok (files w') key = true) /\
  (forall i, In i items ->
     artifact_ok (files w') (output_path_of SCRIPT_DIR i) = true).
Proof.
  induction items as [|i items IH]; intros w Hexist.
  - simpl. rewrite filter_true, write_readlines by now intros.
    split; [reflexivity|]. split; [lia|].
    split; [exists []; now rewrite app_nil_r|].
    split; [auto|]. split; [auto|]. intros ? [].
  - cbn [fold_left].
    destruct (process_one_answered w i) as (text & prompt & Htext & Hstep);
      [apply Hexist; now left|].
    assert (Hkeep : forall p, is_Some (files w !! p) -> is_Some (files (step w i) !! p)).
    { intros p Hp. rewrite Hstep. cbn [files].
      destruct (decide (output_path_of SCRIPT_DIR i = p)) as [->|Hne].
      - rewrite lookup_insert_eq. eauto.
      - now rewrite lookup_insert_ne. }
    destruct (IH (step w i)) as (Hp & Hr & (new & Hl & Hw) & Hf & Hok & Hall).
    { intros j Hj. apply Hkeep, Hexist. now right. }
    cbn zeta. rewrite Hp, Hr. rewrite Hstep at 1 2. cbn [pending requests].
    split; [|split; [|split; [|split; [|split]]]].
    + rewrite remove_from_pending_lines, filter_filter. f_equal.
      apply List.filter_ext. intros l. unfold keeps, keeps_none_of. simpl.
      now rewrite negb_orb.
    + simpl length. lia.
    + eexists. rewrite Hl, Hstep. cbn [log]. rewrite <- app_assoc.
      split; [reflexivity|]. rewrite timeline_app, total_wait_app, Hw. reflexivity.
    + auto.
    + intros key Hkey. apply Hok. rewrite Hstep. cbn [files].
      now apply artifact_ok_insert.
    + intros j [<-|Hj]; [|now apply Hall].
      apply Hok. rewrite Hstep. cbn [files]. unfold artifact_ok.
      rewrite lookup_insert_eq. destruct text; [congruence|reflexivity].
Qed.

End Answering.

(** X14.  When every listed image exists and every pass through the [try] body
    completes with a text that is not empty, a run empties the pending
    file of its items with one pass per item and no sleep; at the end
    every item has an output artifact that is not empty, and no file that
    was there at the start is gone. *)
Theorem answered_run_drains_the_ledger
    (pending_file : option string) (ctx : folder) (fs : gmap string string) :
  let content :=
    match pending_file with Some c => c | None => pending_header end in
  (forall i, In i (load content) -> is_Some (fs !! i)) ->
  (forall n image_path prompt,
     exists text, gemini n image_path prompt = Completed (Some text) /\ text <> "") ->
  let w := main SCRIPT_DIR gemini pending_file ctx fs in
  load (pending w) = [] /\
  requests w = length (load content) /\
  total_wait (timeline (log w)) = 0%nat /\
  (forall i, In i (load content) ->
     artifact_ok (files w) (output_path_of SCRIPT_DIR i) = true) /\
  (forall p, is_Some (fs !! p) -> is_Some (files w !! p)).
Proof.
  intros content Hexist Hanswers w. unfold w. rewrite main_fold. fold content.
  destruct (fold_answered Hanswers (load_global_context ctx)
              (load_context_mapping ctx) (rev (load content))
              {| pending := content; files := fs; requests := 0; log := [] |})
    as (Hp & Hr & (new & Hl & Hw) & Hf & _ & Hall).
  { intros i Hi. apply Hexist. now apply List.in_rev. }
  cbn [pending files requests log app] in *.
  split; [|split; [|split; [|split]]].
  - rewrite Hp. unfold load at 1. rewrite readlines_rewrite, filter_filter.
    rewrite filter_none; [reflexivity|]. intros l Hin.
    destruct (truthy (strip l)) eqn:Ht; [|now rewrite andb_false_r].
    rewrite andb_true_r. apply PreprocessFacts.keeps_none_of_false.
    apply List.in_rev. rewrite List.rev_involutive.
    unfold load. apply List.in_map, List.filter_In. auto.
  - rewrite Hr, length_rev. reflexivity.
  - rewrite Hl. exact Hw.
  - intros i Hi. apply Hall. now apply List.in_rev in Hi.
  - exact Hf.
Qed.

End Script.

Lemma final_pending_file_witness :
  ~ In "b.jpeg"
      (load (pending (main "/repo" silent
                        (Some ("a.jpeg" +:+ nl +:+ "b.jpeg" +:+ nl)) None
                        {[ "a.jpeg" := "A" ]}))).
Proof.
  destruct (final_pending_file "/repo" silent
              (Some ("a.jpeg" +:+ nl +:+ "b.jpeg" +:+ nl)) None {[ "a.jpeg" := "A" ]})
    as (removed & _ & _ & _ & H).
  apply H. vm_compute. auto.
Defined.

Lemma answered_run_drains_the_ledger_witness :
  let w := main "/repo" (steady "text") (Some ("/o/a.jpeg" +:+ nl +:+ "/o/b.jpeg" +:+ nl))
             None {[ "/o/a.jpeg" := "A"; "/o/b.jpeg" := "B" ]} in
  load (pending w) = [] /\ requests w = 2%nat.
Proof.
  destruct (answered_run_drains_the_ledger "/repo" (steady "text")
              (Some ("/o/a.jpeg" +:+ nl +:+ "/o/b.jpeg" +:+ nl))
              None {[ "/o/a.jpeg" := "A"; "/o/b.jpeg" := "B" ]})
    as (Hl & Hr & _).
  - intros i [<-|[<-|[]]]; vm_compute; eauto.
  - intros n image_path prompt. exists "text". split; [reflexivity|discriminate].
  - split; [exact Hl|exact Hr].
Defined.

End FlashRuns.

(** ** More on the document context *)

Module ContextMore.
Import Text Path File TextFacts Flash ContextFileFacts.

Lemma app_not_self (prefix base : string) : prefix <> "" -> prefix +:+ base <> base.
Proof.
  intros Hne E. apply (f_equal String.length) in E. rewrite length_app in E.
  destruct prefix; [congruence|]. simpl in E. lia.
Qed.

(** X15.  The base prompt is always the end of the composed prompt, untouched;
    what may stand in front of it starts with "Given the context: ".  The
    prompt is the bare base prompt exactly when the global context is empty
    and the image has no individual context or an empty one; an empty
    individual context behind a global context leaves an empty line. *)
Theorem composed_prompt_shape
    (base G image_basename : string) (context_mapping : gmap string string) :
  (exists prefix,
     compose_with base G context_mapping image_basename = prefix +:+ base /\
     (prefix = "" \/ startswith prefix "Given the context: " = true)) /\
  (compose_with base G context_mapping image_basename = base <->
   G = "" /\ (context_mapping !! image_basename = None \/
              context_mapping !! image_basename = Some "")) /\
  (G <> "" -> context_mapping !! image_basename = Some "" ->
   compose_with base G context_mapping image_basename
   = "Given the context: " +:+ G +:+ nl +:+ nl +:+ base).
Proof.
  unfold compose_with.
  destruct G as [|g G']; destruct (context_mapping !! image_basename) as [[|x X]|];
    cbn [truthy].
  - split; [exists ""; auto|]. split; [tauto|congruence].
  - split; [|split].
    + eexists. rewrite <- !sapp_assoc. split; [reflexivity|]. auto.
    + split; [|intros [_ [H|H]]; discriminate].
      intros E. exfalso. rewrite <- !sapp_assoc in E.
      revert E. apply app_not_self. discriminate.
    + congruence.
  - split; [exists ""; auto|]. split; [tauto|congruence].
  - rewrite (sapp_cons g G'). cbn [truthy]. rewrite <- (sapp_cons g G').
    split; [|split].
    + eexists. rewrite <- !sapp_assoc. split; [reflexivity|]. auto.
    + split; [|intros [H _]; discriminate].
      intros E. exfalso. rewrite <- !sapp_assoc in E.
      revert E. apply app_not_self. discriminate.
    + intros _ _. now rewrite !sapp_assoc.
  - rewrite (sapp_cons g G'). cbn [truthy]. rewrite <- (sapp_cons g G').
    split; [|split].
    + eexists. rewrite <- !sapp_assoc. split; [reflexivity|]. auto.
    + split; [|intros [H _]; discriminate].
      intros E. exfalso. rewrite <- !sapp_assoc in E.
      revert E. apply app_not_self. discriminate.
    + intros _ [=].
  - split; [|split].
    + eexists. rewrite <- !sapp_assoc. split; [reflexivity|]. auto.
    + split; [|intros [H _]; discriminate].
      intros E. exfalso. rewrite <- !sapp_assoc in E.
      revert E. apply app_not_self. discriminate.
    + intros _ [=].
Qed.

Lemma composed_prompt_shape_witness :
  compose_prompt "G" {[ "img1" := "" ]} "img1"
  = "Given the context: G" +:+ nl +:+ nl +:+ base_prompt.
Proof.
  destruct (composed_prompt_shape base_prompt "G" "img1" {[ "img1" := "" ]})
    as (_ & _ & H).
  apply H; [discriminate|]. vm_compute. reflexivity.
Defined.

Lemma read_file_In (name text : string) (d : list (string * string)) :
  read_file name d = Some text -> In (name, text) d.
Proof.
  induction d as [|[f t] d IH]; [discriminate|].
  simpl. destruct (String.eqb f name) eqn:E.
  - apply String.eqb_eq in E. intros [= <-]. subst. now left.
  - intros H. right. now apply IH.
Qed.

(** X16.  What the script holds of the context folder: texts without white
    space at their ends, each entry of the mapping taken from a file of the
    folder whose lowered name ends in [_context.txt] and is not that of the
    global file, under the key derived from the name of that file; without
    a context folder there is no context at all. *)
Theorem loaded_context_comes_from_the_folder (ctx : folder) :
  strip (load_global_context ctx) = load_global_context ctx /\
  (forall key value,
     load_context_mapping ctx !! key = Some value ->
     strip value = value /\
     exists d file text,
       ctx = Some d /\ In (file, text) d /\ value = strip text /\
       context_key file = key /\
       endswith (lower file) "_context.txt" = true /\
       lower file <> "all_document_context.txt") /\
  (ctx = None ->
   load_global_context ctx = "" /\ load_context_mapping ctx = ∅).
Proof.
  split; [|split].
  - destruct ctx as [d|]; [|reflexivity]. simpl.
    destruct (read_file "ALL_DOCUMENT_CONTEXT.txt" d); [apply strip_idem|reflexivity].
  - intros key value Hlook. destruct ctx as [d|].
    + rewrite context_mapping_lookup in Hlook.
      destruct (last_context_Some _ _ _ Hlook) as (f & text & Hin & Hind & Hk & ->).
      split; [apply strip_idem|]. exists d, f, text.
      unfold is_individual_context_file in Hind.
      apply andb_true_iff in Hind as [Hend Hglob]. apply eqb_neq_true in Hglob.
      auto 10.
    + simpl in Hlook. now rewrite lookup_empty in Hlook.
  - intros ->. split; reflexivity.
Qed.

Lemma loaded_context_comes_from_the_folder_witness :
  exists d file text,
    Some [("img1_context.txt", " X "); ("ALL_DOCUMENT_CONTEXT.txt", "G")] = Some d /\
    In (file, text) d /\ "X" = strip text /\ context_key file = "img1".
Proof.
  destruct (loaded_context_comes_from_the_folder
              (Some [("img1_context.txt", " X "); ("ALL_DOCUMENT_CONTEXT.txt", "G")]))
    as (_ & H & _).
  destruct (H "img1" "X") as [_ (d & file & text & Hd & Hin & Hv & Hk & _)];
    [vm_compute; reflexivity|].
  exists d, file, text. auto.
Defined.

End ContextMore.

(** ** The clean-up of transcriptions *)

Module DetectFacts.
Import Text File TextFacts Detect.

(** A score above the removal threshold is above the review threshold. *)
Lemma exceeds_removal_review (x : pyfloat) :
  exceeds x REMOVAL_THRESHOLD = true -> exceeds x SIMILARITY_THRESHOLD = true.
Proof.
  destruct x as [q| | |]; simpl; auto.
  rewrite !negb_true_iff. intros H.
  destruct (QArith_base.Qle_bool q SIMILARITY_THRESHOLD) eqn:E; [|reflexivity].
  apply QArith_base.Qle_bool_iff in E.
  assert (Hle : QArith_base.Qle q REMOVAL_THRESHOLD).
  { eapply QArith_base.Qle_trans; [exact E|]. unfold QArith_base.Qle. simpl. lia. }
  apply QArith_base.Qle_bool_iff in Hle. congruence.
Qed.

(** *** [splitlines] and [join] *)

Lemma splitlines_no_break_aux (n : nat) :
  forall s, (String.length s <= n)%nat -> Forall (fun l => no_break l = true) (splitlines s).
Proof.
  induction n as [|n IH]; intros s Hlen.
  - destruct s; [constructor|simpl in Hlen; lia].
  - destruct s as [|c s]; [constructor|]. simpl in Hlen.
    cbn [splitlines]. destruct (is_linebreak c) eqn:Hc.
    + constructor; [reflexivity|].
      destruct c as [[] [] [] [] [] [] [] []]; try (apply IH; lia).
      destruct s as [|c' s']; [apply IH; simpl; lia|].
      destruct c' as [[] [] [] [] [] [] [] []]; simpl in Hlen;
        apply IH; simpl; lia.
    + assert (H : Forall (fun l => no_break l = true) (splitlines s)) by (apply IH; lia).
      destruct (splitlines s) as [|l ls].
      * repeat constructor. simpl. now rewrite Hc.
      * inversion H; subst. constructor; [|assumption]. simpl. now rewrite Hc.
Qed.

(** No line of [splitlines] holds a line boundary. *)
Lemma splitlines_no_break (s : string) :
  Forall (fun l => no_break l = true) (splitlines s).
Proof. now apply (splitlines_no_break_aux (String.length s)). Qed.

Lemma splitlines_line (l rest : string) :
  no_break l = true -> splitlines ((l +:+ nl) +:+ rest) = l :: splitlines rest.
Proof.
  intros Hl. induction l as [|c l IH].
  - reflexivity.
  - simpl in Hl. apply andb_true_iff in Hl as [Hc Hl]. apply negb_true_iff in Hc.
    rewrite !sapp_cons. cbn [splitlines]. rewrite Hc, (IH Hl). reflexivity.
Qed.

(** The text written for a list of lines that is not empty. *)
Lemma join_lines_nl (l : string) (ls : list string) :
  join_lines (l :: ls) +:+ nl = (l +:+ nl) +:+ match ls with
                                              | [] => ""
                                              | _ => join_lines ls +:+ nl
                                              end.
Proof.
  destruct ls as [|l' ls]; cbn [join_lines].
  - now rewrite sapp_nil_r.
  - now rewrite !sapp_assoc.
Qed.

Lemma splitlines_join (ls : list string) :
  ls <> [] -> Forall (fun l => no_break l = true) ls ->
  splitlines (join_lines ls +:+ nl) = ls.
Proof.
  intros Hne H. induction H as [|l ls Hl Hls IH]; [congruence|].
  rewrite join_lines_nl, splitlines_line by exact Hl.
  destruct ls as [|l' ls']; [reflexivity|]. f_equal. apply IH. discriminate.
Qed.

Section Scorer.

Variable compute_similarity : string -> string -> pyfloat.
Variable round2 : pyfloat -> pyfloat.

Let run := process_file compute_similarity round2.

Lemma unflagged_keeps_lines (name content : string) :
  (run name content).1 = None ->
  splitlines content <> [] ->
  (run name content).2 = Some (join_lines (splitlines content) +:+ nl).
Proof.
  unfold run, process_file.
  destruct (splitlines content) as [|l ls] eqn:Hlines; [congruence|].
  set (s1 := compute_similarity (strip (first_of (l :: ls))) START_PHRASE).
  set (s2 := compute_similarity (strip (last_of (l :: ls))) END_PHRASE).
  cbn [fst snd].
  destruct (exceeds s1 SIMILARITY_THRESHOLD) eqn:E1; [discriminate|].
  destruct (exceeds s2 SIMILARITY_THRESHOLD) eqn:E2; [discriminate|].
  intros _ _.
  destruct (exceeds s1 REMOVAL_THRESHOLD) eqn:R1;
    [apply exceeds_removal_review in R1; congruence|].
  destruct (exceeds s2 REMOVAL_THRESHOLD) eqn:R2;
    [apply exceeds_removal_review in R2; congruence|].
  reflexivity.
Qed.

(** X17.  A line is removed only from a file that is reported: when the first
    line scores above the removal threshold the file is flagged with that
    line, stripped, as line 1, and likewise the last line with the number
    of lines of the file; a file that is not flagged is written back with
    all its lines. *)
Theorem removal_is_reported (name content : string) :
  splitlines content <> [] ->
  let lines := splitlines content in
  let first := strip (first_of lines) in
  let last := strip (last_of lines) in
  let s1 := compute_similarity first START_PHRASE in
  let s2 := compute_similarity last END_PHRASE in
  (exceeds s1 REMOVAL_THRESHOLD = true ->
     exists info, (run name content).1 = Some info /\ filename info = name /\
       first_line info
       = Some {| line_text := first; line_number := 1;
                 line_similarity := round2 s1 |}) /\
  (exceeds s2 REMOVAL_THRESHOLD = true ->
     exists info, (run name content).1 = Some info /\ filename info = name /\
       last_line info
       = Some {| line_text := last; line_number := length lines;
                 line_similarity := round2 s2 |}) /\
  ((run name content).1 = None ->
     (run name content).2 = Some (join_lines lines +:+ nl)).
Proof.
  intros Hne. cbn zeta.
  split; [|split; [|intros H; now apply unflagged_keeps_lines]].
  - unfold run, process_file.
    destruct (splitlines content) as [|l ls] eqn:Hlines; [congruence|].
    intros H1. rewrite (exceeds_removal_review _ H1). cbn [orb fst].
    eexists. split; [reflexivity|]. split; reflexivity.
  - unfold run, process_file.
    destruct (splitlines content) as [|l ls] eqn:Hlines; [congruence|].
    intros H2. rewrite (exceeds_removal_review _ H2). rewrite orb_true_r.
    cbn [fst]. eexists. split; [reflexivity|]. split; reflexivity.
Qed.

(** X18.  Only the two ends of a file can go.  Of a file of two lines or more
    the lines between the first and the last are written back as they
    are, with the first and the last each there unless it scored above the
    removal threshold; the only line of a one-line file is tested against
    both phrases and goes when either score is above the threshold; a file
    without a line is neither flagged nor written. *)
Theorem only_end_lines_are_removed (name content : string) :
  (forall first middle last,
     splitlines content = first :: middle ++ [last] ->
     (run name content).2
     = Some (join_lines
               ((if exceeds (compute_similarity (strip first) START_PHRASE)
                            REMOVAL_THRESHOLD then [] else [first])
                ++ middle ++
                (if exceeds (compute_similarity (strip last) END_PHRASE)
                            REMOVAL_THRESHOLD then [] else [last]))
             +:+ nl)) /\
  (forall only,
     splitlines content = [only] ->
     (run name content).2
     = Some (join_lines
               (if exceeds (compute_similarity (strip only) START_PHRASE)
                           REMOVAL_THRESHOLD
                   || exceeds (compute_similarity (strip only) END_PHRASE)
                              REMOVAL_THRESHOLD
                then [] else [only])
             +:+ nl)) /\
  (splitlines content = [] -> run name content = (None, None)).
Proof.
  unfold run, process_file. split; [|split].
  - intros first middle last ->. cbn [snd first_of hd].
    unfold last_of. rewrite app_comm_cons, List.last_last.
    destruct (exceeds (compute_similarity (strip first) START_PHRASE) REMOVAL_THRESHOLD);
      destruct (exceeds (compute_similarity (strip last) END_PHRASE) REMOVAL_THRESHOLD);
      cbn [tl app].
    + now rewrite List.removelast_last, app_nil_r.
    + reflexivity.
    + now rewrite app_comm_cons, List.removelast_last, app_nil_r.
    + reflexivity.
  - intros only ->. cbn [snd first_of last_of hd List.last].
    destruct (exceeds (compute_similarity (strip only) START_PHRASE) REMOVAL_THRESHOLD);
      destruct (exceeds (compute_similarity (strip only) END_PHRASE) REMOVAL_THRESHOLD);
      reflexivity.
  - intros ->. reflexivity.
Qed.

Lemma kept_lines (name content : string) :
  splitlines content <> [] ->
  exceeds (compute_similarity (strip (first_of (splitlines content))) START_PHRASE)
          REMOVAL_THRESHOLD = false ->
  exceeds (compute_similarity (strip (last_of (splitlines content))) END_PHRASE)
          REMOVAL_THRESHOLD = false ->
  (run name content).2 = Some (join_lines (splitlines content) +:+ nl).
Proof.
  unfold run, process_file.
  destruct (splitlines content) as [|l ls] eqn:Hlines; [congruence|].
  intros _ -> ->. reflexivity.
Qed.

(** X19.  A file is judged by its lines alone, and the text written for lines
    that were all kept has those same lines, each ended by one LF: cleaning
    the file again, with the same scores, reports the same and writes the
    same text. *)
Theorem rewritten_file_is_stable (name content : string) :
  splitlines content <> [] ->
  exceeds (compute_similarity (strip (first_of (splitlines content))) START_PHRASE)
          REMOVAL_THRESHOLD = false ->
  exceeds (compute_similarity (strip (last_of (splitlines content))) END_PHRASE)
          REMOVAL_THRESHOLD = false ->
  exists written,
    (run name content).2 = Some written /\
    splitlines written = splitlines content /\
    run name written = run name content /\
    (run name written).2 = Some written.
Proof.
  intros Hne H1 H2.
  pose proof (kept_lines name content Hne H1 H2) as Hkeep.
  eexists. split; [exact Hkeep|].
  assert (Hsame : splitlines (join_lines (splitlines content) +:+ nl)
                  = splitlines content)
    by (apply splitlines_join; [exact Hne|apply splitlines_no_break]).
  split; [exact Hsame|].
  assert (Hrun : run name (join_lines (splitlines content) +:+ nl) = run name content)
    by (unfold run, process_file; now rewrite Hsame).
  split; [exact Hrun|]. now rewrite Hrun.
Qed.

(** X20.  The directory after the clean-up lists the same names in the same
    order; what is not a regular file and a file without a line are left as
    they are; and every entry of the report names a regular file of the
    directory that has a line and brings the first line or the last line
    of it. *)
Theorem directory_is_kept (d : list (string * entry)) :
  let r := process_files_in_directory compute_similarity round2 d in
  List.map fst r.2 = List.map fst d /\
  (forall name, In (name, Other) d -> In (name, Other) r.2) /\
  (forall name content,
     In (name, Regular content) d -> splitlines content = [] ->
     In (name, Regular content) r.2) /\
  (forall info, In info r.1 ->
     exists content,
       In (filename info, Regular content) d /\ splitlines content <> [] /\
       (first_line info <> None \/ last_line info <> None)).
Proof.
  induction d as [|[name e] d IH]; cbn [process_files_in_directory].
  - cbn [fst snd List.map]. split; [reflexivity|].
    split; [intros ? []|]. split; [intros ? ? []|intros ? []].
  - destruct (process_files_in_directory compute_similarity round2 d) as [flagged d'].
    cbn [fst snd] in IH. destruct IH as (Hnames & Hother & Hempty & Hflag).
    destruct e as [content|].
    + fold (run name content).
      destruct (run name content) as [info written] eqn:Hrun. cbn [fst snd].
      split; [cbn [List.map fst]; now rewrite Hnames|]. split; [|split].
      * intros n [[=]|Hin]. right. auto.
      * intros n c [[= <- <-]|Hin] Hlines; [|right; auto].
        left. unfold run, process_file in Hrun. rewrite Hlines in Hrun.
        now injection Hrun as <- <-.
      * assert (Hrest : forall i, In i flagged ->
                  exists c, In (filename i, Regular c) ((name, Regular content) :: d)
                            /\ splitlines c <> [] /\
                            (first_line i <> None \/ last_line i <> None)).
        { intros i Hi. destruct (Hflag i Hi) as (c & Hc & H). exists c.
          split; [now right|exact H]. }
        destruct info as [i0|]; [|exact Hrest].
        intros i [<-|Hi]; [|now apply Hrest].
        exists content. unfold run, process_file in Hrun.
        destruct (splitlines content) as [|l ls] eqn:Hlines; [discriminate|].
        injection Hrun as Hinfo _.
        repeat match type of Hinfo with
               | context [exceeds ?x SIMILARITY_THRESHOLD] =>
                   destruct (exceeds x SIMILARITY_THRESHOLD)
               end;
          cbn [orb] in Hinfo; try discriminate;
          injection Hinfo as <-; cbn [filename first_line last_line];
          (split; [now left|]); (split; [discriminate|]);
          first [left; discriminate|right; discriminate].
    + cbn [fst snd]. split; [cbn [List.map fst]; now rewrite Hnames|].
      split; [|split].
      * intros n [[= <-]|Hin]; [now left|right; auto].
      * intros n c [[=]|Hin] Hlines. right. auto.
      * intros i Hi. destruct (Hflag i Hi) as (c & Hc & H). exists c.
        split; [now right|exact H].
Qed.

End Scorer.

Lemma removal_is_reported_witness :
  exists info,
    (process_file sample_scorer id "a.txt"
       ("Here is the text:" +:+ nl +:+ "body" +:+ nl)).1 = Some info /\
    filename info = "a.txt" /\
    first_line info
    = Some {| line_text := "Here is the text:"; line_number := 1;
              line_similarity := Finite (QArith_base.Qmake 9 10) |}.
Proof.
  destruct (removal_is_reported sample_scorer id "a.txt"
              ("Here is the text:" +:+ nl +:+ "body" +:+ nl)) as (H & _ & _).
  - discriminate.
  - apply H. reflexivity.
Defined.

Lemma only_end_lines_are_removed_witness :
  (process_file sample_scorer id "a.txt"
     ("Here is the text:" +:+ nl +:+ "body" +:+ nl +:+ "end" +:+ nl)).2
  = Some ("body" +:+ nl +:+ "end" +:+ nl).
Proof.
  destruct (only_end_lines_are_removed sample_scorer id "a.txt"
              ("Here is the text:" +:+ nl +:+ "body" +:+ nl +:+ "end" +:+ nl))
    as (H & _ & _).
  rewrite (H "Here is the text:" ["body"] "end" eq_refl). reflexivity.
Defined.

Lemma rewritten_file_is_stable_witness :
  exists written,
    (process_file sample_scorer id "a.txt" ("a" +:+ String "013" nl +:+ "b")).2
    = Some written /\
    splitlines written = ["a"; "b"] /\
    (process_file sample_scorer id "a.txt" written).2 = Some written.
Proof.
  destruct (rewritten_file_is_stable sample_scorer id "a.txt"
              ("a" +:+ String "013" nl +:+ "b"))
    as (written & Hw & Hl & _ & Hs).
  - discriminate.
  - reflexivity.
  - reflexivity.
  - exists written. split; [exact Hw|]. split; [exact Hl|exact Hs].
Defined.

Lemma directory_is_kept_witness :
  In ("sub", Other)
     (process_files_in_directory sample_scorer id
        [("a.txt", Regular ("Here is the text:" +:+ nl +:+ "body" +:+ nl));
         ("sub", Other); ("empty.txt", Regular "")]).2.
Proof.
  destruct (directory_is_kept sample_scorer id
              [("a.txt", Regular ("Here is the text:" +:+ nl +:+ "body" +:+ nl));
               ("sub", Other); ("empty.txt", Regular "")]) as (_ & H & _).
  apply H. right. now left.
Defined.

End DetectFacts.

(** ** What counts as an image, for the orchestrator and for the stage *)

Module ExtensionFacts.
Import Text Path File TextFacts ContextFileFacts Orchestrator OrchestratorPaths.

Lemma lower_char_dot (d : ascii) :
  Ascii.eqb (lower_char d) "." = Ascii.eqb d ".".
Proof. destruct d as [[] [] [] [] [] [] [] []]; reflexivity. Qed.

Lemma lower_char_slash (d : ascii) :
  Ascii.eqb (lower_char d) "/" = Ascii.eqb d "/".
Proof. destruct d as [[] [] [] [] [] [] [] []]; reflexivity. Qed.

Lemma rfind_lower (c : ascii) (s : string) :
  (forall d, Ascii.eqb (lower_char d) c = Ascii.eqb d c) ->
  rfind c (lower s) = rfind c s.
Proof.
  intros Hc. induction s as [|a s IH]; [reflexivity|].
  simpl. now rewrite IH, Hc.
Qed.

Lemma lower_drop (n : nat) (s : string) : lower (drop n s) = drop n (lower s).
Proof.
  revert s. induction n as [|n IH]; intros [|a s]; try reflexivity. simpl. apply IH.
Qed.

Lemma valid_ext_shape (ext : string) :
  In ext valid_exts ->
  rfind "." ext = 0 /\ rfind "/" ext = -1 /\ startswith ext "." = true.
Proof. intros [<-|[<-|[<-|[<-|[<-|[]]]]]]; repeat split. Qed.

Lemma startswith_lower_dot (s : string) :
  startswith (lower s) "." = startswith s ".".
Proof.
  destruct s as [|c s]; [reflexivity|]. cbn [lower]. rewrite !startswith_cons.
  now rewrite Ascii.eqb_sym, lower_char_dot, Ascii.eqb_sym.
Qed.

Lemma take1_not_dot (file : string) :
  startswith file "." = false -> String.eqb (take 1 file) "." = false.
Proof.
  destruct file as [|c f]; [reflexivity|]. rewrite startswith_cons. intros H.
  cbn [take]. apply String.eqb_neq. intros [= ->]. discriminate.
Qed.

Lemma rfind_behind_slash (c : ascii) (file : string) :
  rfind c ("/" +:+ file)
  = if 0 <=? rfind c file then rfind c file + 1
    else if Ascii.eqb "/" c then 0 else -1.
Proof. reflexivity. Qed.

(** A plain file name that is not hidden and passes the orchestrator's
    test on its ending has, under any folder, an extension that the
    preprocess stage accepts. *)
Lemma discovered_has_valid_ext (input_path file : string) :
  endswith_any (lower file) valid_exts = true ->
  rfind "/" file = -1 ->
  startswith file "." = false ->
  Preprocess.has_valid_ext (abs_join input_path file) = true.
Proof.
  intros Hends Hplain Hdot.
  unfold endswith_any in Hends. apply List.existsb_exists in Hends as (ext & Hext & He).
  destruct (endswith_split _ _ He) as (a & Hlow).
  destruct (valid_ext_shape ext Hext) as (Hrd & Hrs & Hstart).
  assert (Ha : (1 <= String.length a)%nat).
  { destruct a as [|a0 a']; [|simpl; lia]. exfalso.
    rewrite sapp_nil_l in Hlow. rewrite <- Hlow, startswith_lower_dot in Hstart.
    congruence. }
  set (n := String.length input_path).
  assert (Hfdot : rfind "." file = Z.of_nat (String.length a)).
  { rewrite <- (rfind_lower "." file lower_char_dot), Hlow.
    rewrite rfind_app_found by lia. lia. }
  assert (Hdotp : rfind "." (input_path +:+ "/" +:+ file)
                  = Z.of_nat n + 1 + Z.of_nat (String.length a)).
  { assert (Hs : rfind "." ("/" +:+ file) = Z.of_nat (String.length a) + 1).
    { rewrite rfind_behind_slash, Hfdot.
      destruct (0 <=? Z.of_nat (String.length a)) eqn:E; [reflexivity|].
      apply Z.leb_gt in E. lia. }
    rewrite rfind_app_found; rewrite Hs; unfold n; lia. }
  assert (Hsepp : rfind "/" (input_path +:+ "/" +:+ file) = Z.of_nat n).
  { assert (Hs : rfind "/" ("/" +:+ file) = 0)
      by (rewrite rfind_behind_slash, Hplain; reflexivity).
    rewrite rfind_app_found; rewrite Hs; unfold n; lia. }
  unfold abs_join, Preprocess.has_valid_ext, splitext.
  rewrite Hdotp, Hsepp.
  destruct (Z.of_nat n <? Z.of_nat n + 1 + Z.of_nat (String.length a)) eqn:E;
    [|apply Z.ltb_ge in E; lia].
  rewrite (splitext_loop_found _ _ (Z.of_nat n + 1)).
  - cbn [snd]. apply bool_decide_eq_true_2. apply list_elem_of_In.
    replace (lower (from (Z.of_nat n + 1 + Z.of_nat (String.length a))
                      (input_path +:+ "/" +:+ file))) with ext; [exact Hext|].
    unfold from. rewrite lower_drop, !lower_app, Hlow.
    change (lower "/") with "/".
    replace (lower input_path +:+ "/" +:+ a +:+ ext)
      with ((lower input_path +:+ "/" +:+ a) +:+ ext)
      by (now rewrite !sapp_assoc).
    replace (Z.to_nat (Z.of_nat n + 1 + Z.of_nat (String.length a)))
      with (String.length (lower input_path +:+ "/" +:+ a) + 0)%nat.
    + now rewrite drop_app.
    + rewrite !length_app, length_lower. simpl. unfold n. lia.
  - lia.
  - unfold from. replace (Z.to_nat (Z.of_nat n + 1)) with (n + 1)%nat by lia.
    unfold n. rewrite drop_app. change (drop 1 ("/" +:+ file)) with file.
    now apply take1_not_dot.
Qed.

(** X21.  For file names that are not hidden, what the orchestrator lists
    is what the preprocess stage works on: the items the stage takes from
    a freshly written tracking file, read through
    [open(tracking_file, "r")], are the discovered paths, all of them and
    in listing order.  The input folder may be given in any form; the
    working directory, the folder and the listed names hold no line end
    (LF or CR), and the listed names no slash. *)
Theorem stage_accepts_discovered_images
    (cwd : string)
    (tracking_file : option string) (input_path : string) (listing : list string) :
  decide_repopulate tracking_file = true ->
  startswith cwd "/" = true ->
  no_line_end cwd = true ->
  no_line_end input_path = true ->
  Forall (fun file => no_line_end file = true /\ rfind "/" file = -1 /\
                      startswith file "." = false) listing ->
  exists content,
    populate_tracking cwd tracking_file input_path listing = Some content /\
    Preprocess.to_process_of (read_text content) = discover cwd input_path listing.
Proof.
  intros Hrep Hcwd Hc Hin Hfiles. unfold populate_tracking. rewrite Hrep.
  eexists. split; [reflexivity|].
  assert (Hnl : Forall (fun file => no_line_end file = true /\ rfind "/" file = -1)
                  listing)
    by (eapply List.Forall_impl; [|exact Hfiles]; now intros f (H & H' & _)).
  pose proof (PipelineFacts.discover_ledger_paths cwd input_path listing
                Hcwd Hc Hin Hnl) as Hpaths.
  rewrite PipelineFacts.read_populated
    by (eapply PipelineFacts.Forall_and_r; exact Hpaths).
  apply PipelineFacts.Forall_and_l in Hpaths.
  unfold Preprocess.to_process_of.
  rewrite PipelineFacts.preprocess_load_populated by exact Hpaths.
  rewrite PipelineFacts.filter_valid_sentinel.
  apply LedgerFacts.filter_true. intros p Hp.
  unfold discover in Hp. apply List.in_map_iff in Hp as (file & <- & Hf).
  apply List.filter_In in Hf as [Hl Hext].
  rewrite List.Forall_forall in Hfiles.
  destruct (Hfiles file Hl) as (_ & Hplain & Hdot).
  destruct (listed_name file Hext) as (H0 & H1 & H2).
  destruct (abspath_join_shape cwd input_path file Hcwd Hplain H0 H1 H2)
    as (pre & -> & _).
  now apply discovered_has_valid_ext.
Qed.

Lemma stage_accepts_discovered_images_witness :
  exists content,
    populate_tracking "/home/u" None "in" ["a.PNG"; "notes.txt"; "b.tiff"]
    = Some content /\
    Preprocess.to_process_of (read_text content)
    = ["/home/u/in/a.PNG"; "/home/u/in/b.tiff"].
Proof.
  destruct (stage_accepts_discovered_images "/home/u" None "in"
              ["a.PNG"; "notes.txt"; "b.tiff"])
    as (content & Hc & Ht).
  - reflexivity.
  - reflexivity.
  - reflexivity.
  - reflexivity.
  - repeat constructor.
  - exists content. split; [exact Hc|]. rewrite Ht. reflexivity.
Defined.

(** *** From the image to its transcription *)

Lemma rfind_take (c : ascii) (n : nat) (s : string) :
  rfind c s = -1 -> rfind c (take n s) = -1.
Proof.
  revert s. induction n as [|n IH]; intros [|a s] H; try reflexivity.
  apply rfind_none_cons in H as [Ha Hs]. cbn [take].
  apply rfind_none_cons. auto.
Qed.

Lemma rfind_after_last (c : ascii) (s : string) :
  rfind c (from (rfind c s + 1) s) = -1.
Proof.
  induction s as [|a s IH]; [reflexivity|].
  pose proof (rfind_bounds c s) as Hb. unfold from in *. simpl rfind at 2.
  destruct (0 <=? rfind c s) eqn:E.
  - apply Z.leb_le in E.
    replace (Z.to_nat (rfind c s + 1 + 1)) with (S (Z.to_nat (rfind c s + 1))) by lia.
    exact IH.
  - apply Z.leb_gt in E. assert (Hs : rfind c s = -1) by lia.
    destruct (Ascii.eqb a c) eqn:Ea.
    + simpl. exact Hs.
    + simpl. apply rfind_none_cons. auto.
Qed.

(** The name [os.path.basename] returns and the stem [os.path.splitext]
    cuts from it hold no slash. *)
Lemma basename_plain (p : string) : rfind "/" (basename p) = -1.
Proof. apply rfind_after_last. Qed.

Lemma splitext_loop_cases (n : nat) (dotIndex : Z) (p : string) :
  forall i,
    splitext_loop n i dotIndex p = None \/
    splitext_loop n i dotIndex p = Some (upto dotIndex p, from dotIndex p).
Proof.
  induction n as [|n IH]; intros i; [now left|].
  cbn [splitext_loop].
  destruct (negb (String.eqb (take 1 (from i p)) ".")); [now right|apply IH].
Qed.

Lemma splitext_fst (p : string) :
  (splitext p).1 = p \/ exists i, (splitext p).1 = upto i p.
Proof.
  unfold splitext. destruct (rfind "/" p <? rfind "." p); [|now left].
  destruct (splitext_loop_cases (Z.to_nat (rfind "." p - (rfind "/" p + 1)))
              (rfind "." p) p (rfind "/" p + 1)) as [-> | ->]; [now left|].
  right. eauto.
Qed.

Lemma stem_plain (image_path : string) :
  rfind "/" (splitext (basename image_path)).1 = -1.
Proof.
  destruct (splitext_fst (basename image_path)) as [->|(i & ->)].
  - apply basename_plain.
  - apply rfind_take, basename_plain.
Qed.

Lemma has_non_dot_split (s : string) :
  has_non_dot s = true ->
  exists pre c post, s = pre +:+ String c post /\ Ascii.eqb c "." = false.
Proof.
  induction s as [|a s IH]; [discriminate|].
  simpl. destruct (Ascii.eqb a ".") eqn:Ea; simpl.
  - intros H. destruct (IH H) as (pre & c & post & -> & Hc).
    exists (String a pre), c, post. auto.
  - intros _. exists "", a, s. auto.
Qed.

(** [os.path.splitext] of a plain name with a visible stem and [.jpeg]
    behind it. *)
Lemma splitext_jpeg (name : string) :
  rfind "/" name = -1 -> has_non_dot name = true ->
  splitext (name +:+ ".jpeg") = (name, ".jpeg").
Proof.
  intros Hplain Hstem.
  destruct (has_non_dot_split name Hstem) as (pre & c & post & Hname & Hc).
  unfold splitext.
  rewrite (rfind_app_found "." name ".jpeg") by (vm_compute; discriminate).
  rewrite (rfind_app_none "/" name ".jpeg") by reflexivity.
  rewrite Hplain. change (rfind "." ".jpeg") with 0.
  set (n := String.length name).
  destruct (-1 <? Z.of_nat n + 0) eqn:E; [|apply Z.ltb_ge in E; lia].
  rewrite (splitext_loop_found _ _ (Z.of_nat (String.length pre))).
  - unfold upto, from. replace (Z.to_nat (Z.of_nat n + 0)) with (n + 0)%nat by lia.
    unfold n. rewrite take_app, drop_app. cbn [take drop]. now rewrite sapp_nil_r.
  - assert (String.length pre < n)%nat
      by (unfold n; rewrite Hname, length_app; simpl; lia).
    lia.
  - unfold from. rewrite Nat2Z.id, Hname, sapp_assoc.
    replace (String.length pre) with (String.length pre + 0)%nat by lia.
    rewrite drop_app. cbn [drop]. rewrite sapp_cons. cbn [take].
    apply String.eqb_neq. intros [= ->]. discriminate.
Qed.

Lemma basename_abs_join (dir file : string) :
  rfind "/" file = -1 -> basename (abs_join dir file) = file.
Proof.
  intros Hplain. unfold basename, abs_join.
  assert (Hs : rfind "/" ("/" +:+ file) = 0)
    by (rewrite rfind_behind_slash, Hplain; reflexivity).
  rewrite rfind_app_found; rewrite Hs; [|lia].
  unfold from.
  replace (Z.to_nat (Z.of_nat (String.length dir) + 0 + 1))
    with (String.length dir + 1)%nat by lia.
  now rewrite drop_app.
Qed.

Lemma join_plain (dir file : string) :
  dir <> "" -> endswith dir "/" = false -> startswith file "/" = false ->
  join dir file = abs_join dir file.
Proof.
  intros Hne Hend Hstart. unfold join, abs_join. rewrite Hstart, Hend.
  apply truthy_true in Hne. now rewrite Hne.
Qed.

Lemma plain_no_leading_slash (name suffix : string) :
  rfind "/" name = -1 -> startswith suffix "/" = false ->
  startswith (name +:+ suffix) "/" = false.
Proof.
  intros Hplain Hsuf. destruct name as [|c name]; [exact Hsuf|].
  apply rfind_none_cons in Hplain as [Hc _].
  rewrite sapp_cons, startswith_cons. now rewrite Ascii.eqb_sym.
Qed.

(** X22.  The stem of an image is the name of its transcription.  For an image
    whose stem holds a character other than the dot, the preprocess stage
    writes [<output_folder>/<stem>.jpeg]; the orchestrator gathers exactly
    that path from the folder; and for that path the transcription script
    computes the same stem again and writes [<OUTPUT_DIR>/<stem>.txt]. *)
Theorem transcription_is_named_after_the_image
    (SCRIPT_DIR output_folder image_path : string) :
  let name := (splitext (basename image_path)).1 in
  has_non_dot name = true ->
  output_folder <> "" -> endswith output_folder "/" = false ->
  let jpeg := join output_folder (name +:+ ".jpeg") in
  jpeg = abs_join output_folder (name +:+ ".jpeg") /\
  gather output_folder [name +:+ ".jpeg"] = [jpeg] /\
  (splitext (basename jpeg)).1 = name /\
  Flash.output_path_of SCRIPT_DIR jpeg
  = join (Flash.OUTPUT_DIR SCRIPT_DIR) (name +:+ ".txt").
Proof.
  intros name Hstem Hne Hend jpeg.
  pose proof (stem_plain image_path) as Hplain. fold name in Hplain.
  assert (Hjpeg : jpeg = abs_join output_folder (name +:+ ".jpeg")).
  { unfold jpeg. apply join_plain; auto. now apply plain_no_leading_slash. }
  assert (Hfile : rfind "/" (name +:+ ".jpeg") = -1)
    by (rewrite rfind_app_none; auto).
  assert (Hbase : (splitext (basename jpeg)).1 = name).
  { rewrite Hjpeg, basename_abs_join by exact Hfile.
    now rewrite splitext_jpeg. }
  split; [exact Hjpeg|]. split; [|split; [exact Hbase|]].
  - unfold gather. cbn [List.filter]. rewrite lower_app.
    change (lower ".jpeg") with ".jpeg". rewrite endswith_app.
    cbn [List.map]. now rewrite Hjpeg.
  - unfold Flash.output_path_of. now rewrite Hbase.
Qed.

Lemma transcription_is_named_after_the_image_witness :
  Flash.output_path_of "/repo/Gemini" (join "/out" ("scan.1" +:+ ".jpeg"))
  = "/repo/Gemini/TranscriptionOutputGemini/scan.1.txt".
Proof.
  destruct (transcription_is_named_after_the_image
              "/repo/Gemini" "/out" "/in/scan.1.TIF") as (_ & _ & _ & H).
  - reflexivity.
  - discriminate.
  - reflexivity.
  - exact H.
Defined.

End ExtensionFacts.

(** ** A run while the model cannot be reached *)

Module FlashOutage.
Import Text Path File TextFacts FileFacts LedgerFacts Flash FlashFacts FlashRuns.

Section Script.

Variable SCRIPT_DIR : string.
Variable gemini : nat -> string -> string -> outcome.

Hypothesis unreachable : forall n image_path prompt,
  gemini n image_path prompt = Raised None.

Lemma retry_loop_unreachable (max_retries retry_delay : nat)
    (image_path prompt output_path : string) (remaining : nat) :
  forall attempt w,
    let r := retry_loop gemini max_retries retry_delay remaining attempt
               image_path prompt output_path w in
    r.1 = false /\ files r.2 = files w.
Proof.
  induction remaining as [|rem IH]; intros attempt w; [now split|].
  cbn [retry_loop]. unfold run_try.
  rewrite unreachable. cbn [andb files emit].
  destruct (attempt <? max_retries - 1)%nat; [|now split].
  destruct (IH (S attempt)
              (emit (Sleep (retry_delay * 3 ^ attempt))
                 (emit (Error image_path attempt)
                    {| pending := pending w; files := files w;
                       requests := S (requests w);
                       log := log w ++ [Attempt image_path prompt attempt] |})))
    as [H1 H2].
  split; [exact H1|exact H2].
Qed.

Section Item.

Variable global_context : string.
Variable context_mapping : gmap string string.

Let step := process_one SCRIPT_DIR gemini global_context context_mapping.

Let present (fs : gmap string string) (i : string) : bool :=
  bool_decide (is_Some (fs !! i)).

Lemma process_one_unreachable (w : world) (image_path : string) :
  let w' := step w image_path in
  files w' = files w /\
  pending w' = (if present (files w) image_path then pending w
                else remove_from_pending (pending w) image_path) /\
  requests w' = (requests w + if present (files w) image_path then 3 else 0)%nat /\
  exists new,
    log w' = log w ++ new /\
    total_wait (timeline new)
    = (if present (files w) image_path then 20 else 0)%nat.
Proof.
  unfold present. destruct (files w !! image_path) as [img|] eqn:Himg.
  - assert (Hsome : is_Some (files w !! image_path)) by (rewrite Himg; eauto).
    rewrite bool_decide_eq_true_2 by (rewrite <- Himg; exact Hsome).
    cbn zeta. unfold step. rewrite process_one_present by exact Hsome. cbn zeta.
    set (prompt := compose_prompt global_context context_mapping
                     (splitext (basename image_path)).1).
    set (out := output_path_of SCRIPT_DIR image_path).
    destruct (retry_loop_unreachable MAX_RETRIES RETRY_DELAY image_path prompt out
                MAX_RETRIES 0 w) as [Hfail Hfiles].
    destruct (retry_loop_spec gemini MAX_RETRIES RETRY_DELAY image_path prompt out
                MAX_RETRIES 0 w eq_refl)
      as (Hp & _ & new & k & Hlog & Hreq & _ & _ & Hk & Ht).
    rewrite Hfail in *. rewrite (Hk eq_refl) in *.
    split; [exact Hfiles|]. split; [exact Hp|]. split; [exact Hreq|].
    exists new. split; [exact Hlog|]. rewrite Ht. reflexivity.
  - rewrite bool_decide_eq_false_2
      by (rewrite <- Himg; intros [? ?]; congruence).
    cbn zeta. unfold step. rewrite process_one_missing by exact Himg.
    cbn [files pending requests log set_pending emit].
    split; [reflexivity|]. split; [reflexivity|]. split; [lia|].
    exists [Warning image_path]. split; reflexivity.
Qed.

Lemma fold_unreachable (items : list string) :
  forall w : world,
  let w' := fold_left step items w in
  let missing := List.filter (fun i => negb (present (files w) i)) items in
  let found := List.filter (present (files w)) items in
  files w' = files w /\
  pending w'
  = write_lines (List.filter (keeps_none_of missing) (readlines (pending w))) /\
  requests w' = (requests w + 3 * length found)%nat /\
  exists new,
    log w' = log w ++ new /\
    total_wait (timeline new) = (20 * length found)%nat.
Proof.
  induction items as [|i items IH]; intros w.
  - simpl. rewrite filter_true, write_readlines by now intros.
    split; [reflexivity|]. split; [reflexivity|]. split; [lia|].
    exists []. now rewrite app_nil_r.
  - cbn [fold_left]. cbn zeta.
    destruct (process_one_unreachable w i) as (Hf1 & Hp1 & Hr1 & new1 & Hl1 & Hw1).
    destruct (IH (step w i)) as (Hf2 & Hp2 & Hr2 & new2 & Hl2 & Hw2).
    rewrite Hf1 in *. cbn [List.filter].
    split; [now rewrite Hf2|]. split; [|split].
    + rewrite Hp2, Hp1. destruct (present (files w) i); cbn [negb]; [reflexivity|].
      rewrite remove_from_pending_lines, filter_filter. f_equal.
      apply List.filter_ext. intros l. unfold keeps, keeps_none_of. simpl.
      now rewrite negb_orb.
    + rewrite Hr2, Hr1. destruct (present (files w) i); simpl length; lia.
    + exists (new1 ++ new2). split; [rewrite Hl2, Hl1; now rewrite app_assoc|].
      rewrite timeline_app, total_wait_app, Hw1, Hw2.
      destruct (present (files w) i); simpl length; lia.
Qed.

End Item.

(** X23.  While the model raises on every call, a run drops the items whose
    image is missing and nothing else: the items left in the pending file
    are the listed images that exist, in their old order; each of them cost
    three attempts and 20 seconds of sleep; and no file was written. *)
Theorem outage_keeps_every_present_item
    (pending_file : option string) (ctx : folder) (fs : gmap string string) :
  let content :=
    match pending_file with Some c => c | None => pending_header end in
  let found :=
    List.filter (fun i => bool_decide (is_Some (fs !! i))) (load content) in
  let w := main SCRIPT_DIR gemini pending_file ctx fs in
  load (pending w) = found /\
  files w = fs /\
  requests w = (3 * length found)%nat /\
  total_wait (timeline (log w)) = (20 * length found)%nat.
Proof.
  intros content found w. unfold w. rewrite main_fold. fold content.
  destruct (fold_unreachable (load_global_context ctx) (load_context_mapping ctx)
              (rev (load content))
              {| pending := content; files := fs; requests := 0; log := [] |})
    as (Hf & Hp & Hr & new & Hl & Hw).
  cbn [pending files requests log app] in *.
  assert (Hlen : length (List.filter (fun i => bool_decide (is_Some (fs !! i)))
                           (rev (load content))) = length found).
  { unfold found. now rewrite List.filter_rev, length_rev. }
  rewrite Hlen in *.
  split; [|split; [exact Hf|split; [exact Hr|rewrite Hl; exact Hw]]].
  rewrite Hp. unfold load at 1. rewrite readlines_rewrite, filter_filter.
  unfold found, load. rewrite filter_map, filter_filter. f_equal.
  apply List.filter_ext_in. intros l Hin.
  destruct (truthy (strip l)) eqn:Ht; [|now rewrite andb_false_r].
  rewrite andb_true_r. cbn [andb].
  destruct (bool_decide (is_Some (fs !! strip l))) eqn:Hex.
  - apply PreprocessFacts.keeps_none_of_true. rewrite List.filter_In.
    intros [_ H]. now rewrite Hex in H.
  - apply PreprocessFacts.keeps_none_of_false. apply List.filter_In.
    split; [|now rewrite Hex]. apply List.in_rev. rewrite List.rev_involutive.
    unfold load. apply List.in_map, List.filter_In. auto.
Qed.

End Script.

Lemma outage_keeps_every_present_item_witness :
  let w := main "/repo" silent (Some ("a.jpeg" +:+ nl +:+ "b.jpeg" +:+ nl)) None
             {[ "a.jpeg" := "A" ]} in
  load (pending w) = ["a.jpeg"] /\ requests w = 3%nat.
Proof.
  destruct (outage_keeps_every_present_item "/repo" silent
              (fun _ _ _ => eq_refl)
              (Some ("a.jpeg" +:+ nl +:+ "b.jpeg" +:+ nl)) None {[ "a.jpeg" := "A" ]})
    as (Hl & _ & Hr & _).
  split; [rewrite Hl|rewrite Hr]; reflexivity.
Defined.

End FlashOutage.
